(** * Hot-potato arena

    A shallow embedding of the authoritative room simulation ([server.js]) and
    of the client's prediction / reconciliation code ([GameCanvas.tsx]).

    JavaScript numbers are idealised as real numbers: [Math.sqrt],
    [Math.hypot], [Math.cos], [Math.sin], [Math.atan2], [Math.max] and
    [Math.min] are their mathematical counterparts, and the comparisons are the
    (classically decided) order of [R].  [Date.now ()] and [Math.random ()] are
    inputs: the clock is a parameter [now] of every handler and the random
    source is an oracle [rnd : nat -> R] read through a cursor. *)

From Stdlib Require Import Reals Lra Lia List String ZArith Bool.
Import ListNotations.

Open Scope R_scope.

(** ** JavaScript number primitives *)

Module JS.

Definition ltb (a b : R) : bool := if Rlt_dec a b then true else false.
Definition leb (a b : R) : bool := if Rle_dec a b then true else false.
Definition gtb (a b : R) : bool := ltb b a.
Definition geb (a b : R) : bool := leb b a.
Definition eqb (a b : R) : bool := if Req_dec_T a b then true else false.

(** [Math.hypot (a, b)] *)
Definition hypot (a b : R) : R := sqrt (a * a + b * b).

(** [Math.atan2 (b, a)]: the angle of the point [(a, b)]. *)
Definition atan2 (b a : R) : R :=
  if Rlt_dec 0 a then atan (b / a)
  else if Rlt_dec a 0 then
    if Rle_dec 0 b then atan (b / a) + PI else atan (b / a) - PI
  else if Rlt_dec 0 b then PI / 2
  else if Rlt_dec b 0 then - (PI / 2)
  else 0.

(** [Math.floor] *)
Definition floor (a : R) : Z := Zfloor a.

(** [a || b] on numbers: [0] is the only falsy real. *)
Definition or_else (a b : R) : R := if Req_dec_T a 0 then b else a.

(** Truthiness of a string-or-null value: [null] and the empty string are falsy. *)
Definition truthy (s : option string) : bool :=
  match s with
  | None => false
  | Some s => negb (s =? EmptyString)%string
  end.

End JS.

Notation "a <? b" := (JS.ltb a b) : R_scope.
Notation "a <=? b" := (JS.leb a b) : R_scope.
Notation "a >? b" := (JS.gtb a b) : R_scope.
Notation "a >=? b" := (JS.geb a b) : R_scope.

(** ** Game constants (shared by server and client) *)

Definition CANVAS_WIDTH : R := 2000.
Definition CANVAS_HEIGHT : R := 2000.
Definition PLAYER_RADIUS : R := 25.
Definition POTATO_RADIUS : R := 20.
Definition POWERUP_RADIUS : R := 20.
Definition BASE_SPEED : R := 250.
Definition POTATO_SPEED : R := 230.
Definition SLIME_RADIUS : R := 80.
Definition MIN_OBSTACLE_GAP : R := 80.
Definition GRID_SIZE : R := 50.

(** ** Data model *)

Record Vector2 : Type := vec { x : R; y : R }.

Record Obstacle : Type := mkObstacle {
  obs_id : string;
  obs_x : R;
  obs_y : R;
  width : R;
  height : R
}.

Record SlimeArea : Type := mkSlimeArea {
  slime_id : R;
  ownerId : string;
  slime_x : R;
  slime_y : R;
  slime_radius : R;
  spawnTime : R;
  duration : R
}.

Inductive PowerupType : Type :=
  SPEED | COOLDOWN_RESET | GHOST | MAGNET | FREEZE | DOUBLE_POINTS.

Record Powerup : Type := mkPowerup {
  pu_id : R;
  pu_type : PowerupType;
  pu_position : Vector2;
  pu_spawnTime : R;
  pu_radius : R
}.

Record Player : Type := mkPlayer {
  id : string;
  name : string;
  color : string;
  isBot : bool;
  position : Vector2;
  velocity : Vector2;
  radius : R;
  speed : R;
  isDead : bool;
  score : R;
  lives : Z;
  ping : R;
  dashCooldown : R;
  shieldCooldown : R;
  smokeCooldown : R;
  slimeCooldown : R;
  isShielded : bool;
  isHidden : bool;
  isGhost : bool;
  isSilenced : bool;
  isSlowed : bool;
  speedBoostEndTime : R;
  input : Vector2
}.

Record Potato : Type := mkPotato {
  pot_position : Vector2;
  pot_velocity : Vector2;
  pot_radius : R;
  pot_speed : R;
  targetId : option string;
  isFrozen : bool;
  freezeEndTime : R
}.

Inductive RoomState : Type := WAITING | PLAYING | GAME_OVER.

Record GameRoom : Type := mkGameRoom {
  room_id : string;
  hostId : string;
  initialPotatoSpeed : R;
  maxPlayers : R;
  isPrivate : bool;
  players : list Player;
  potatoes : list Potato;
  powerups : list Powerup;
  obstacles : list Obstacle;
  slimeAreas : list SlimeArea;
  state : RoomState;
  lastUpdate : R;
  potatoSpeedMultiplier : R;
  startTime : R;
  gameEnded : bool;
  lastSurvivorId : option string
}.

(** Field assignment [p.f = v], one function per assigned field. *)

Definition set_position (v : Vector2) (p : Player) : Player :=
  {| id := id p; name := name p; color := color p; isBot := isBot p; position := v;
     velocity := velocity p; radius := radius p; speed := speed p; isDead := isDead p;
     score := score p; lives := lives p; ping := ping p; dashCooldown := dashCooldown p;
     shieldCooldown := shieldCooldown p; smokeCooldown := smokeCooldown p; slimeCooldown
     := slimeCooldown p; isShielded := isShielded p; isHidden := isHidden p; isGhost :=
     isGhost p; isSilenced := isSilenced p; isSlowed := isSlowed p; speedBoostEndTime :=
     speedBoostEndTime p; input := input p |}.
Definition set_speed (v : R) (p : Player) : Player :=
  {| id := id p; name := name p; color := color p; isBot := isBot p; position :=
     position p; velocity := velocity p; radius := radius p; speed := v; isDead :=
     isDead p; score := score p; lives := lives p; ping := ping p; dashCooldown :=
     dashCooldown p; shieldCooldown := shieldCooldown p; smokeCooldown := smokeCooldown
     p; slimeCooldown := slimeCooldown p; isShielded := isShielded p; isHidden :=
     isHidden p; isGhost := isGhost p; isSilenced := isSilenced p; isSlowed := isSlowed
     p; speedBoostEndTime := speedBoostEndTime p; input := input p |}.
Definition set_isDead (v : bool) (p : Player) : Player :=
  {| id := id p; name := name p; color := color p; isBot := isBot p; position :=
     position p; velocity := velocity p; radius := radius p; speed := speed p; isDead :=
     v; score := score p; lives := lives p; ping := ping p; dashCooldown := dashCooldown
     p; shieldCooldown := shieldCooldown p; smokeCooldown := smokeCooldown p;
     slimeCooldown := slimeCooldown p; isShielded := isShielded p; isHidden := isHidden
     p; isGhost := isGhost p; isSilenced := isSilenced p; isSlowed := isSlowed p;
     speedBoostEndTime := speedBoostEndTime p; input := input p |}.
Definition set_score (v : R) (p : Player) : Player :=
  {| id := id p; name := name p; color := color p; isBot := isBot p; position :=
     position p; velocity := velocity p; radius := radius p; speed := speed p; isDead :=
     isDead p; score := v; lives := lives p; ping := ping p; dashCooldown :=
     dashCooldown p; shieldCooldown := shieldCooldown p; smokeCooldown := smokeCooldown
     p; slimeCooldown := slimeCooldown p; isShielded := isShielded p; isHidden :=
     isHidden p; isGhost := isGhost p; isSilenced := isSilenced p; isSlowed := isSlowed
     p; speedBoostEndTime := speedBoostEndTime p; input := input p |}.
Definition set_lives (v : Z) (p : Player) : Player :=
  {| id := id p; name := name p; color := color p; isBot := isBot p; position :=
     position p; velocity := velocity p; radius := radius p; speed := speed p; isDead :=
     isDead p; score := score p; lives := v; ping := ping p; dashCooldown :=
     dashCooldown p; shieldCooldown := shieldCooldown p; smokeCooldown := smokeCooldown
     p; slimeCooldown := slimeCooldown p; isShielded := isShielded p; isHidden :=
     isHidden p; isGhost := isGhost p; isSilenced := isSilenced p; isSlowed := isSlowed
     p; speedBoostEndTime := speedBoostEndTime p; input := input p |}.
Definition set_ping (v : R) (p : Player) : Player :=
  {| id := id p; name := name p; color := color p; isBot := isBot p; position :=
     position p; velocity := velocity p; radius := radius p; speed := speed p; isDead :=
     isDead p; score := score p; lives := lives p; ping := v; dashCooldown :=
     dashCooldown p; shieldCooldown := shieldCooldown p; smokeCooldown := smokeCooldown
     p; slimeCooldown := slimeCooldown p; isShielded := isShielded p; isHidden :=
     isHidden p; isGhost := isGhost p; isSilenced := isSilenced p; isSlowed := isSlowed
     p; speedBoostEndTime := speedBoostEndTime p; input := input p |}.
Definition set_dashCooldown (v : R) (p : Player) : Player :=
  {| id := id p; name := name p; color := color p; isBot := isBot p; position :=
     position p; velocity := velocity p; radius := radius p; speed := speed p; isDead :=
     isDead p; score := score p; lives := lives p; ping := ping p; dashCooldown := v;
     shieldCooldown := shieldCooldown p; smokeCooldown := smokeCooldown p; slimeCooldown
     := slimeCooldown p; isShielded := isShielded p; isHidden := isHidden p; isGhost :=
     isGhost p; isSilenced := isSilenced p; isSlowed := isSlowed p; speedBoostEndTime :=
     speedBoostEndTime p; input := input p |}.
Definition set_shieldCooldown (v : R) (p : Player) : Player :=
  {| id := id p; name := name p; color := color p; isBot := isBot p; position :=
     position p; velocity := velocity p; radius := radius p; speed := speed p; isDead :=
     isDead p; score := score p; lives := lives p; ping := ping p; dashCooldown :=
     dashCooldown p; shieldCooldown := v; smokeCooldown := smokeCooldown p;
     slimeCooldown := slimeCooldown p; isShielded := isShielded p; isHidden := isHidden
     p; isGhost := isGhost p; isSilenced := isSilenced p; isSlowed := isSlowed p;
     speedBoostEndTime := speedBoostEndTime p; input := input p |}.
Definition set_smokeCooldown (v : R) (p : Player) : Player :=
  {| id := id p; name := name p; color := color p; isBot := isBot p; position :=
     position p; velocity := velocity p; radius := radius p; speed := speed p; isDead :=
     isDead p; score := score p; lives := lives p; ping := ping p; dashCooldown :=
     dashCooldown p; shieldCooldown := shieldCooldown p; smokeCooldown := v;
     slimeCooldown := slimeCooldown p; isShielded := isShielded p; isHidden := isHidden
     p; isGhost := isGhost p; isSilenced := isSilenced p; isSlowed := isSlowed p;
     speedBoostEndTime := speedBoostEndTime p; input := input p |}.
Definition set_slimeCooldown (v : R) (p : Player) : Player :=
  {| id := id p; name := name p; color := color p; isBot := isBot p; position :=
     position p; velocity := velocity p; radius := radius p; speed := speed p; isDead :=
     isDead p; score := score p; lives := lives p; ping := ping p; dashCooldown :=
     dashCooldown p; shieldCooldown := shieldCooldown p; smokeCooldown := smokeCooldown
     p; slimeCooldown := v; isShielded := isShielded p; isHidden := isHidden p; isGhost
     := isGhost p; isSilenced := isSilenced p; isSlowed := isSlowed p; speedBoostEndTime
     := speedBoostEndTime p; input := input p |}.
Definition set_isShielded (v : bool) (p : Player) : Player :=
  {| id := id p; name := name p; color := color p; isBot := isBot p; position :=
     position p; velocity := velocity p; radius := radius p; speed := speed p; isDead :=
     isDead p; score := score p; lives := lives p; ping := ping p; dashCooldown :=
     dashCooldown p; shieldCooldown := shieldCooldown p; smokeCooldown := smokeCooldown
     p; slimeCooldown := slimeCooldown p; isShielded := v; isHidden := isHidden p;
     isGhost := isGhost p; isSilenced := isSilenced p; isSlowed := isSlowed p;
     speedBoostEndTime := speedBoostEndTime p; input := input p |}.
Definition set_isHidden (v : bool) (p : Player) : Player :=
  {| id := id p; name := name p; color := color p; isBot := isBot p; position :=
     position p; velocity := velocity p; radius := radius p; speed := speed p; isDead :=
     isDead p; score := score p; lives := lives p; ping := ping p; dashCooldown :=
     dashCooldown p; shieldCooldown := shieldCooldown p; smokeCooldown := smokeCooldown
     p; slimeCooldown := slimeCooldown p; isShielded := isShielded p; isHidden := v;
     isGhost := isGhost p; isSilenced := isSilenced p; isSlowed := isSlowed p;
     speedBoostEndTime := speedBoostEndTime p; input := input p |}.
Definition set_isGhost (v : bool) (p : Player) : Player :=
  {| id := id p; name := name p; color := color p; isBot := isBot p; position :=
     position p; velocity := velocity p; radius := radius p; speed := speed p; isDead :=
     isDead p; score := score p; lives := lives p; ping := ping p; dashCooldown :=
     dashCooldown p; shieldCooldown := shieldCooldown p; smokeCooldown := smokeCooldown
     p; slimeCooldown := slimeCooldown p; isShielded := isShielded p; isHidden :=
     isHidden p; isGhost := v; isSilenced := isSilenced p; isSlowed := isSlowed p;
     speedBoostEndTime := speedBoostEndTime p; input := input p |}.
Definition set_isSilenced (v : bool) (p : Player) : Player :=
  {| id := id p; name := name p; color := color p; isBot := isBot p; position :=
     position p; velocity := velocity p; radius := radius p; speed := speed p; isDead :=
     isDead p; score := score p; lives := lives p; ping := ping p; dashCooldown :=
     dashCooldown p; shieldCooldown := shieldCooldown p; smokeCooldown := smokeCooldown
     p; slimeCooldown := slimeCooldown p; isShielded := isShielded p; isHidden :=
     isHidden p; isGhost := isGhost p; isSilenced := v; isSlowed := isSlowed p;
     speedBoostEndTime := speedBoostEndTime p; input := input p |}.
Definition set_isSlowed (v : bool) (p : Player) : Player :=
  {| id := id p; name := name p; color := color p; isBot := isBot p; position :=
     position p; velocity := velocity p; radius := radius p; speed := speed p; isDead :=
     isDead p; score := score p; lives := lives p; ping := ping p; dashCooldown :=
     dashCooldown p; shieldCooldown := shieldCooldown p; smokeCooldown := smokeCooldown
     p; slimeCooldown := slimeCooldown p; isShielded := isShielded p; isHidden :=
     isHidden p; isGhost := isGhost p; isSilenced := isSilenced p; isSlowed := v;
     speedBoostEndTime := speedBoostEndTime p; input := input p |}.
Definition set_speedBoostEndTime (v : R) (p : Player) : Player :=
  {| id := id p; name := name p; color := color p; isBot := isBot p; position :=
     position p; velocity := velocity p; radius := radius p; speed := speed p; isDead :=
     isDead p; score := score p; lives := lives p; ping := ping p; dashCooldown :=
     dashCooldown p; shieldCooldown := shieldCooldown p; smokeCooldown := smokeCooldown
     p; slimeCooldown := slimeCooldown p; isShielded := isShielded p; isHidden :=
     isHidden p; isGhost := isGhost p; isSilenced := isSilenced p; isSlowed := isSlowed
     p; speedBoostEndTime := v; input := input p |}.
Definition set_input (v : Vector2) (p : Player) : Player :=
  {| id := id p; name := name p; color := color p; isBot := isBot p; position :=
     position p; velocity := velocity p; radius := radius p; speed := speed p; isDead :=
     isDead p; score := score p; lives := lives p; ping := ping p; dashCooldown :=
     dashCooldown p; shieldCooldown := shieldCooldown p; smokeCooldown := smokeCooldown
     p; slimeCooldown := slimeCooldown p; isShielded := isShielded p; isHidden :=
     isHidden p; isGhost := isGhost p; isSilenced := isSilenced p; isSlowed := isSlowed
     p; speedBoostEndTime := speedBoostEndTime p; input := v |}.
Definition set_pot_position (v : Vector2) (q : Potato) : Potato :=
  {| pot_position := v; pot_velocity := pot_velocity q; pot_radius := pot_radius q;
     pot_speed := pot_speed q; targetId := targetId q; isFrozen := isFrozen q;
     freezeEndTime := freezeEndTime q |}.
Definition set_targetId (v : option string) (q : Potato) : Potato :=
  {| pot_position := pot_position q; pot_velocity := pot_velocity q; pot_radius :=
     pot_radius q; pot_speed := pot_speed q; targetId := v; isFrozen := isFrozen q;
     freezeEndTime := freezeEndTime q |}.
Definition set_isFrozen (v : bool) (q : Potato) : Potato :=
  {| pot_position := pot_position q; pot_velocity := pot_velocity q; pot_radius :=
     pot_radius q; pot_speed := pot_speed q; targetId := targetId q; isFrozen := v;
     freezeEndTime := freezeEndTime q |}.
Definition set_freezeEndTime (v : R) (q : Potato) : Potato :=
  {| pot_position := pot_position q; pot_velocity := pot_velocity q; pot_radius :=
     pot_radius q; pot_speed := pot_speed q; targetId := targetId q; isFrozen :=
     isFrozen q; freezeEndTime := v |}.
Definition set_hostId (v : string) (r : GameRoom) : GameRoom :=
  {| room_id := room_id r; hostId := v; initialPotatoSpeed := initialPotatoSpeed r;
     maxPlayers := maxPlayers r; isPrivate := isPrivate r; players := players r;
     potatoes := potatoes r; powerups := powerups r; obstacles := obstacles r;
     slimeAreas := slimeAreas r; state := state r; lastUpdate := lastUpdate r;
     potatoSpeedMultiplier := potatoSpeedMultiplier r; startTime := startTime r;
     gameEnded := gameEnded r; lastSurvivorId := lastSurvivorId r |}.
Definition set_players (v : list Player) (r : GameRoom) : GameRoom :=
  {| room_id := room_id r; hostId := hostId r; initialPotatoSpeed := initialPotatoSpeed
     r; maxPlayers := maxPlayers r; isPrivate := isPrivate r; players := v; potatoes :=
     potatoes r; powerups := powerups r; obstacles := obstacles r; slimeAreas :=
     slimeAreas r; state := state r; lastUpdate := lastUpdate r; potatoSpeedMultiplier
     := potatoSpeedMultiplier r; startTime := startTime r; gameEnded := gameEnded r;
     lastSurvivorId := lastSurvivorId r |}.
Definition set_potatoes (v : list Potato) (r : GameRoom) : GameRoom :=
  {| room_id := room_id r; hostId := hostId r; initialPotatoSpeed := initialPotatoSpeed
     r; maxPlayers := maxPlayers r; isPrivate := isPrivate r; players := players r;
     potatoes := v; powerups := powerups r; obstacles := obstacles r; slimeAreas :=
     slimeAreas r; state := state r; lastUpdate := lastUpdate r; potatoSpeedMultiplier
     := potatoSpeedMultiplier r; startTime := startTime r; gameEnded := gameEnded r;
     lastSurvivorId := lastSurvivorId r |}.
Definition set_powerups (v : list Powerup) (r : GameRoom) : GameRoom :=
  {| room_id := room_id r; hostId := hostId r; initialPotatoSpeed := initialPotatoSpeed
     r; maxPlayers := maxPlayers r; isPrivate := isPrivate r; players := players r;
     potatoes := potatoes r; powerups := v; obstacles := obstacles r; slimeAreas :=
     slimeAreas r; state := state r; lastUpdate := lastUpdate r; potatoSpeedMultiplier
     := potatoSpeedMultiplier r; startTime := startTime r; gameEnded := gameEnded r;
     lastSurvivorId := lastSurvivorId r |}.
Definition set_slimeAreas (v : list SlimeArea) (r : GameRoom) : GameRoom :=
  {| room_id := room_id r; hostId := hostId r; initialPotatoSpeed := initialPotatoSpeed
     r; maxPlayers := maxPlayers r; isPrivate := isPrivate r; players := players r;
     potatoes := potatoes r; powerups := powerups r; obstacles := obstacles r;
     slimeAreas := v; state := state r; lastUpdate := lastUpdate r;
     potatoSpeedMultiplier := potatoSpeedMultiplier r; startTime := startTime r;
     gameEnded := gameEnded r; lastSurvivorId := lastSurvivorId r |}.
Definition set_state (v : RoomState) (r : GameRoom) : GameRoom :=
  {| room_id := room_id r; hostId := hostId r; initialPotatoSpeed := initialPotatoSpeed
     r; maxPlayers := maxPlayers r; isPrivate := isPrivate r; players := players r;
     potatoes := potatoes r; powerups := powerups r; obstacles := obstacles r;
     slimeAreas := slimeAreas r; state := v; lastUpdate := lastUpdate r;
     potatoSpeedMultiplier := potatoSpeedMultiplier r; startTime := startTime r;
     gameEnded := gameEnded r; lastSurvivorId := lastSurvivorId r |}.
Definition set_lastUpdate (v : R) (r : GameRoom) : GameRoom :=
  {| room_id := room_id r; hostId := hostId r; initialPotatoSpeed := initialPotatoSpeed
     r; maxPlayers := maxPlayers r; isPrivate := isPrivate r; players := players r;
     potatoes := potatoes r; powerups := powerups r; obstacles := obstacles r;
     slimeAreas := slimeAreas r; state := state r; lastUpdate := v;
     potatoSpeedMultiplier := potatoSpeedMultiplier r; startTime := startTime r;
     gameEnded := gameEnded r; lastSurvivorId := lastSurvivorId r |}.
Definition set_potatoSpeedMultiplier (v : R) (r : GameRoom) : GameRoom :=
  {| room_id := room_id r; hostId := hostId r; initialPotatoSpeed := initialPotatoSpeed
     r; maxPlayers := maxPlayers r; isPrivate := isPrivate r; players := players r;
     potatoes := potatoes r; powerups := powerups r; obstacles := obstacles r;
     slimeAreas := slimeAreas r; state := state r; lastUpdate := lastUpdate r;
     potatoSpeedMultiplier := v; startTime := startTime r; gameEnded := gameEnded r;
     lastSurvivorId := lastSurvivorId r |}.
Definition set_startTime (v : R) (r : GameRoom) : GameRoom :=
  {| room_id := room_id r; hostId := hostId r; initialPotatoSpeed := initialPotatoSpeed
     r; maxPlayers := maxPlayers r; isPrivate := isPrivate r; players := players r;
     potatoes := potatoes r; powerups := powerups r; obstacles := obstacles r;
     slimeAreas := slimeAreas r; state := state r; lastUpdate := lastUpdate r;
     potatoSpeedMultiplier := potatoSpeedMultiplier r; startTime := v; gameEnded :=
     gameEnded r; lastSurvivorId := lastSurvivorId r |}.
Definition set_gameEnded (v : bool) (r : GameRoom) : GameRoom :=
  {| room_id := room_id r; hostId := hostId r; initialPotatoSpeed := initialPotatoSpeed
     r; maxPlayers := maxPlayers r; isPrivate := isPrivate r; players := players r;
     potatoes := potatoes r; powerups := powerups r; obstacles := obstacles r;
     slimeAreas := slimeAreas r; state := state r; lastUpdate := lastUpdate r;
     potatoSpeedMultiplier := potatoSpeedMultiplier r; startTime := startTime r;
     gameEnded := v; lastSurvivorId := lastSurvivorId r |}.
Definition set_lastSurvivorId (v : option string) (r : GameRoom) : GameRoom :=
  {| room_id := room_id r; hostId := hostId r; initialPotatoSpeed := initialPotatoSpeed
     r; maxPlayers := maxPlayers r; isPrivate := isPrivate r; players := players r;
     potatoes := potatoes r; powerups := powerups r; obstacles := obstacles r;
     slimeAreas := slimeAreas r; state := state r; lastUpdate := lastUpdate r;
     potatoSpeedMultiplier := potatoSpeedMultiplier r; startTime := startTime r;
     gameEnded := gameEnded r; lastSurvivorId := v |}.

(** The [players] object of a room: keys are socket ids, iterated in insertion
    order ([Object.values], [Object.keys]). *)

Fixpoint lookupPlayer (sid : string) (ps : list Player) : option Player :=
  match ps with
  | [] => None
  | p :: rest => if (id p =? sid)%string then Some p else lookupPlayer sid rest
  end.

(** [players[sid] = p]: replaces in place, or appends a new key. *)
Fixpoint putPlayer (p : Player) (ps : list Player) : list Player :=
  match ps with
  | [] => [p]
  | q :: rest => if (id q =? id p)%string then p :: rest else q :: putPlayer p rest
  end.

(** [players[sid]] mutated by [f], when present. *)
Fixpoint updatePlayer (sid : string) (f : Player -> Player) (ps : list Player)
  : list Player :=
  match ps with
  | [] => []
  | q :: rest =>
      if (id q =? sid)%string then f q :: rest else q :: updatePlayer sid f rest
  end.

(** [delete players[sid]] *)
Definition deletePlayer (sid : string) (ps : list Player) : list Player :=
  filter (fun q => negb (id q =? sid)%string) ps.

(** ** Geometry: [isPositionValid] (identical in [server.js] and [GameCanvas.tsx]) *)

(** The body of the obstacle loop: the clamped point-to-rectangle distance is
    strictly below the radius. *)
Definition insideWall (x y radius : R) (obs : Obstacle) : bool :=
  let testX := Rmax (obs_x obs) (Rmin x (obs_x obs + width obs)) in
  let testY := Rmax (obs_y obs) (Rmin y (obs_y obs + height obs)) in
  let distX := x - testX in
  let distY := y - testY in
  (distX * distX + distY * distY) <? (radius * radius).

Definition isPositionValid (x y radius : R) (obstacles : list Obstacle) : bool :=
  if (x <? radius) || (x >? CANVAS_WIDTH - radius)
     || (y <? radius) || (y >? CANVAS_HEIGHT - radius)
  then false
  else negb (existsb (insideWall x y radius) obstacles).

(** [checkCollision (circle, rect)] of [server.js] / [circleRectCollision] of the
    client: the non-strict variant (neither is called by the simulation). *)
Definition checkCollision (cx cy r : R) (rect : Obstacle) : bool :=
  let testX := Rmax (obs_x rect) (Rmin cx (obs_x rect + width rect)) in
  let testY := Rmax (obs_y rect) (Rmin cy (obs_y rect + height rect)) in
  let distX := cx - testX in
  let distY := cy - testY in
  (distX * distX + distY * distY) <=? (r * r).

(** ** Server: spawning *)

Module Server.

(** The test of the spawn loops: the sampled point is strictly inside [obs]. *)
Definition pointInside (px py : R) (obs : Obstacle) : bool :=
  (px >? obs_x obs) && (px <? obs_x obs + width obs)
  && (py >? obs_y obs) && (py <? obs_y obs + height obs).

(** The [while (!safe && attempts < n)] loop shared by [findSafeSpawn] and
    [updatePowerups]; [fuel] is the number of attempts left, [k] the cursor of
    the random source and [last] the values of [px], [py] so far.  Returns the
    last sample, the final [safe] and the advanced cursor. *)
Fixpoint sampleLoop (rnd : nat -> R) (obstacles : list Obstacle) (fuel : nat)
    (k : nat) (last : Vector2) : Vector2 * bool * nat :=
  match fuel with
  | O => (last, false, k)
  | S fuel' =>
      let px := rnd k * (CANVAS_WIDTH - 200) + 100 in
      let py := rnd (S k) * (CANVAS_HEIGHT - 200) + 100 in
      if existsb (pointInside px py) obstacles
      then sampleLoop rnd obstacles fuel' (S (S k)) (vec px py)
      else (vec px py, true, S (S k))
  end.

(** [findSafeSpawn ()]: at most 50 samples; the last one is returned whether it
    is safe or not ([px || 500] only replaces a zero or undefined value). *)
Definition findSafeSpawn (rnd : nat -> R) (obstacles : list Obstacle) (k : nat)
  : Vector2 * nat :=
  let '(v, _, k') := sampleLoop rnd obstacles 50 k (vec 0 0) in
  (vec (JS.or_else (x v) 500) (JS.or_else (y v) 500), k').

(** The avatar object built by [addPlayer] for a spawn position [pos]. *)
Definition newPlayer (socketId name color : string) (pos : Vector2) : Player :=
  {| id := socketId; name := name; color := color; isBot := false;
     position := pos; velocity := vec 0 0; radius := PLAYER_RADIUS;
     speed := BASE_SPEED; isDead := false; score := 0; lives := 3;
     ping := 0; dashCooldown := 0; shieldCooldown := 0;
     smokeCooldown := 0; slimeCooldown := 0; isShielded := false;
     isHidden := false; isGhost := false; isSilenced := false;
     isSlowed := false; speedBoostEndTime := 0;
     input := vec (x pos) (y pos) |}.

(** [addPlayer (socketId, name, color)] *)
Definition addPlayer (rnd : nat -> R) (socketId name color : string)
    (k : nat) (r : GameRoom) : GameRoom * nat :=
  let (pos, k') := findSafeSpawn rnd (obstacles r) k in
  (set_players (putPlayer (newPlayer socketId name color pos) (players r)) r, k').

(** The single potato of a fresh room and of a fresh round. *)
Definition initialPotato (initialPotatoSpeed : R) : Potato :=
  {| pot_position := vec 100 100; pot_velocity := vec 0 0;
     pot_radius := POTATO_RADIUS; pot_speed := POTATO_SPEED * initialPotatoSpeed;
     targetId := None; isFrozen := false; freezeEndTime := 0 |}.

(** A potato added when some avatar's score passes a multiple of 500. *)
Definition extraPotato : Potato :=
  {| pot_position := vec 50 50; pot_velocity := vec 0 0;
     pot_radius := POTATO_RADIUS; pot_speed := POTATO_SPEED * 1.1;
     targetId := None; isFrozen := false; freezeEndTime := 0 |}.

(** ** Server: one tick, phase 1 (status update and move-and-slide) *)

(** The condition of the slime loop: the avatar stands in a puddle it does not own. *)
Definition inForeignSlime (p : Player) (slime : SlimeArea) : bool :=
  let dist := JS.hypot (x (position p) - slime_x slime)
                       (y (position p) - slime_y slime) in
  (dist <? slime_radius slime) && negb (id p =? ownerId slime)%string.

(** One iteration of [for (const slime of this.slimeAreas)] on the pair
    [(moveSpeed, p)]. *)
Definition slimeStep (acc : R * Player) (slime : SlimeArea) : R * Player :=
  let (moveSpeed, p) := acc in
  if inForeignSlime p slime then
    let moveSpeed := moveSpeed * 0.75 in
    let p := set_isSlowed true p in
    let p := set_isSilenced true p in
    let p := set_speedBoostEndTime 0 p in
    let p := set_isShielded false p in
    let p := set_shieldCooldown (Rmax (shieldCooldown p) 1000) p in
    let p := set_isHidden false p in
    let p := set_smokeCooldown (Rmax (smokeCooldown p) 1000) p in
    let p := set_isGhost false p in
    (moveSpeed, p)
  else acc.

(** Cooldowns, derived flags, slime debuffs, speed and score of a living avatar
    (the first half of the [forEach] body of [update]). *)
Definition updateStatus (now dt : R) (slimes : list SlimeArea) (p : Player)
  : Player :=
  let p := set_dashCooldown (Rmax 0 (dashCooldown p - dt * 1000)) p in
  let p := set_shieldCooldown (Rmax 0 (shieldCooldown p - dt * 1000)) p in
  let p := set_smokeCooldown (Rmax 0 (smokeCooldown p - dt * 1000)) p in
  let p := set_slimeCooldown (Rmax 0 (slimeCooldown p - dt * 1000)) p in
  let p := set_isShielded (shieldCooldown p >? 17000) p in
  let p := set_isHidden (smokeCooldown p >? 7000) p in
  let moveSpeed := speed p in
  let moveSpeed := if now >? speedBoostEndTime p then BASE_SPEED else moveSpeed in
  let p := set_isSilenced false p in
  let p := set_isSlowed false p in
  let (moveSpeed, p) := fold_left slimeStep slimes (moveSpeed, p) in
  let p := set_speed moveSpeed p in
  set_score (score p + dt * 10) p.

(** [this.potatoes.push (...)] when the avatar's score calls for one more. *)
Definition spawnPotatoes (p : Player) (pots : list Potato) : list Potato :=
  let expectedPotatoes := (1 + JS.floor (score p / 500))%Z in
  if (Z.of_nat (List.length pots) <? expectedPotatoes)%Z
     && (List.length pots <? 10)%nat
  then pots ++ [extraPotato]
  else pots.

(** The step vector [(vx, vy)] toward [p.input]: nothing within 5 units, the
    whole remaining vector when it is shorter than one step, else one step
    along the angle of the target. *)
Definition stepToward (dt : R) (p : Player) : R * R :=
  let dx := x (input p) - x (position p) in
  let dy := y (input p) - y (position p) in
  let dist := sqrt (dx * dx + dy * dy) in
  let moveStep := speed p * dt in
  if dist >? 5 then
    if dist <? moveStep then (dx, dy)
    else
      let angle := JS.atan2 dy dx in
      (cos angle * moveStep, sin angle * moveStep)
  else (0, 0).

(** [Try moving X] then [Try moving Y]: each axis is taken only when the
    resulting position is valid; a zero component is not even tried. *)
Definition slide (obstacles : list Obstacle) (v : R * R) (p : Player) : Player :=
  let (vx, vy) := v in
  let p :=
    if JS.eqb vx 0 then p
    else
      let nextX := x (position p) + vx in
      if isPositionValid nextX (y (position p)) (radius p) obstacles
      then set_position (vec nextX (y (position p))) p
      else p in
  if JS.eqb vy 0 then p
  else
    let nextY := y (position p) + vy in
    if isPositionValid (x (position p)) nextY (radius p) obstacles
    then set_position (vec (x (position p)) nextY) p
    else p.

Definition moveAndSlide (dt : R) (obstacles : list Obstacle) (p : Player)
  : Player :=
  slide obstacles (stepToward dt p) p.

(** The whole [forEach] body for one avatar; dead avatars are skipped. *)
Definition tickPlayer (now dt : R) (slimes : list SlimeArea)
    (obstacles : list Obstacle) (p : Player) (pots : list Potato)
  : Player * list Potato :=
  if isDead p then (p, pots)
  else
    let p := updateStatus now dt slimes p in
    let pots := spawnPotatoes p pots in
    (moveAndSlide dt obstacles p, pots).

(** [Object.values (this.players).forEach (...)], threading the potato list,
    [aliveCount] and [potentialWinner]. *)
Fixpoint tickPlayers (now dt : R) (slimes : list SlimeArea)
    (obstacles : list Obstacle) (ps : list Player) (pots : list Potato)
    (aliveCount : nat) (potentialWinner : option string)
  : list Player * list Potato * nat * option string :=
  match ps with
  | [] => ([], pots, aliveCount, potentialWinner)
  | p :: rest =>
      let aliveCount := if isDead p then aliveCount else S aliveCount in
      let potentialWinner := if isDead p then potentialWinner else Some (id p) in
      let (p', pots) := tickPlayer now dt slimes obstacles p pots in
      let '(rest', pots, aliveCount, potentialWinner) :=
        tickPlayers now dt slimes obstacles rest pots aliveCount potentialWinner in
      (p' :: rest', pots, aliveCount, potentialWinner)
  end.

(** ** Server: phase 2 (pairwise separation with the hard-wall constraint) *)

(** The body of the double loop for the pair [(p1, p2)]. *)
Definition resolvePair (obstacles : list Obstacle) (p1 p2 : Player)
  : Player * Player :=
  if isDead p1 || isDead p2 || isGhost p1 || isGhost p2 then (p1, p2)
  else
    let dx := x (position p2) - x (position p1) in
    let dy := y (position p2) - y (position p1) in
    let dist := sqrt (dx * dx + dy * dy) in
    let minDist := radius p1 + radius p2 in
    if (dist <? minDist) && (dist >? 0) then
      let overlap := (minDist - dist) / 2 in
      let nx := dx / dist in
      let ny := dy / dist in
      let p1NextX := x (position p1) - nx * overlap in
      let p1NextY := y (position p1) - ny * overlap in
      let p2NextX := x (position p2) + nx * overlap in
      let p2NextY := y (position p2) + ny * overlap in
      let p1 := if isPositionValid p1NextX (y (position p1)) (radius p1) obstacles
                then set_position (vec p1NextX (y (position p1))) p1 else p1 in
      let p1 := if isPositionValid (x (position p1)) p1NextY (radius p1) obstacles
                then set_position (vec (x (position p1)) p1NextY) p1 else p1 in
      let p2 := if isPositionValid p2NextX (y (position p2)) (radius p2) obstacles
                then set_position (vec p2NextX (y (position p2))) p2 else p2 in
      let p2 := if isPositionValid (x (position p2)) p2NextY (radius p2) obstacles
                then set_position (vec (x (position p2)) p2NextY) p2 else p2 in
      (p1, p2)
    else (p1, p2).

(** The inner loop [for (j = i + 1; ...)]: [p1] against every later avatar. *)
Fixpoint resolveAgainst (obstacles : list Obstacle) (p1 : Player)
    (later : list Player) : Player * list Player :=
  match later with
  | [] => (p1, [])
  | p2 :: rest =>
      let (p1, p2) := resolvePair obstacles p1 p2 in
      let (p1, rest) := resolveAgainst obstacles p1 rest in
      (p1, p2 :: rest)
  end.

(** The outer loop [for (i = 0; ...)]; [fuel] bounds the number of avatars
    still to be taken as [p1]. *)
Fixpoint resolveFrom (obstacles : list Obstacle) (fuel : nat) (ps : list Player)
  : list Player :=
  match fuel, ps with
  | S fuel, p1 :: later =>
      let (p1, later) := resolveAgainst obstacles p1 later in
      p1 :: resolveFrom obstacles fuel later
  | _, _ => ps
  end.

Definition resolveCollisions (obstacles : list Obstacle) (ps : list Player)
  : list Player :=
  resolveFrom obstacles (List.length ps) ps.

(** ** Server: pursuit *)

(** The inner [forEach] of the potato update: the nearest living avatar that is
    neither hidden nor a ghost.  [minDst] is [None] while it is [Infinity];
    an avatar at the same distance as the current nearest does not replace it. *)
Definition nearer (potato : Potato) (acc : option R * option Player) (p : Player)
  : option R * option Player :=
  if negb (isDead p) && negb (isHidden p) && negb (isGhost p) then
    let d := JS.hypot (x (position p) - x (pot_position potato))
                      (y (position p) - y (pot_position potato)) in
    match fst acc with
    | None => (Some d, Some p)
    | Some minDst => if d <? minDst then (Some d, Some p) else acc
    end
  else acc.

Definition nearestTarget (potato : Potato) (ps : list Player) : option Player :=
  snd (fold_left (nearer potato) ps (None, None)).

(** The body of [this.potatoes.forEach] in [update]: thaw, retarget, and step
    straight toward the target. *)
Definition chase (now dt multiplier : R) (ps : list Player) (potato : Potato)
  : Potato :=
  let potato :=
    if isFrozen potato && (now >? freezeEndTime potato)
    then set_isFrozen false potato else potato in
  if isFrozen potato then potato
  else
    let target := nearestTarget potato ps in
    let potato := set_targetId (option_map id target) potato in
    match target with
    | Some target =>
        let dx := x (position target) - x (pot_position potato) in
        let dy := y (position target) - y (pot_position potato) in
        let dist := sqrt (dx * dx + dy * dy) in
        if dist >? 1 then
          let currentSpeed := pot_speed potato * multiplier in
          set_pot_position
            (vec (x (pot_position potato) + dx / dist * currentSpeed * dt)
                 (y (pot_position potato) + dy / dist * currentSpeed * dt))
            potato
        else potato
    | None => potato
    end.

(** ** Server: pickups *)

(** The cumulative table of [updatePowerups]. *)
Definition powerupTypeOf (r : R) : PowerupType :=
  if r <? 0.05 then FREEZE
  else if r <? 0.20 then DOUBLE_POINTS
  else if r <? 0.40 then SPEED
  else if r <? 0.60 then COOLDOWN_RESET
  else if r <? 0.80 then GHOST
  else MAGNET.

(** [updatePowerups (now)] *)
Definition updatePowerups (rnd : nat -> R) (now : R) (k : nat) (r : GameRoom)
  : GameRoom * nat :=
  if (rnd k <? 0.005) && (List.length (powerups r) <? 5)%nat then
    let type := powerupTypeOf (rnd (S k)) in
    let '(v, safe, k') := sampleLoop rnd (obstacles r) 20 (S (S k)) (vec 0 0) in
    if safe then
      let pu := {| pu_id := rnd k'; pu_type := type; pu_position := v;
                   pu_spawnTime := now; pu_radius := POWERUP_RADIUS |} in
      (set_powerups (powerups r ++ [pu]) r, S k')
    else (r, k')
  else (r, S k).

(** ** Server: [checkCollisions] *)

(** What one potato-avatar encounter changes: the potato, the avatar, the
    room's speed multiplier and the cursor of the random source. *)
Definition hit (rnd : nat -> R) (now : R) (obstacles : list Obstacle)
    (potato : Potato) (p : Player) (multiplier : R) (k : nat)
  : Potato * Player * R * nat :=
  if isDead p then (potato, p, multiplier, k)
  else
    let dist := JS.hypot (x (position p) - x (pot_position potato))
                         (y (position p) - y (pot_position potato)) in
    if dist <? radius p + pot_radius potato then
      if isShielded p then
        if negb (isFrozen potato) then
          let potato := set_isFrozen true potato in
          let potato := set_freezeEndTime (now + 1000) potato in
          (potato, p, multiplier, k)
        else (potato, p, multiplier, k)
      else if negb (isFrozen potato) && negb (isGhost p) then
        let p := set_lives (lives p - 1)%Z p in
        if (lives p <=? 0)%Z then
          (potato, set_isDead true p, multiplier + 0.1, k)
        else
          let (pos, k) := findSafeSpawn rnd obstacles k in
          let p := set_position pos p in
          let p := set_shieldCooldown 20000 p in
          (potato, p, multiplier, k)
      else (potato, p, multiplier, k)
    else (potato, p, multiplier, k).

(** One potato against every avatar, in iteration order. *)
Fixpoint hitPlayers (rnd : nat -> R) (now : R) (obstacles : list Obstacle)
    (potato : Potato) (ps : list Player) (multiplier : R) (k : nat)
  : Potato * list Player * R * nat :=
  match ps with
  | [] => (potato, [], multiplier, k)
  | p :: rest =>
      let '(potato, p, multiplier, k) :=
        hit rnd now obstacles potato p multiplier k in
      let '(potato, rest, multiplier, k) :=
        hitPlayers rnd now obstacles potato rest multiplier k in
      (potato, p :: rest, multiplier, k)
  end.

(** Every potato in turn. *)
Fixpoint hitPotatoes (rnd : nat -> R) (now : R) (obstacles : list Obstacle)
    (pots : list Potato) (ps : list Player) (multiplier : R) (k : nat)
  : list Potato * list Player * R * nat :=
  match pots with
  | [] => ([], ps, multiplier, k)
  | potato :: rest =>
      let '(potato, ps, multiplier, k) :=
        hitPlayers rnd now obstacles potato ps multiplier k in
      let '(rest, ps, multiplier, k) :=
        hitPotatoes rnd now obstacles rest ps multiplier k in
      (potato :: rest, ps, multiplier, k)
  end.

(** The [switch (pu.type)] of a collected pickup.  A [GHOST] pickup also starts
    a 5000 ms timer for the avatar: its id is returned in the third component. *)
Definition applyPowerup (now : R) (type : PowerupType) (p : Player)
    (pots : list Potato) : Player * list Potato * list string :=
  match type with
  | SPEED =>
      let p := set_speedBoostEndTime (now + 8000) p in
      (set_speed (BASE_SPEED * 1.5) p, pots, [])
  | COOLDOWN_RESET =>
      let p := set_dashCooldown 0 p in
      let p := set_shieldCooldown 0 p in
      let p := set_smokeCooldown 0 p in
      (set_slimeCooldown 0 p, pots, [])
  | FREEZE =>
      (p, map (fun pot => set_freezeEndTime (now + 3000) (set_isFrozen true pot))
              pots, [])
  | GHOST => (set_isGhost true p, pots, [id p])
  | MAGNET | DOUBLE_POINTS => (p, pots, [])
  end.

(** The inner [forEach] of the pickup filter, for one pickup. *)
Fixpoint collect (now : R) (pu : Powerup) (ps : list Player) (pots : list Potato)
  : list Player * list Potato * list string * bool :=
  match ps with
  | [] => ([], pots, [], false)
  | p :: rest =>
      let dist := JS.hypot (x (position p) - x (pu_position pu))
                           (y (position p) - y (pu_position pu)) in
      if negb (isDead p) && (dist <? radius p + pu_radius pu) then
        let p := set_score (score p + 50) p in
        let '(p, pots, t1) := applyPowerup now (pu_type pu) p pots in
        let '(rest, pots, t2, _) := collect now pu rest pots in
        (p :: rest, pots, t1 ++ t2, true)
      else
        let '(rest, pots, t2, collected) := collect now pu rest pots in
        (p :: rest, pots, t2, collected)
  end.

(** [this.powerups.filter (...)] with its side effects. *)
Fixpoint collectAll (now : R) (pus : list Powerup) (ps : list Player)
    (pots : list Potato) : list Powerup * list Player * list Potato * list string :=
  match pus with
  | [] => ([], ps, pots, [])
  | pu :: rest =>
      let '(ps, pots, t1, collected) := collect now pu ps pots in
      let '(rest, ps, pots, t2) := collectAll now rest ps pots in
      (if collected then rest else pu :: rest, ps, pots, t1 ++ t2)
  end.

(** [checkCollisions (now)]; the last component lists the avatars for which a
    ghost timer was started. *)
Definition checkCollisions (rnd : nat -> R) (now : R) (k : nat) (r : GameRoom)
  : GameRoom * nat * list string :=
  if gameEnded r then (r, k, [])
  else
    let '(pots, ps, multiplier, k) :=
      hitPotatoes rnd now (obstacles r) (potatoes r) (players r)
                  (potatoSpeedMultiplier r) k in
    let '(pus, ps, pots, timers) := collectAll now (powerups r) ps pots in
    let r := set_players ps r in
    let r := set_potatoes pots r in
    let r := set_potatoSpeedMultiplier multiplier r in
    (set_powerups pus r, k, timers).

(** ** Server: [update ()] *)

(** What [update] returns: [undefined] when the room is not playing,
    [{ gameOver: false }], or [{ gameOver: true, winnerId }]. *)
Inductive UpdateResult : Type :=
| NotPlaying
| Running
| GameOver (winnerId : option string).

(** [Object.values (players).sort ((a, b) => b.score - a.score)]: descending
    score, stable (an avatar stays before the later ones of equal score). *)
Fixpoint insertByScore (p : Player) (sorted : list Player) : list Player :=
  match sorted with
  | [] => [p]
  | q :: rest =>
      if score q <=? score p then p :: sorted else q :: insertByScore p rest
  end.

Definition sortByScore (ps : list Player) : list Player :=
  fold_right insertByScore [] ps.

(** The winner of a finished round: the avatar seen alive in this tick, else the
    last tracked survivor, else the head of the score ranking. *)
Definition finalWinner (potentialWinner lastSurvivor : option string)
    (ps : list Player) : option string :=
  if JS.truthy potentialWinner then potentialWinner
  else if JS.truthy lastSurvivor then lastSurvivor
  else
    match sortByScore ps with
    | first :: _ => Some (id first)
    | [] => lastSurvivor
    end.

Definition update (rnd : nat -> R) (now : R) (k : nat) (r : GameRoom)
  : GameRoom * nat * list string * UpdateResult :=
  match state r with
  | PLAYING =>
      let dt := (now - lastUpdate r) / 1000 in
      let r := set_lastUpdate now r in
      let r := set_slimeAreas
                 (filter (fun s => now <? spawnTime s + duration s) (slimeAreas r))
                 r in
      (* 1. Movement and Status Updates *)
      let '(ps, pots, aliveCount, potentialWinner) :=
        tickPlayers now dt (slimeAreas r) (obstacles r) (players r) (potatoes r)
                    0%nat None in
      let r := set_players ps r in
      let r := set_potatoes pots r in
      (* 2. Resolve Player-vs-Player Collisions *)
      let r := set_players (resolveCollisions (obstacles r) (players r)) r in
      (* Track the last survivor *)
      let r := if (aliveCount =? 1)%nat
               then set_lastSurvivorId potentialWinner r else r in
      (* Check Game Over Condition *)
      if (now - startTime r >? 3000) && negb (gameEnded r)
         && (aliveCount <=? 1)%nat
      then
        let r := set_state GAME_OVER r in
        let r := set_gameEnded true r in
        (r, k, [],
         GameOver (finalWinner potentialWinner (lastSurvivorId r) (players r)))
      else if negb (gameEnded r) then
        let r := set_potatoes
                   (map (chase now dt (potatoSpeedMultiplier r) (players r))
                        (potatoes r)) r in
        let (r, k) := updatePowerups rnd now k r in
        let '(r, k, timers) := checkCollisions rnd now k r in
        (r, k, timers, Running)
      else
        let r := set_potatoes (map (set_targetId None) (potatoes r)) r in
        (r, k, [], Running)
  | _ => (r, k, [], NotPlaying)
  end.

(** ** Server: the other methods of [GameRoom] *)

(** The [forEach] of [startGame] that resets the avatars. *)
Fixpoint resetPlayers (rnd : nat -> R) (obstacles : list Obstacle)
    (ps : list Player) (k : nat) : list Player * nat :=
  match ps with
  | [] => ([], k)
  | p :: rest =>
      let (pos, k) := findSafeSpawn rnd obstacles k in
      let p := set_position pos p in
      let p := set_lives 3%Z p in
      let p := set_isDead false p in
      let p := set_score 0 p in
      let p := set_slimeCooldown 0 p in
      let p := set_shieldCooldown 0 p in
      let p := set_dashCooldown 0 p in
      let p := set_smokeCooldown 0 p in
      let p := set_isSilenced false p in
      let (rest, k) := resetPlayers rnd obstacles rest k in
      (p :: rest, k)
  end.

Definition startGame (rnd : nat -> R) (now : R) (k : nat) (r : GameRoom)
  : GameRoom * nat :=
  let r := set_state PLAYING r in
  let r := set_gameEnded false r in
  let r := set_lastUpdate now r in
  let r := set_startTime now r in
  let r := set_potatoSpeedMultiplier (initialPotatoSpeed r) r in
  let r := set_lastSurvivorId None r in
  let (ps, k) := resetPlayers rnd (obstacles r) (players r) k in
  let r := set_players ps r in
  let r := set_potatoes [initialPotato (initialPotatoSpeed r)] r in
  let r := set_slimeAreas [] r in
  (set_powerups [] r, k).

(** The payload of an [input] command; [key] is absent or a string. *)
Record InputData : Type := mkInput {
  in_x : R;
  in_y : R;
  key : option string
}.

(** The ability part of [handleInput], once the avatar is known not to be
    silenced: the four [if]s in sequence. *)
Definition useAbility (now : R) (socketId k : string) (p : Player)
    (slimes : list SlimeArea) (slimeId : R) : Player * list SlimeArea :=
  let p :=
    if (k =? "q")%string && (dashCooldown p <=? 0) then
      let p := set_dashCooldown 8000 p in
      let p := set_speedBoostEndTime (now + 300) p in
      set_speed (BASE_SPEED * 2.5) p
    else p in
  let p := if (k =? "w")%string && (shieldCooldown p <=? 0)
           then set_shieldCooldown 20000 p else p in
  let p := if (k =? "e")%string && (smokeCooldown p <=? 0)
           then set_smokeCooldown 12000 p else p in
  if (k =? "r")%string && (slimeCooldown p <=? 0) then
    (set_slimeCooldown 15000 p,
     (slimes ++ [{| slime_id := slimeId; ownerId := socketId;
                    slime_x := x (position p); slime_y := y (position p);
                    slime_radius := SLIME_RADIUS; spawnTime := now;
                    duration := 3000 |}])%list)
  else (p, slimes).

(** [handleInput (socketId, inputData)].  The random source is read only when a
    puddle is created (its id). *)
Definition handleInput (rnd : nat -> R) (now : R) (socketId : string)
    (inputData : InputData) (k : nat) (r : GameRoom) : GameRoom * nat :=
  match lookupPlayer socketId (players r) with
  | None => (r, k)
  | Some p =>
      let p := set_input (vec (in_x inputData) (in_y inputData)) p in
      let r := set_players (updatePlayer socketId (fun _ => p) (players r)) r in
      if JS.truthy (key inputData) then
        if isSilenced p then (r, k)
        else
          match key inputData with
          | Some c =>
              let (p', slimes) :=
                useAbility now socketId c p (slimeAreas r) (rnd k) in
              let k := if (c =? "r")%string && (slimeCooldown p <=? 0)
                       then S k else k in
              let r := set_players
                         (updatePlayer socketId (fun _ => p') (players r)) r in
              (set_slimeAreas slimes r, k)
          | None => (r, k)
          end
      else (r, k)
  end.

(** [updatePlayerPing (socketId, ping)] *)
Definition updatePlayerPing (socketId : string) (v : R) (r : GameRoom)
  : GameRoom :=
  set_players (updatePlayer socketId (set_ping v) (players r)) r.

(** [removePlayer (socketId)]: the room, and whether it is now empty. *)
Definition removePlayer (socketId : string) (r : GameRoom) : GameRoom * bool :=
  let r := set_players (deletePlayer socketId (players r)) r in
  match players r with
  | first :: _ =>
      if (socketId =? hostId r)%string then (set_hostId (id first) r, false)
      else (r, false)
  | [] => (r, true)
  end.

(** ** Server: the room table and the socket handlers *)

Record Lobby : Type := mkLobby {
  lobby_id : string;
  lobby_players : nat;
  lobby_maxPlayers : R;
  lobby_state : RoomState
}.

Inductive Message : Type :=
| error (message : string)
| room_joined (roomId : string) (isHost : bool) (playerId : string)
              (speedModifier maxPlayers : R) (isPrivate : bool)
| room_update (players : list Player) (hostId : string)
| lobbies_update (lobbies : list Lobby)
| game_state (players : list Player) (potatoes : list Potato)
             (obstacles : option (list Obstacle)) (powerups : list Powerup)
             (slimeAreas : list SlimeArea)
| game_over (winnerId : option string) (players : list Player)
| game_started
| pong_check (timestamp : R).

(** [socket.emit], [io.to (room).emit] and [io.emit]. *)
Inductive Emit : Type :=
| toSocket (socketId : string) (m : Message)
| toRoom (roomId : string) (m : Message)
| toAll (m : Message).

(** A pending [setTimeout] of the ghost pickup: the callback clears [isGhost]
    of [timer_player] in the room it was started in. *)
Record GhostTimer : Type := mkGhostTimer {
  due : R;
  timer_room : string;
  timer_player : string
}.

(** The process state: the [rooms] table (insertion-ordered), the rooms each
    socket has joined ([socket.rooms]), the cursor of the random source and the
    pending timers. *)
Record World : Type := mkWorld {
  rooms : list (string * GameRoom);
  joined : list (string * list string);
  cursor : nat;
  timers : list GhostTimer
}.

Fixpoint lookupRoom (roomId : string) (rs : list (string * GameRoom))
  : option GameRoom :=
  match rs with
  | [] => None
  | (i, r) :: rest => if (i =? roomId)%string then Some r else lookupRoom roomId rest
  end.

Fixpoint replaceRoom (roomId : string) (r : GameRoom)
    (rs : list (string * GameRoom)) : list (string * GameRoom) :=
  match rs with
  | [] => []
  | (i, q) :: rest =>
      if (i =? roomId)%string then (i, r) :: rest
      else (i, q) :: replaceRoom roomId r rest
  end.

Fixpoint socketRooms (socketId : string) (js : list (string * list string))
  : list string :=
  match js with
  | [] => []
  | (s, l) :: rest => if (s =? socketId)%string then l else socketRooms socketId rest
  end.

(** [socket.join (roomId)] *)
Fixpoint socketJoin (socketId roomId : string) (js : list (string * list string))
  : list (string * list string) :=
  match js with
  | [] => [(socketId, [roomId])]
  | (s, l) :: rest =>
      if (s =? socketId)%string
      then (s, if existsb (String.eqb roomId) l then l else (l ++ [roomId])%list)
           :: rest
      else (s, l) :: socketJoin socketId roomId rest
  end.

(** [Array.from (socket.rooms).find (r => r !== socket.id)] *)
Definition currentRoom (socketId : string) (w : World) : option string :=
  find (fun r => negb (r =? socketId)%string) (socketRooms socketId (joined w)).

Definition getActiveLobbies (rs : list (string * GameRoom)) : list Lobby :=
  map (fun ir => let r := snd ir in
                 {| lobby_id := room_id r;
                    lobby_players := List.length (players r);
                    lobby_maxPlayers := maxPlayers r;
                    lobby_state := state r |})
      (filter (fun ir => negb (isPrivate (snd ir))) rs).

Definition snapshot (withObstacles : bool) (r : GameRoom) : Message :=
  game_state (players r) (potatoes r)
             (if withObstacles then Some (obstacles r) else None)
             (powerups r) (slimeAreas r).

(** [socket.on ('join_room', ...)] *)
Definition join_room (rnd : nat -> R) (socketId roomId name color : string)
    (w : World) : World * list Emit :=
  match lookupRoom roomId (rooms w) with
  | Some room =>
      match state room with
      | WAITING =>
          if INR (List.length (players room)) >=? maxPlayers room
          then (w, [toSocket socketId (error "Room is full!")])
          else
            let (room, k) := addPlayer rnd socketId name color (cursor w) room in
            let rs := replaceRoom roomId room (rooms w) in
            ({| rooms := rs;
                joined := socketJoin socketId roomId (joined w);
                cursor := k;
                timers := timers w |},
             [toSocket socketId
                (room_joined roomId false socketId (initialPotatoSpeed room)
                             (maxPlayers room) (isPrivate room));
              toRoom roomId (room_update (players room) (hostId room));
              toAll (lobbies_update (getActiveLobbies rs));
              toSocket socketId (snapshot true room)])
      | _ => (w, [toSocket socketId
                    (error "Room not found or game already in progress")])
      end
  | None => (w, [toSocket socketId
                   (error "Room not found or game already in progress")])
  end.

(** [socket.on ('start_game', ...)] *)
Definition start_game (rnd : nat -> R) (now : R) (socketId : string) (w : World)
  : World * list Emit :=
  match currentRoom socketId w with
  | Some roomId =>
      match lookupRoom roomId (rooms w) with
      | Some room =>
          if (hostId room =? socketId)%string then
            let (room, k) := startGame rnd now (cursor w) room in
            let rs := replaceRoom roomId room (rooms w) in
            ({| rooms := rs; joined := joined w; cursor := k;
                timers := timers w |},
             [toRoom roomId game_started;
              toAll (lobbies_update (getActiveLobbies rs))])
          else (w, [])
      | None => (w, [])
      end
  | None => (w, [])
  end.

(** [socket.on ('input', ...)] *)
Definition on_input (rnd : nat -> R) (now : R) (socketId : string)
    (data : InputData) (w : World) : World * list Emit :=
  match currentRoom socketId w with
  | Some roomId =>
      match lookupRoom roomId (rooms w) with
      | Some room =>
          let (room, k) := handleInput rnd now socketId data (cursor w) room in
          ({| rooms := replaceRoom roomId room (rooms w); joined := joined w;
              cursor := k; timers := timers w |}, [])
      | None => (w, [])
      end
  | None => (w, [])
  end.

(** The body of the [setInterval] loop for one room. *)
Definition tickRoom (rnd : nat -> R) (now : R) (roomId : string) (room : GameRoom)
    (k : nat) : GameRoom * nat * list GhostTimer * list Emit :=
  match state room with
  | PLAYING | GAME_OVER =>
      let '(room, k, started, res) := update rnd now k room in
      let ts := map (fun pid => {| due := now + 5000; timer_room := roomId;
                                   timer_player := pid |}) started in
      match res with
      | GameOver winnerId =>
          (set_state WAITING room, k, ts,
           [toRoom roomId (game_over winnerId (players room))])
      | _ => (room, k, ts, [toRoom roomId (snapshot false room)])
      end
  | WAITING => (room, k, [], [])
  end.

Fixpoint tickRooms (rnd : nat -> R) (now : R) (rs : list (string * GameRoom))
    (k : nat) : list (string * GameRoom) * nat * list GhostTimer * list Emit :=
  match rs with
  | [] => ([], k, [], [])
  | (i, room) :: rest =>
      let '(room, k, t1, e1) := tickRoom rnd now i room k in
      let '(rest, k, t2, e2) := tickRooms rnd now rest k in
      ((i, room) :: rest, k, (t1 ++ t2)%list, (e1 ++ e2)%list)
  end.

(** The [setInterval] callback. *)
Definition tick (rnd : nat -> R) (now : R) (w : World) : World * list Emit :=
  let '(rs, k, ts, es) := tickRooms rnd now (rooms w) (cursor w) in
  ({| rooms := rs; joined := joined w; cursor := k;
      timers := (timers w ++ ts)%list |}, es).

(** The callback of the ghost pickup's [setTimeout]:
    [if (this.players[p.id]) this.players[p.id].isGhost = false]. *)
Definition ghostCallback (t : GhostTimer) (rs : list (string * GameRoom))
  : list (string * GameRoom) :=
  match lookupRoom (timer_room t) rs with
  | Some room =>
      replaceRoom (timer_room t)
        (set_players (updatePlayer (timer_player t) (set_isGhost false)
                                   (players room)) room) rs
  | None => rs
  end.

(** What the event loop can run next. *)
Inductive Event : Type :=
| JoinRoom (socketId roomId name color : string)
| StartGame (socketId : string)
| Input (socketId : string) (data : InputData)
| Tick
| Timeout (n : nat).

Fixpoint removeNth {A : Type} (n : nat) (l : list A) : list A :=
  match n, l with
  | _, [] => []
  | O, _ :: rest => rest
  | S n, a :: rest => a :: removeNth n rest
  end.

(** One turn of the event loop at clock [now].  [Timeout n] runs the [n]-th
    pending timer callback, provided it is due. *)
Definition step (rnd : nat -> R) (now : R) (ev : Event) (w : World)
  : World * list Emit :=
  match ev with
  | JoinRoom s i n c => join_room rnd s i n c w
  | StartGame s => start_game rnd now s w
  | Input s d => on_input rnd now s d w
  | Tick => tick rnd now w
  | Timeout n =>
      match nth_error (timers w) n with
      | Some t =>
          if due t <=? now then
            ({| rooms := ghostCallback t (rooms w); joined := joined w;
                cursor := cursor w; timers := removeNth n (timers w) |}, [])
          else (w, [])
      | None => (w, [])
      end
  end.

End Server.

(** ** Client ([GameCanvas.tsx]) *)

Module Client.


(** *** Online: interpolation and reconciliation *)

(** [targetP.id === myId]; the socket, hence [myId], may be missing. *)
Definition isMe (myId : option string) (p : Player) : bool :=
  match myId with
  | Some i => (id p =? i)%string
  | None => false
  end.






(** *** Local movement *)

(** [applyMovement (p, vx, vy)]: both axes are always tried. *)
Definition applyMovement (obstacles : list Obstacle) (vx vy : R) (p : Player)
  : Player :=
  let nextX := x (position p) + vx in
  let p := if isPositionValid nextX (y (position p)) (radius p) obstacles
           then set_position (vec nextX (y (position p))) p else p in
  let nextY := y (position p) + vy in
  if isPositionValid (x (position p)) nextY (radius p) obstacles
  then set_position (vec (x (position p)) nextY) p else p.

(** [p.id === 'user' || (settings.isOnline && p.id === myId)] *)
Definition isHuman (isOnline : bool) (myId : option string) (p : Player) : bool :=
  (id p =? "user")%string || (isOnline && isMe myId p).

(** [movePlayerToward (p, tx, ty, dt)] *)
Definition movePlayerToward (isOnline : bool) (myId : option string)
    (obstacles : list Obstacle) (tx ty dt : R) (p : Player) : Player :=
  let dx := tx - x (position p) in
  let dy := ty - y (position p) in
  if isHuman isOnline myId p then
    let dist := sqrt (dx * dx + dy * dy) in
    if dist <? 5 then p
    else
      let moveStep := speed p * dt in
      if dist <? moveStep then applyMovement obstacles dx dy p
      else
        let angle := JS.atan2 dy dx in
        applyMovement obstacles (cos angle * moveStep) (sin angle * moveStep) p
  else
    let dist := sqrt (dx * dx + dy * dy) in
    if dist >? 1 then
      let moveSpeed := speed p * dt in
      applyMovement obstacles (dx / dist * moveSpeed) (dy / dist * moveSpeed) p
    else p.

(** *** Offline pursuit: grid search *)

(** A search node; [parent] is the node it was reached from. *)
#[local] Set Warnings "-register-all".
Inductive Node : Type :=
  mkNode (node_x node_y f g h : Z) (parent : option Node).

Definition node_x (n : Node) : Z := let 'mkNode a _ _ _ _ _ := n in a.
Definition node_y (n : Node) : Z := let 'mkNode _ a _ _ _ _ := n in a.
Definition f (n : Node) : Z := let 'mkNode _ _ a _ _ _ := n in a.
Definition g (n : Node) : Z := let 'mkNode _ _ _ a _ _ := n in a.
Definition h (n : Node) : Z := let 'mkNode _ _ _ _ a _ := n in a.
Definition parent (n : Node) : option Node := let 'mkNode _ _ _ _ _ a := n in a.

Definition getGridPos (pos : Vector2) : Z * Z :=
  (JS.floor (x pos / GRID_SIZE), JS.floor (y pos / GRID_SIZE)).

(** [Math.ceil (CANVAS_WIDTH / GRID_SIZE)] and the same for the height. *)
Definition cols : Z := 40.
Definition rows : Z := 40.

Definition cellCenter (cx cy : Z) : Vector2 :=
  vec (IZR cx * GRID_SIZE + GRID_SIZE / 2) (IZR cy * GRID_SIZE + GRID_SIZE / 2).

(** The cell [(cx, cy)] overlaps [obs]. *)
Definition cellOverlaps (cx cy : Z) (obs : Obstacle) : bool :=
  let rx := IZR cx * GRID_SIZE in
  let ry := IZR cy * GRID_SIZE in
  (rx <? obs_x obs + width obs) && (rx + GRID_SIZE >? obs_x obs)
  && (ry <? obs_y obs + height obs) && (ry + GRID_SIZE >? obs_y obs).

Definition blocked (obstacles : list Obstacle) (cx cy : Z) : bool :=
  existsb (cellOverlaps cx cy) obstacles.

(** The index loop [if (openSet[i].f < openSet[lowInd].f) lowInd = i]: the first
    node of least [f], and the list without it. *)
Fixpoint lowest (best : Node) (before after : list Node) (rest : list Node)
  : Node * list Node :=
  match rest with
  | [] => (best, (before ++ after)%list)
  | n :: rest' =>
      if (f n <? f best)%Z
      then lowest n (before ++ best :: after)%list [] rest'
      else lowest best before (after ++ [n])%list rest'
  end.

(** [while (temp?.parent) { path.push (centre of temp); temp = temp.parent }] *)
Fixpoint walkBack (n : Node) : list Vector2 :=
  match n with
  | mkNode cx cy _ _ _ (Some p) => cellCenter cx cy :: walkBack p
  | mkNode _ _ _ _ _ None => []
  end.

Definition sameCell (cx cy : Z) (n : Node) : bool :=
  (node_x n =? cx)%Z && (node_y n =? cy)%Z.

(** [neighbor.parent = current; neighbor.g = gScore; ...] on the first node of
    the open set at [(cx, cy)]. *)
Fixpoint relax (cx cy gScore hScore : Z) (current : Node) (openSet : list Node)
  : list Node :=
  match openSet with
  | [] => []
  | n :: rest =>
      if sameCell cx cy n
      then mkNode cx cy (gScore + hScore) gScore hScore (Some current) :: rest
      else n :: relax cx cy gScore hScore current rest
  end.

Definition neighbors : list (Z * Z) :=
  [(0, -1); (0, 1); (-1, 0); (1, 0); (-1, -1); (1, -1); (-1, 1); (1, 1)]%Z.

(** The body of [for (const n of neighbors)]. *)
Definition visit (obstacles : list Obstacle) (endNode : Z * Z)
    (closedSet : list (Z * Z)) (current : Node) (openSet : list Node)
    (n : Z * Z) : list Node :=
  let nx := (node_x current + fst n)%Z in
  let ny := (node_y current + snd n)%Z in
  if (nx <? 0)%Z || (ny <? 0)%Z || (nx >=? cols)%Z || (ny >=? rows)%Z then openSet
  else if existsb (fun c => (fst c =? nx)%Z && (snd c =? ny)%Z) closedSet
  then openSet
  else if blocked obstacles nx ny then openSet
  else
    let gScore := (g current + 1)%Z in
    let hScore := (Z.abs (nx - fst endNode) + Z.abs (ny - snd endNode))%Z in
    match find (sameCell nx ny) openSet with
    | None =>
        (openSet ++ [mkNode nx ny (gScore + hScore) gScore hScore (Some current)])%list
    | Some neighbor =>
        if (gScore <? g neighbor)%Z
        then relax nx ny gScore hScore current openSet
        else openSet
    end.

(** The [while (openSet.length > 0 && iterations < 300)] loop; [budget] is the
    number of iterations left.  [None] when the loop ends without reaching the
    goal. *)
Fixpoint search (obstacles : list Obstacle) (endNode : Z * Z) (budget : nat)
    (openSet : list Node) (closedSet : list (Z * Z)) : option (list Vector2) :=
  match budget, openSet with
  | S budget, first :: others =>
      let (current, openSet) := lowest first [] [] others in
      if sameCell (fst endNode) (snd endNode) current
      then Some (rev (walkBack current))
      else
        let closedSet := (closedSet ++ [(node_x current, node_y current)])%list in
        search obstacles endNode budget
               (fold_left (visit obstacles endNode closedSet current)
                          neighbors openSet)
               closedSet
  | _, _ => None
  end.

(** [findPath (startPos, endPos)] *)
Definition findPath (obstacles : list Obstacle) (startPos endPos : Vector2)
  : list Vector2 :=
  let startNode := getGridPos startPos in
  let endNode := getGridPos endPos in
  if JS.hypot (x startPos - x endPos) (y startPos - y endPos) <? GRID_SIZE * 2
  then [endPos]
  else
    match search obstacles endNode 300
                 [mkNode (fst startNode) (snd startNode) 0 0 0 None] [] with
    | Some path => path
    | None => [endPos]
    end.

(** A potato of the offline simulation: the shared fields and its route. *)
Record Chaser : Type := mkChaser {
  potato : Potato;
  currentPath : list Vector2;
  pathUpdateTimer : Z
}.

(** The [forEach] body of the client's [updatePotatoes] (the drawn trail left
    out); [multiplier] is [totalSpeedMultiplier]. *)
Definition chase (now dt multiplier : R) (obstacles : list Obstacle)
    (ps : list Player) (c : Chaser) : Chaser :=
  let pot :=
    if isFrozen (potato c) && (now >? freezeEndTime (potato c))
    then set_isFrozen false (potato c) else potato c in
  if isFrozen pot then mkChaser pot (currentPath c) (pathUpdateTimer c)
  else
    let target := Server.nearestTarget pot ps in
    let pot := set_targetId (option_map id target) pot in
    match target with
    | Some target =>
        let timer := (pathUpdateTimer c + 1)%Z in
        let '(timer, path) :=
          if (timer >? 15)%Z
          then (0%Z, findPath obstacles (pot_position pot) (position target))
          else (timer, currentPath c) in
        let '(moveTarget, path) :=
          match path with
          | w :: rest =>
              if JS.hypot (x w - x (pot_position pot)) (y w - y (pot_position pot))
                 <? pot_radius pot
              then match rest with
                   | w' :: _ => (w', rest)
                   | [] => (w, rest)
                   end
              else (w, path)
          | [] => (position target, path)
          end in
        let dx := x moveTarget - x (pot_position pot) in
        let dy := y moveTarget - y (pot_position pot) in
        let dist := sqrt (dx * dx + dy * dy) in
        let pot :=
          if dist >? 1 then
            let currentSpeed := pot_speed pot * multiplier in
            set_pot_position
              (vec (x (pot_position pot) + dx / dist * currentSpeed * dt)
                   (y (pot_position pot) + dy / dist * currentSpeed * dt))
              pot
          else pot in
        mkChaser pot path timer
    | None => mkChaser pot (currentPath c) (pathUpdateTimer c)
    end.

End Client.

(** * Vocabulary of the properties *)

(** The circles of [p1] and [p2] do not overlap. *)
Definition apart (p1 p2 : Player) : Prop :=
  radius p1 + radius p2
    <= sqrt ((x (position p2) - x (position p1)) * (x (position p2) - x (position p1))
             + (y (position p2) - y (position p1)) * (y (position p2) - y (position p1))).

(** The avatar is in bounds and clear of every obstacle. *)
Definition valid (obstacles : list Obstacle) (p : Player) : Prop :=
  isPositionValid (x (position p)) (y (position p)) (radius p) obstacles = true.

(** The distance from the avatar to the point [(tx, ty)]. *)
Definition distanceTo (tx ty : R) (p : Player) : R :=
  sqrt ((tx - x (position p)) * (tx - x (position p))
        + (ty - y (position p)) * (ty - y (position p))).

(** The worked example of the movement rule: a fresh avatar (radius 25, speed
    250) at [(100, 100)] heading for [(500, 100)], and a wall across its way. *)
Definition walker : Player :=
  set_input (vec 500 100) (Server.newPlayer "a" "A" "red" (vec 100 100)).

Definition wall : Obstacle :=
  {| obs_id := "obs-0"; obs_x := 340; obs_y := 50; width := 20; height := 100 |}.

(** An avatar 3 units from its target, and one exactly 5 units from it (the
    client's own avatar, socket id [me]). *)
Definition loiterer : Player :=
  set_input (vec 103 100) (Server.newPlayer "a" "A" "red" (vec 100 100)).

Definition me : Player := Server.newPlayer "me" "Me" "red" (vec 100 100).

(** What a tick may do to an avatar, as far as its place in the arena goes:
    it keeps its id and radius, never gains a life, and, unless it loses one,
    is still valid if it was. *)
Definition steady (obstacles : list Obstacle) (p p' : Player) : Prop :=
  id p' = id p /\ radius p' = radius p /\ (lives p' <= lives p)%Z
  /\ (lives p' = lives p -> valid obstacles p -> valid obstacles p').

(** A room just after [startGame]: one avatar standing at [(500, 100)], the
    initial potato at [(100, 100)], and an obstacle whose left edge is 25 units
    from the potato's centre. *)
Definition watcher : Player := Server.newPlayer "a" "A" "red" (vec 500 100).

Definition block : Obstacle :=
  {| obs_id := "obs-0"; obs_x := 125; obs_y := 50; width := 200; height := 100 |}.

Definition arena : GameRoom :=
  {| room_id := "ROOM01"; hostId := "a"; initialPotatoSpeed := 1;
     maxPlayers := 12; isPrivate := false;
     players := [watcher]; potatoes := [Server.initialPotato 1];
     powerups := []; obstacles := [block]; slimeAreas := [];
     state := PLAYING; lastUpdate := 0; potatoSpeedMultiplier := 1;
     startTime := 0; gameEnded := false; lastSurvivorId := None |}.

(** A random source that always answers one tenth. *)
Definition tenth : nat -> R := fun _ => 1 / 10.

(** The potato is in bounds and clear of every obstacle. *)
Definition potatoValid (obstacles : list Obstacle) (q : Potato) : Prop :=
  isPositionValid (x (pot_position q)) (y (pot_position q)) (pot_radius q)
                  obstacles = true.

(** The point sampled by the spawn loops when the random cursor is at [k]. *)
Definition sample (rnd : nat -> R) (k : nat) : Vector2 :=
  vec (rnd k * (CANVAS_WIDTH - 200) + 100) (rnd (S k) * (CANVAS_HEIGHT - 200) + 100).

(** The point is strictly inside no obstacle (the spawn loops' notion of safe). *)
Definition clear (walls : list Obstacle) (v : Vector2) : bool :=
  negb (existsb (Server.pointInside (x v) (y v)) walls).

(** [Math.random ()] answers in [[0, 1)]. *)
Definition uniform (rnd : nat -> R) : Prop := forall n : nat, 0 <= rnd n < 1.

(** How many of the avatars are dead, as a number. *)
Fixpoint deadCount (ps : list Player) : R :=
  match ps with
  | [] => 0
  | p :: rest => (if isDead p then 1 else 0) + deadCount rest
  end.

(** An avatar with three lives in the potato's path, and an obstacle around the
    point [(280, 280)] that the source [tenth] keeps sampling. *)
Definition victim : Player := Server.newPlayer "a" "A" "red" (vec 110 100).

Definition pit : Obstacle :=
  {| obs_id := "obs-0"; obs_x := 200; obs_y := 200; width := 150; height := 150 |}.

(** The life counter agrees with the death flag: a living avatar has one to
    three lives, a dead one has none. *)
Definition livesOk (p : Player) : Prop :=
  if isDead p then lives p = 0%Z else (1 <= lives p <= 3)%Z.

(** Every cooldown is between zero and the maximum of its ability. *)
Definition cooldownsOk (p : Player) : Prop :=
  0 <= dashCooldown p <= 8000 /\ 0 <= shieldCooldown p <= 20000
  /\ 0 <= smokeCooldown p <= 12000 /\ 0 <= slimeCooldown p <= 15000.

(** What standing in someone else's puddle does to an avatar (the assignments
    of the slime loop, whatever the number of puddles). *)
Definition debuff (p : Player) : Player :=
  let p := set_isSlowed true p in
  let p := set_isSilenced true p in
  let p := set_speedBoostEndTime 0 p in
  let p := set_isShielded false p in
  let p := set_shieldCooldown (Rmax (shieldCooldown p) 1000) p in
  let p := set_isHidden false p in
  let p := set_smokeCooldown (Rmax (smokeCooldown p) 1000) p in
  set_isGhost false p.

(** The number of puddles of other avatars the avatar stands in. *)
Definition puddles (p : Player) (slimes : list SlimeArea) : nat :=
  List.length (filter (Server.inForeignSlime p) slimes).

(** The point [(u, v)] belongs to the rectangle of the obstacle. *)
Definition inRect (o : Obstacle) (u v : R) : Prop :=
  obs_x o <= u <= obs_x o + width o /\ obs_y o <= v <= obs_y o + height o.

(** Obstacles have non-negative sides (those the room generates have sides of
    at least 100). *)
Definition proper (o : Obstacle) : Prop := 0 <= width o /\ 0 <= height o.

(** The avatars a potato may chase: alive, not hidden by smoke, not a ghost. *)
Definition eligible (p : Player) : bool :=
  negb (isDead p) && negb (isHidden p) && negb (isGhost p).

(** The distance from the potato to the avatar, as the potato measures it. *)
Definition potatoDistance (potato : Potato) (p : Player) : R :=
  JS.hypot (x (position p) - x (pot_position potato))
           (y (position p) - y (pot_position potato)).

(** What [startGame] does to an avatar: three lives, alive, score and
    cooldowns zero, not silenced, somewhere in the spawn square; who it is,
    where it is heading and its other status flags are left as they were. *)
Definition restarted (p p' : Player) : Prop :=
  id p' = id p /\ name p' = name p /\ color p' = color p
  /\ radius p' = radius p
  /\ lives p' = 3%Z /\ isDead p' = false /\ score p' = 0
  /\ dashCooldown p' = 0 /\ shieldCooldown p' = 0
  /\ smokeCooldown p' = 0 /\ slimeCooldown p' = 0
  /\ isSilenced p' = false
  /\ (100 <= x (position p') < 1900 /\ 100 <= y (position p') < 1900)
  /\ input p' = input p /\ speed p' = speed p
  /\ speedBoostEndTime p' = speedBoostEndTime p
  /\ isGhost p' = isGhost p /\ isShielded p' = isShielded p
  /\ isHidden p' = isHidden p /\ isSlowed p' = isSlowed p.

(** A room in play in which the potato, at [(100, 100)], is about to hit two
    avatars standing on the same spot 10 units away: [victim], with three
    lives, and [doomed], on its last one. *)
Definition doomed : Player :=
  set_lives 1 (Server.newPlayer "b" "B" "blue" (vec 110 100)).

Definition ambush : GameRoom :=
  {| room_id := "ROOM02"; hostId := "a"; initialPotatoSpeed := 1;
     maxPlayers := 12; isPrivate := false;
     players := [victim; doomed]; potatoes := [Server.initialPotato 1];
     powerups := []; obstacles := [pit]; slimeAreas := [];
     state := PLAYING; lastUpdate := 0; potatoSpeedMultiplier := 1;
     startTime := 0; gameEnded := false; lastSurvivorId := None |}.

(** A random source that always answers one thousandth: every tick rolls a
    pickup, of type [FREEZE], at the point [(101.8, 101.8)]. *)
Definition rare : nat -> R := fun _ => 1 / 1000.

(** A room back in the lobby after a round: its only avatar is dead, without
    lives, with a score, a shield cooling down and a silence on it, and was
    heading for [(700, 300)]; two potatoes, a pickup and a puddle are left
    over. *)
Definition spent : Player :=
  set_input (vec 700 300)
    (set_isSilenced true
       (set_shieldCooldown 12000
          (set_score 57 (set_isDead true (set_lives 0 watcher))))).

Definition lobby : GameRoom :=
  {| room_id := "ROOM03"; hostId := "a"; initialPotatoSpeed := 1.5;
     maxPlayers := 12; isPrivate := false;
     players := [spent];
     potatoes := [Server.initialPotato 1.5; Server.extraPotato];
     powerups := [{| pu_id := 0; pu_type := GHOST; pu_position := vec 900 900;
                     pu_spawnTime := 0; pu_radius := POWERUP_RADIUS |}];
     obstacles := [block];
     slimeAreas := [{| slime_id := 0; ownerId := "a"; slime_x := 500;
                       slime_y := 100; slime_radius := SLIME_RADIUS;
                       spawnTime := 0; duration := 3000 |}];
     state := WAITING; lastUpdate := 5000; potatoSpeedMultiplier := 1.7;
     startTime := 0; gameEnded := true; lastSurvivorId := Some "a"%string |}.

(** The potato and the avatar touch: their centres are closer than the sum of
    their radii. *)
Definition contact (potato : Potato) (p : Player) : Prop :=
  potatoDistance potato p < radius p + pot_radius potato.

(** The avatars still in the round, in iteration order. *)
Definition living (ps : list Player) : list Player :=
  filter (fun p => negb (isDead p)) ps.

(** The room a message is broadcast to, if it is a room broadcast. *)
Definition addressee (e : Server.Emit) : option string :=
  match e with
  | Server.toRoom i _ => Some i
  | _ => None
  end.

(** The two messages of the simulation loop: a snapshot without the obstacles,
    or the end of the round. *)
Definition tickMessage (e : Server.Emit) : Prop :=
  match e with
  | Server.toRoom _ (Server.game_state _ _ None _ _) => True
  | Server.toRoom _ (Server.game_over _ _) => True
  | _ => False
  end.

(** What the simulation loop does to one entry of the room table: the key
    stays; a waiting room is not touched; a playing room keeps playing or goes
    back to waiting with its round marked as ended. *)
Definition ticked (ir ir' : string * GameRoom) : Prop :=
  fst ir' = fst ir
  /\ (state (snd ir) = WAITING -> snd ir' = snd ir)
  /\ (state (snd ir) = PLAYING ->
      state (snd ir') = PLAYING
      \/ (state (snd ir') = WAITING /\ gameEnded (snd ir') = true)).

(** A world with the room [haunted], in which the avatar [phantom] is a ghost
    with a pending timer due at 5033. *)
Definition phantom : Player := set_isGhost true watcher.

Definition haunted : Server.World :=
  {| Server.rooms := [("ROOM01"%string, set_players [phantom] arena)];
     Server.joined := [("a"%string, ["a"%string; "ROOM01"%string])];
     Server.cursor := 0;
     Server.timers := [{| Server.due := 5033; Server.timer_room := "ROOM01";
                          Server.timer_player := "a" |}] |}.

(** Grid cells next to each other, diagonals included (or the same cell). *)
Definition near (a b : Z * Z) : Prop :=
  (Z.abs (fst b - fst a) <= 1 /\ Z.abs (snd b - snd a) <= 1)%Z.

(** A cell of the 40 x 40 grid that overlaps no obstacle. *)
Definition freeCell (obstacles : list Obstacle) (c : Z * Z) : Prop :=
  ((0 <= fst c < Client.cols)%Z /\ (0 <= snd c < Client.rows)%Z)
  /\ Client.blocked obstacles (fst c) (snd c) = false.

(** Each cell of the list is next to the one before it, the first to [c]. *)
Fixpoint linked (c : Z * Z) (cells : list (Z * Z)) : Prop :=
  match cells with
  | [] => True
  | d :: rest => near c d /\ linked d rest
  end.

(** The cells from a search node back to the root of its parent chain, the
    root left out (as [walkBack] visits them). *)
Fixpoint trail (n : Client.Node) : list (Z * Z) :=
  match n with
  | Client.mkNode cx cy _ _ _ (Some p) => (cx, cy) :: trail p
  | Client.mkNode _ _ _ _ _ None => []
  end.

(** A search node whose parent chain ends in the cell [start] and otherwise
    runs through free cells, each next to its parent's. *)
Fixpoint rooted (obstacles : list Obstacle) (start : Z * Z) (n : Client.Node)
  : Prop :=
  match n with
  | Client.mkNode cx cy _ _ _ (Some p) =>
      freeCell obstacles (cx, cy)
      /\ near (Client.node_x p, Client.node_y p) (cx, cy)
      /\ rooted obstacles start p
  | Client.mkNode cx cy _ _ _ None => (cx, cy) = start
  end.




(** The distance between the centres of two avatars. *)
Definition centreDistance (p1 p2 : Player) : R :=
  sqrt ((x (position p2) - x (position p1)) * (x (position p2) - x (position p1))
        + (y (position p2) - y (position p1)) * (y (position p2) - y (position p1))).

(** An avatar 30 units to the right of [me], overlapping it. *)
Definition crowd : Player := Server.newPlayer "b" "B" "blue" (vec 130 100).

(** * Properties *)

#[local] Arguments Server.sampleLoop : simpl never.

(** ** Comparisons and arithmetic *)

Lemma ltb_true (a b : R) : (a <? b) = true <-> a < b.
Proof. unfold JS.ltb; destruct (Rlt_dec a b); split; intros; try easy. Qed.

Lemma ltb_false (a b : R) : (a <? b) = false <-> b <= a.
Proof.
  unfold JS.ltb; destruct (Rlt_dec a b); split; intros; try easy; lra.
Qed.

Lemma gtb_true (a b : R) : (a >? b) = true <-> b < a.
Proof. unfold JS.gtb; apply ltb_true. Qed.

Lemma gtb_false (a b : R) : (a >? b) = false <-> a <= b.
Proof. unfold JS.gtb; apply ltb_false. Qed.

Lemma leb_true (a b : R) : (a <=? b) = true <-> a <= b.
Proof. unfold JS.leb; destruct (Rle_dec a b); split; intros; try easy. Qed.

Lemma leb_false (a b : R) : (a <=? b) = false <-> b < a.
Proof.
  unfold JS.leb; destruct (Rle_dec a b); split; intros; try easy; lra.
Qed.

Lemma geb_true (a b : R) : (a >=? b) = true <-> b <= a.
Proof. unfold JS.geb; apply leb_true. Qed.

Lemma geb_false (a b : R) : (a >=? b) = false <-> a < b.
Proof. unfold JS.geb; apply leb_false. Qed.

Lemma eqb_true (a b : R) : JS.eqb a b = true <-> a = b.
Proof. unfold JS.eqb; destruct (Req_dec_T a b); split; intros; try easy. Qed.

Lemma eqb_false (a b : R) : JS.eqb a b = false <-> a <> b.
Proof. unfold JS.eqb; destruct (Req_dec_T a b); split; intros; try easy. Qed.

Ltac consts :=
  unfold PLAYER_RADIUS, POTATO_RADIUS, POWERUP_RADIUS, CANVAS_WIDTH,
    CANVAS_HEIGHT, BASE_SPEED, POTATO_SPEED, SLIME_RADIUS, GRID_SIZE in *.

(** Decide the comparisons of a goal whose operands are numerals, by
    rewriting each of them to its value. *)
Lemma ltb_is_true (a b : R) : a < b -> (a <? b) = true.
Proof. apply ltb_true. Qed.

Lemma ltb_is_false (a b : R) : b <= a -> (a <? b) = false.
Proof. apply ltb_false. Qed.

Lemma leb_is_true (a b : R) : a <= b -> (a <=? b) = true.
Proof. apply leb_true. Qed.

Lemma leb_is_false (a b : R) : b < a -> (a <=? b) = false.
Proof. apply leb_false. Qed.

Lemma eqb_is_true (a b : R) : a = b -> JS.eqb a b = true.
Proof. apply eqb_true. Qed.

Lemma eqb_is_false (a b : R) : a <> b -> JS.eqb a b = false.
Proof. apply eqb_false. Qed.

Lemma or_else_nonzero (a b : R) : a <> 0 -> JS.or_else a b = a.
Proof. unfold JS.or_else; destruct (Req_dec_T a 0); intros; [contradiction|reflexivity]. Qed.

Ltac cmp1 :=
  match goal with
  | |- context [Rmax ?a ?b] =>
      first [ rewrite (Rmax_right a b) by lra | rewrite (Rmax_left a b) by lra ]
  | |- context [Rmin ?a ?b] =>
      first [ rewrite (Rmin_left a b) by lra | rewrite (Rmin_right a b) by lra ]
  | |- context [JS.ltb ?a ?b] =>
      first [ rewrite (ltb_is_true a b) by lra
            | rewrite (ltb_is_false a b) by lra ]
  | |- context [JS.leb ?a ?b] =>
      first [ rewrite (leb_is_true a b) by lra
            | rewrite (leb_is_false a b) by lra ]
  | |- context [JS.eqb ?a ?b] =>
      first [ rewrite (eqb_is_true a b) by lra
            | rewrite (eqb_is_false a b) by lra ]
  | |- context [JS.or_else ?a ?b] => rewrite (or_else_nonzero a b) by lra
  end.

Ltac cmp := unfold JS.gtb, JS.geb; repeat (cmp1; cbn; unfold JS.gtb, JS.geb).

Lemma sqrt_sq (a : R) : 0 <= a -> sqrt (a * a) = a.
Proof. apply sqrt_square. Qed.

Lemma sum_sq_nonneg (a b : R) : 0 <= a * a + b * b.
Proof. nra. Qed.

Lemma eta_player (p : Player) : set_position (position p) p = p.
Proof. destruct p; reflexivity. Qed.

Lemma eta_vec (v : Vector2) : vec (x v) (y v) = v.
Proof. destruct v; reflexivity. Qed.

(** ** Pairwise separation *)

Lemma resolvePair_separated (obstacles : list Obstacle) (p1 p2 : Player) :
  radius p1 + radius p2
    <= sqrt ((x (position p2) - x (position p1)) * (x (position p2) - x (position p1))
             + (y (position p2) - y (position p1)) * (y (position p2) - y (position p1))) ->
  Server.resolvePair obstacles p1 p2 = (p1, p2).
Proof.
  intros Hsep; unfold Server.resolvePair.
  destruct (isDead p1 || isDead p2 || isGhost p1 || isGhost p2); [reflexivity|].
  cbv zeta.
  apply ltb_false in Hsep; rewrite Hsep; reflexivity.
Qed.

(** The same for a whole room: avatars that are pairwise apart are all left
    where they are. *)

Lemma resolveAgainst_apart (obstacles : list Obstacle) (p1 : Player)
    (later : list Player) :
  Forall (apart p1) later ->
  Server.resolveAgainst obstacles p1 later = (p1, later).
Proof.
  induction 1 as [|p2 rest H12 _ IH]; simpl; [reflexivity|].
  rewrite (resolvePair_separated obstacles p1 p2 H12), IH; reflexivity.
Qed.

Lemma resolveFrom_apart (obstacles : list Obstacle) (fuel : nat)
    (ps : list Player) :
  ForallOrdPairs apart ps -> Server.resolveFrom obstacles fuel ps = ps.
Proof.
  revert ps; induction fuel as [|fuel IH]; intros ps Hps.
  - destruct ps; reflexivity.
  - destruct Hps as [|p1 later H1 Hlater]; simpl; [reflexivity|].
    rewrite (resolveAgainst_apart obstacles p1 later H1), (IH _ Hlater).
    reflexivity.
Qed.

Lemma resolveCollisions_apart (obstacles : list Obstacle) (ps : list Player) :
  ForallOrdPairs apart ps -> Server.resolveCollisions obstacles ps = ps.
Proof. apply resolveFrom_apart. Qed.

(** Evaluate the square root of a closed expression whose value is [v]. *)
Ltac sqrt_is e v :=
  replace (sqrt e) with v by (symmetry; apply sqrt_lem_1; lra).

(** C9. Pairwise separation does nothing to two living, non-ghost avatars whose
    centres are at least the sum of their radii apart: both avatars, hence both
    positions, come back unchanged. *)
Theorem C9_separation_idempotent (obstacles : list Obstacle) (p1 p2 : Player) :
  isDead p1 = false -> isDead p2 = false ->
  isGhost p1 = false -> isGhost p2 = false ->
  JS.hypot (x (position p2) - x (position p1)) (y (position p2) - y (position p1))
    >= radius p1 + radius p2 ->
  let (p1', p2') := Server.resolvePair obstacles p1 p2 in
  position p1' = position p1 /\ position p2' = position p2
  /\ p1' = p1 /\ p2' = p2.
Proof.
  intros _ _ _ _ Hsep.
  rewrite resolvePair_separated; [auto|].
  unfold JS.hypot in Hsep; lra.
Qed.

Lemma C9_separation_idempotent_witness :
  let p1 := Server.newPlayer "a" "A" "red" (vec 100 100) in
  let p2 := Server.newPlayer "b" "B" "blue" (vec 200 100) in
  let (p1', p2') := Server.resolvePair [] p1 p2 in
  position p1' = position p1 /\ position p2' = position p2
  /\ p1' = p1 /\ p2' = p2.
Proof.
  intros p1 p2.
  apply (C9_separation_idempotent [] p1 p2); try reflexivity.
  unfold JS.hypot, p1, p2; simpl; consts.
  sqrt_is ((200 - 100) * (200 - 100) + (100 - 100) * (100 - 100)) 100.
  lra.
Defined.

(** ** [Math.atan2] points at its argument *)

Lemma norm_pos (a b : R) : a <> 0 \/ b <> 0 -> 0 < sqrt (a * a + b * b).
Proof. intros H; apply sqrt_lt_R0; destruct H; nra. Qed.

Lemma norm_sq (a b : R) : sqrt (a * a + b * b) * sqrt (a * a + b * b) = a * a + b * b.
Proof. apply sqrt_def, sum_sq_nonneg. Qed.

Lemma sqrt_slope (a b : R) :
  0 < a -> sqrt (1 + (b / a)²) = sqrt (a * a + b * b) / a.
Proof.
  intros Ha.
  assert (Hn : 0 < sqrt (a * a + b * b)) by (apply norm_pos; left; lra).
  apply sqrt_lem_1.
  - unfold Rsqr; nra.
  - apply Rlt_le, Rdiv_lt_0_compat; assumption.
  - unfold Rsqr.
    replace (sqrt (a * a + b * b) / a * (sqrt (a * a + b * b) / a))
      with (sqrt (a * a + b * b) * sqrt (a * a + b * b) / (a * a)) by (field; lra).
    rewrite norm_sq; field; lra.
Qed.

Lemma sqrt_slope_neg (a b : R) :
  a < 0 -> sqrt (1 + (b / a)²) = sqrt (a * a + b * b) / - a.
Proof.
  intros Ha.
  replace (b / a) with (- b / - a) by (field; lra).
  replace (a * a + b * b) with (- a * - a + - b * - b) by ring.
  apply sqrt_slope; lra.
Qed.

Lemma atan2_cos_sin (a b : R) :
  a <> 0 \/ b <> 0 ->
  cos (JS.atan2 b a) = a / sqrt (a * a + b * b)
  /\ sin (JS.atan2 b a) = b / sqrt (a * a + b * b).
Proof.
  intros Hab.
  pose proof (norm_pos a b Hab) as Hn.
  unfold JS.atan2.
  destruct (Rlt_dec 0 a) as [Ha|Ha].
  - rewrite cos_atan, sin_atan, sqrt_slope by assumption.
    split; field; lra.
  - destruct (Rlt_dec a 0) as [Ha'|Ha'].
    + destruct (Rle_dec 0 b).
      * rewrite neg_cos, neg_sin, cos_atan, sin_atan, sqrt_slope_neg by assumption.
        split; field; lra.
      * rewrite cos_minus, sin_minus, cos_PI, sin_PI, cos_atan, sin_atan,
          sqrt_slope_neg by assumption.
        split; field; lra.
    + assert (a = 0) by lra; subst a.
      assert (Hb : b <> 0) by (destruct Hab; [lra | assumption]).
      destruct (Rlt_dec 0 b) as [Hb'|Hb'].
      * rewrite cos_PI2, sin_PI2.
        replace (0 * 0 + b * b) with (b * b) by ring.
        rewrite sqrt_sq by lra. split; field; lra.
      * destruct (Rlt_dec b 0) as [Hb''|Hb'']; [|lra].
        rewrite cos_neg, sin_neg, cos_PI2, sin_PI2.
        replace (0 * 0 + b * b) with (- b * - b) by ring.
        rewrite sqrt_sq by lra. split; field; lra.
Qed.

(** ** Move-and-slide *)

Lemma slimeStep_frame (acc : R * Player) (slime : SlimeArea) :
  let p := snd acc in
  let p' := snd (Server.slimeStep acc slime) in
  id p' = id p /\ position p' = position p /\ input p' = input p
  /\ radius p' = radius p /\ lives p' = lives p /\ isDead p' = isDead p.
Proof.
  destruct acc as [s p]; unfold Server.slimeStep.
  destruct (Server.inForeignSlime p slime); cbn; auto 10.
Qed.

Lemma slimes_frame (slimes : list SlimeArea) (acc : R * Player) :
  let p := snd acc in
  let p' := snd (fold_left Server.slimeStep slimes acc) in
  id p' = id p /\ position p' = position p /\ input p' = input p
  /\ radius p' = radius p /\ lives p' = lives p /\ isDead p' = isDead p.
Proof.
  revert acc; induction slimes as [|s rest IH]; intros acc; cbn; [auto 10|].
  destruct (IH (Server.slimeStep acc s)) as (? & ? & ? & ? & ? & ?).
  destruct (slimeStep_frame acc s) as (? & ? & ? & ? & ? & ?).
  repeat split; congruence.
Qed.

Lemma updateStatus_frame (now dt : R) (slimes : list SlimeArea) (p : Player) :
  let p' := Server.updateStatus now dt slimes p in
  id p' = id p /\ position p' = position p /\ input p' = input p
  /\ radius p' = radius p /\ lives p' = lives p /\ isDead p' = isDead p.
Proof.
  unfold Server.updateStatus; cbv zeta.
  match goal with
  | |- context [fold_left Server.slimeStep slimes ?a] =>
      pose proof (slimes_frame slimes a) as H;
      destruct (fold_left Server.slimeStep slimes a) as [s q]
  end.
  cbn in *. exact H.
Qed.

Lemma stepToward_deadzone (dt : R) (p : Player) :
  distanceTo (x (input p)) (y (input p)) p <= 5 ->
  Server.stepToward dt p = (0, 0).
Proof.
  unfold distanceTo, Server.stepToward; intros H; cbv zeta.
  apply gtb_false in H; rewrite H; reflexivity.
Qed.

Lemma stepToward_snap (dt : R) (p : Player) :
  5 < distanceTo (x (input p)) (y (input p)) p ->
  distanceTo (x (input p)) (y (input p)) p < speed p * dt ->
  Server.stepToward dt p
  = (x (input p) - x (position p), y (input p) - y (position p)).
Proof.
  unfold distanceTo, Server.stepToward; intros H5 Hs; cbv zeta.
  apply gtb_true in H5; apply ltb_true in Hs; rewrite H5, Hs; reflexivity.
Qed.

Lemma stepToward_step (dt : R) (p : Player) :
  let dist := distanceTo (x (input p)) (y (input p)) p in
  5 < dist -> speed p * dt <= dist ->
  Server.stepToward dt p
  = ((x (input p) - x (position p)) / dist * (speed p * dt),
     (y (input p) - y (position p)) / dist * (speed p * dt)).
Proof.
  intros dist H5 Hs; unfold distanceTo in dist.
  unfold Server.stepToward; cbv zeta.
  pose proof H5 as H5'; apply gtb_true in H5'; apply ltb_false in Hs.
  unfold dist in H5', Hs; rewrite H5', Hs.
  set (dx := x (input p) - x (position p)) in *.
  set (dy := y (input p) - y (position p)) in *.
  assert (Hne : dx <> 0 \/ dy <> 0).
  { destruct (Req_dec_T dx 0) as [Hx|Hx]; [|now left].
    destruct (Req_dec_T dy 0) as [Hy|Hy]; [|now right].
    exfalso. unfold dist in H5. rewrite Hx, Hy in H5.
    replace (0 * 0 + 0 * 0) with 0 in H5 by ring. rewrite sqrt_0 in H5. lra. }
  destruct (atan2_cos_sin dx dy Hne) as [-> ->]. reflexivity.
Qed.

Lemma stepToward_capped (dt : R) (p : Player) :
  let (vx, vy) := Server.stepToward dt p in
  vx * vx + vy * vy <= (speed p * dt) * (speed p * dt).
Proof.
  unfold Server.stepToward; cbv zeta.
  set (dx := x (input p) - x (position p)).
  set (dy := y (input p) - y (position p)).
  set (m := speed p * dt).
  destruct (sqrt (dx * dx + dy * dy) >? 5); [|nra].
  destruct (sqrt (dx * dx + dy * dy) <? m) eqn:Hlt.
  - apply ltb_true in Hlt.
    pose proof (sqrt_pos (dx * dx + dy * dy)).
    rewrite <- (norm_sq dx dy). nra.
  - pose proof (sin2_cos2 (JS.atan2 dy dx)) as H; unfold Rsqr in H. nra.
Qed.

(** The two axis tests of [slide], spelled out. *)
Lemma slide_axes (obstacles : list Obstacle) (vx vy : R) (p : Player) :
  let p' := Server.slide obstacles (vx, vy) p in
  let x' := if negb (JS.eqb vx 0)
               && isPositionValid (x (position p) + vx) (y (position p))
                                  (radius p) obstacles
            then x (position p) + vx else x (position p) in
  let y' := if negb (JS.eqb vy 0)
               && isPositionValid x' (y (position p) + vy) (radius p) obstacles
            then y (position p) + vy else y (position p) in
  position p' = vec x' y' /\ set_position (position p) p' = p.
Proof.
  unfold Server.slide; destruct p as [? ? ? ? [px py] ? ? ? ? ? ? ? ? ? ? ? ? ? ? ? ? ? ?].
  cbn.
  destruct (JS.eqb vx 0); cbn;
    [|destruct (isPositionValid (px + vx) py radius0 obstacles); cbn];
    (destruct (JS.eqb vy 0); cbn;
     [|match goal with
       | |- context [isPositionValid ?a ?b ?c ?d] =>
           destruct (isPositionValid a b c d); cbn
       end]); auto.
Qed.

Lemma slide_zero (obstacles : list Obstacle) (p : Player) :
  Server.slide obstacles (0, 0) p = p.
Proof.
  unfold Server.slide.
  replace (JS.eqb 0 0) with true by (symmetry; apply eqb_true; reflexivity).
  reflexivity.
Qed.

Lemma tickPlayer_alive (now dt : R) (slimes : list SlimeArea)
    (obstacles : list Obstacle) (p : Player) (pots : list Potato) :
  isDead p = false ->
  fst (Server.tickPlayer now dt slimes obstacles p pots)
  = Server.moveAndSlide dt obstacles (Server.updateStatus now dt slimes p).
Proof. unfold Server.tickPlayer; intros ->; reflexivity. Qed.

Lemma distanceTo_status (now dt tx ty : R) (slimes : list SlimeArea) (p : Player) :
  distanceTo tx ty (Server.updateStatus now dt slimes p) = distanceTo tx ty p.
Proof.
  destruct (updateStatus_frame now dt slimes p) as (_ & Hpos & _).
  unfold distanceTo; rewrite Hpos; reflexivity.
Qed.

(** *** The worked example *)

Lemma walker_distance : distanceTo 500 100 walker = 400.
Proof.
  unfold distanceTo, walker; cbn.
  apply sqrt_lem_1; lra.
Qed.

Lemma walker_status :
  Server.updateStatus 1000 1 [] walker = set_score 10 walker.
Proof.
  unfold Server.updateStatus, walker, Server.newPlayer; cbn; consts.
  unfold set_score, set_speed; cbn.
  cmp. f_equal; lra.
Qed.

Lemma walker_step : Server.stepToward 1 (set_score 10 walker) = (250, 0).
Proof.
  set (q := set_score 10 walker).
  assert (Hd : distanceTo (x (input q)) (y (input q)) q = 400)
    by exact walker_distance.
  rewrite stepToward_step; rewrite Hd; cbn; consts; [f_equal| |]; lra.
Qed.

Example walker_free :
  position (fst (Server.tickPlayer 1000 1 [] [] walker [])) = vec 350 100.
Proof.
  rewrite tickPlayer_alive by reflexivity.
  rewrite walker_status. unfold Server.moveAndSlide. rewrite walker_step.
  unfold Server.slide, isPositionValid, walker, Server.newPlayer; cbn; consts.
  cmp. cbn. f_equal; lra.
Qed.

Example walker_blocked :
  position (fst (Server.tickPlayer 1000 1 [] [wall] walker [])) = vec 100 100.
Proof.
  rewrite tickPlayer_alive by reflexivity.
  rewrite walker_status. unfold Server.moveAndSlide. rewrite walker_step.
  unfold Server.slide, isPositionValid, insideWall, wall, walker,
    Server.newPlayer; cbn; consts.
  cmp. cbn. reflexivity.
Qed.

(** C4, as stated, fails inside the dead zone: the avatar is 3 units from its
    target, one step is 25 units, and the tick leaves it where it is instead
    of putting it on the target. *)
Lemma C4_no_snap_in_dead_zone :
  let q := Server.updateStatus 1000 (1 / 10) [] loiterer in
  let p' := fst (Server.tickPlayer 1000 (1 / 10) [] [] loiterer []) in
  isDead loiterer = false
  /\ distanceTo (x (input loiterer)) (y (input loiterer)) loiterer = 3
  /\ speed q * (1 / 10) = 25
  /\ position p' = vec 100 100
  /\ position p' <> input p'.
Proof.
  cbv zeta.
  assert (Hd : distanceTo (x (input loiterer)) (y (input loiterer)) loiterer = 3).
  { unfold distanceTo, loiterer; cbn. apply sqrt_lem_1; lra. }
  assert (Hs : speed (Server.updateStatus 1000 (1 / 10) [] loiterer) = 250).
  { unfold Server.updateStatus, loiterer, Server.newPlayer; cbn; consts.
    cmp. reflexivity. }
  rewrite tickPlayer_alive by reflexivity.
  unfold Server.moveAndSlide.
  destruct (updateStatus_frame 1000 (1 / 10) [] loiterer) as (_ & Hpos & Hin & _).
  rewrite stepToward_deadzone, slide_zero
    by (rewrite Hin, distanceTo_status, Hd; lra).
  rewrite Hpos, Hin, Hs.
  repeat split; try reflexivity; try assumption; try lra.
  cbn. intros H; injection H; lra.
Qed.

(** C4 (amended). In each tick, for every living avatar, the step toward the
    movement-intent target is never longer than [speed * dt], where [speed] is
    the avatar's speed after this tick's status update; it is the whole
    remaining vector when the distance is above 5 and below one step, and one
    step along the direction of the target when the distance is above 5 and at
    least one step.  The step is applied per axis: the new X is taken only if
    it is a move and the position it gives is valid, otherwise X is unchanged;
    Y is then resolved the same way with the X just obtained.  In the worked
    example the avatar goes from (100,100) to (350,100) on an empty map, and
    stays at (100,100) when the wall x in [340,360], y in [50,150] is there. *)
Theorem C4_move_and_slide (now dt : R) (slimes : list SlimeArea)
    (obstacles : list Obstacle) (p : Player) (pots : list Potato) :
  isDead p = false ->
  let speed := speed (Server.updateStatus now dt slimes p) in
  let p' := fst (Server.tickPlayer now dt slimes obstacles p pots) in
  let dx := x (input p) - x (position p) in
  let dy := y (input p) - y (position p) in
  let dist := sqrt (dx * dx + dy * dy) in
  let moveStep := speed * dt in
  (exists vx vy : R,
      vx * vx + vy * vy <= moveStep * moveStep
      /\ (5 < dist -> dist < moveStep -> vx = dx /\ vy = dy)
      /\ (5 < dist -> moveStep <= dist ->
          vx = dx / dist * moveStep /\ vy = dy / dist * moveStep)
      /\ let x' := if negb (JS.eqb vx 0)
                      && isPositionValid (x (position p) + vx) (y (position p))
                                         (radius p) obstacles
                   then x (position p) + vx else x (position p) in
         let y' := if negb (JS.eqb vy 0)
                      && isPositionValid x' (y (position p) + vy)
                                         (radius p) obstacles
                   then y (position p) + vy else y (position p) in
         position p' = vec x' y')
  /\ position (fst (Server.tickPlayer 1000 1 [] [] walker [])) = vec 350 100
  /\ position (fst (Server.tickPlayer 1000 1 [] [wall] walker [])) = vec 100 100.
Proof.
  intros Halive; cbv zeta.
  split; [|split; [exact walker_free | exact walker_blocked]].
  rewrite tickPlayer_alive by assumption.
  set (q := Server.updateStatus now dt slimes p).
  destruct (updateStatus_frame now dt slimes p) as (_ & Hpos & Hin & Hrad & _).
  fold q in Hpos, Hin, Hrad.
  unfold Server.moveAndSlide.
  pose proof (stepToward_capped dt q) as Hcap.
  pose proof (stepToward_snap dt q) as Hsnap.
  pose proof (stepToward_step dt q) as Hstep. cbv zeta in Hstep.
  unfold distanceTo in Hsnap, Hstep.
  rewrite Hpos, Hin in Hsnap, Hstep.
  destruct (Server.stepToward dt q) as [vx vy].
  exists vx, vy. split; [exact Hcap|].
  split; [intros H5 Hlt; specialize (Hsnap H5 Hlt); injection Hsnap; auto|].
  split; [intros H5 Hle; specialize (Hstep H5 Hle); injection Hstep; auto|].
  destruct (slide_axes obstacles vx vy q) as [H _].
  rewrite Hpos, Hrad in H. exact H.
Qed.

Lemma C4_move_and_slide_witness :
  position (fst (Server.tickPlayer 1000 1 [] [] walker [])) = vec 350 100
  /\ position (fst (Server.tickPlayer 1000 1 [] [wall] walker [])) = vec 100 100.
Proof.
  exact (proj2 (C4_move_and_slide 1000 1 [] [] walker [] eq_refl)).
Defined.

(** ** The dead zone *)



Lemma movePlayerToward_deadzone (isOnline : bool) (myId : option string)
    (obstacles : list Obstacle) (tx ty dt : R) (q : Player) :
  Client.isHuman isOnline myId q = true ->
  distanceTo tx ty q < 5 ->
  Client.movePlayerToward isOnline myId obstacles tx ty dt q = q.
Proof.
  unfold distanceTo, Client.movePlayerToward; intros -> H; cbv zeta.
  apply ltb_true in H; rewrite H; reflexivity.
Qed.

(** X19. The dead zones of the two movement steps.  On the server a living
    avatar whose distance to its movement-intent target is at most 5 keeps its
    position through the movement phase of a tick, so it stays short of the
    target when it is not already on it.  In the client's prediction of the
    human player the avatar is left unchanged when the distance is below 5. *)
Theorem X19_dead_zone (now dt : R) (slimes : list SlimeArea)
    (obstacles : list Obstacle) (p : Player) (pots : list Potato)
    (isOnline : bool) (myId : option string) (walls : list Obstacle)
    (tx ty frame : R) (q : Player) :
  isDead p = false ->
  distanceTo (x (input p)) (y (input p)) p <= 5 ->
  Client.isHuman isOnline myId q = true ->
  distanceTo tx ty q < 5 ->
  let p' := fst (Server.tickPlayer now dt slimes obstacles p pots) in
  position p' = position p
  /\ (0 < distanceTo (x (input p)) (y (input p)) p -> position p' <> input p')
  /\ Client.movePlayerToward isOnline myId walls tx ty frame q = q.
Proof.
  intros Halive Hd Hq Hdq; cbv zeta.
  rewrite tickPlayer_alive by assumption.
  destruct (updateStatus_frame now dt slimes p) as (_ & Hpos & Hin & _).
  unfold Server.moveAndSlide.
  rewrite stepToward_deadzone, slide_zero
    by (rewrite Hin, distanceTo_status; assumption).
  rewrite Hpos, Hin.
  split; [reflexivity|]. split; [|apply movePlayerToward_deadzone; assumption].
  intros Hpos0 Heq. unfold distanceTo in Hpos0. rewrite Heq in Hpos0.
  replace ((x (input p) - x (input p)) * (x (input p) - x (input p))
           + (y (input p) - y (input p)) * (y (input p) - y (input p)))
    with 0 in Hpos0 by ring.
  rewrite sqrt_0 in Hpos0. lra.
Qed.

Lemma X19_dead_zone_witness :
  let p' := fst (Server.tickPlayer 1000 (1 / 10) [] [] loiterer []) in
  position p' = position loiterer
  /\ (0 < distanceTo (x (input loiterer)) (y (input loiterer)) loiterer ->
      position p' <> input p')
  /\ Client.movePlayerToward true (Some "me"%string) [] 103 100 (1 / 60) me = me.
Proof.
  assert (Hd : sqrt ((103 - 100) * (103 - 100) + (100 - 100) * (100 - 100)) = 3)
    by (apply sqrt_lem_1; lra).
  apply (X19_dead_zone 1000 (1 / 10) [] [] loiterer [] true (Some "me"%string)
                       [] 103 100 (1 / 60) me).
  - reflexivity.
  - unfold distanceTo, loiterer; cbn. rewrite Hd; lra.
  - reflexivity.
  - unfold distanceTo, me; cbn. rewrite Hd; lra.
Defined.

(** ** Avatars stay in bounds and out of the walls *)

Section Steady.

Variable obstacles : list Obstacle.

Lemma steady_refl (p : Player) : steady obstacles p p.
Proof. unfold steady; repeat split; auto; lia. Qed.

Lemma steady_trans (p q r : Player) :
  steady obstacles p q -> steady obstacles q r -> steady obstacles p r.
Proof.
  unfold steady; intros (? & ? & ? & Hq) (? & ? & ? & Hr).
  repeat split; try congruence; try lia.
  intros Hl Hv. apply Hr; [lia|]. apply Hq; [lia|assumption].
Qed.

Lemma Forall2_steady_refl (ps : list Player) : Forall2 (steady obstacles) ps ps.
Proof. induction ps; constructor; auto using steady_refl. Qed.

Lemma Forall2_steady_trans (ps qs rs : list Player) :
  Forall2 (steady obstacles) ps qs -> Forall2 (steady obstacles) qs rs ->
  Forall2 (steady obstacles) ps rs.
Proof.
  intros H; revert rs; induction H; intros rs Hr; inversion Hr; subst;
    constructor; eauto using steady_trans.
Qed.

(** A step that keeps id, radius and lives, and validity, is steady. *)
Lemma steady_intro (p p' : Player) :
  id p' = id p -> radius p' = radius p -> lives p' = lives p ->
  (valid obstacles p -> valid obstacles p') ->
  steady obstacles p p'.
Proof. unfold steady; intros; repeat split; auto; lia. Qed.

Lemma slide_steady (v : R * R) (p : Player) :
  steady obstacles p (Server.slide obstacles v p).
Proof.
  destruct v as [vx vy]; unfold Server.slide.
  destruct p as [? ? ? ? [px py] ? r ? ? ? ? ? ? ? ? ? ? ? ? ? ? ? ?].
  cbn.
  destruct (JS.eqb vx 0); cbn;
    [|destruct (isPositionValid (px + vx) py r obstacles) eqn:Hx; cbn];
    (destruct (JS.eqb vy 0); cbn;
     [|match goal with
       | |- context [isPositionValid ?a ?b ?c ?d] =>
           destruct (isPositionValid a b c d) eqn:Hy; cbn
       end]);
    apply steady_intro; cbn; unfold valid; cbn; auto.
Qed.

Lemma updateStatus_steady (now dt : R) (slimes : list SlimeArea) (p : Player) :
  steady obstacles p (Server.updateStatus now dt slimes p).
Proof.
  destruct (updateStatus_frame now dt slimes p) as (? & Hpos & ? & Hr & ? & ?).
  apply steady_intro; auto. unfold valid; rewrite Hpos, Hr; auto.
Qed.

Lemma tickPlayer_steady (now dt : R) (slimes : list SlimeArea) (p : Player)
    (pots : list Potato) :
  steady obstacles p (fst (Server.tickPlayer now dt slimes obstacles p pots)).
Proof.
  unfold Server.tickPlayer; destruct (isDead p); cbn; [apply steady_refl|].
  eapply steady_trans; [apply updateStatus_steady|apply slide_steady].
Qed.

Lemma tickPlayers_steady (now dt : R) (slimes : list SlimeArea)
    (ps : list Player) (pots : list Potato) (n : nat) (w : option string) :
  Forall2 (steady obstacles) ps
    (fst (fst (fst (Server.tickPlayers now dt slimes obstacles ps pots n w)))).
Proof.
  revert pots n w; induction ps as [|p rest IH]; intros pots n w; cbn;
    [constructor|].
  pose proof (tickPlayer_steady now dt slimes p pots) as Hp.
  destruct (Server.tickPlayer now dt slimes obstacles p pots) as [p' pots'].
  match goal with
  | |- context [Server.tickPlayers now dt slimes obstacles rest ?a ?b ?c] =>
      specialize (IH a b c);
      destruct (Server.tickPlayers now dt slimes obstacles rest a b c)
        as [[[rest' ?] ?] ?]
  end.
  cbn in *. constructor; assumption.
Qed.

Lemma resolvePair_steady (p1 p2 : Player) :
  steady obstacles p1 (fst (Server.resolvePair obstacles p1 p2))
  /\ steady obstacles p2 (snd (Server.resolvePair obstacles p1 p2)).
Proof.
  unfold Server.resolvePair.
  destruct (isDead p1 || isDead p2 || isGhost p1 || isGhost p2);
    [split; apply steady_refl|].
  cbv zeta.
  match goal with
  | |- context [if ?c then _ else (p1, p2)] => destruct c
  end; [|split; apply steady_refl].
  destruct p1 as [? ? ? ? [x1 y1] ? r1 ? ? ? ? ? ? ? ? ? ? ? ? ? ? ? ?].
  destruct p2 as [? ? ? ? [x2 y2] ? r2 ? ? ? ? ? ? ? ? ? ? ? ? ? ? ? ?].
  cbn.
  repeat match goal with
    | |- context [isPositionValid ?a ?b ?c ?d] =>
        let H := fresh "Hv" in destruct (isPositionValid a b c d) eqn:H; cbn
    end;
    split; apply steady_intro; cbn; unfold valid; cbn; auto.
Qed.

Lemma resolveAgainst_steady (p1 : Player) (later : list Player) :
  steady obstacles p1 (fst (Server.resolveAgainst obstacles p1 later))
  /\ Forall2 (steady obstacles) later
       (snd (Server.resolveAgainst obstacles p1 later)).
Proof.
  revert p1; induction later as [|p2 rest IH]; intros p1; cbn.
  - split; [apply steady_refl|constructor].
  - destruct (resolvePair_steady p1 p2) as [H1 H2].
    destruct (Server.resolvePair obstacles p1 p2) as [p1' p2'].
    destruct (IH p1') as [H1' Hrest].
    destruct (Server.resolveAgainst obstacles p1' rest) as [p1'' rest'].
    cbn in *. split; [eapply steady_trans; eassumption|].
    constructor; assumption.
Qed.

Lemma resolveFrom_steady (fuel : nat) (ps : list Player) :
  Forall2 (steady obstacles) ps (Server.resolveFrom obstacles fuel ps).
Proof.
  revert ps; induction fuel as [|fuel IH]; intros ps; cbn;
    [destruct ps; apply Forall2_steady_refl|].
  destruct ps as [|p1 later]; [constructor|].
  destruct (resolveAgainst_steady p1 later) as [H1 Hl].
  destruct (Server.resolveAgainst obstacles p1 later) as [p1' later'].
  cbn in *. constructor; [assumption|].
  eapply Forall2_steady_trans; [eassumption|apply IH].
Qed.

Lemma hit_steady (rnd : nat -> R) (now : R) (walls : list Obstacle)
    (potato : Potato) (p : Player) (m : R) (k : nat) :
  steady obstacles p (snd (fst (fst (Server.hit rnd now walls potato p m k)))).
Proof.
  unfold Server.hit.
  destruct (isDead p); [apply steady_refl|]. cbv zeta.
  match goal with |- context [if ?c then _ else _] => destruct c end;
    [|apply steady_refl].
  destruct (isShielded p);
    [destruct (negb (isFrozen potato)); apply steady_refl|].
  destruct (negb (isFrozen potato) && negb (isGhost p)); [|apply steady_refl].
  destruct (lives (set_lives (lives p - 1) p) <=? 0)%Z.
  - destruct p; unfold steady; cbn; repeat split; auto; lia.
  - destruct (Server.findSafeSpawn rnd walls k) as [pos k'].
    destruct p; unfold steady; cbn; repeat split; auto; lia.
Qed.

Lemma hitPlayers_steady (rnd : nat -> R) (now : R) (walls : list Obstacle)
    (potato : Potato) (ps : list Player) (m : R) (k : nat) :
  Forall2 (steady obstacles) ps
    (snd (fst (fst (Server.hitPlayers rnd now walls potato ps m k)))).
Proof.
  revert potato m k; induction ps as [|p rest IH]; intros potato m k; cbn;
    [constructor|].
  pose proof (hit_steady rnd now walls potato p m k) as Hp.
  destruct (Server.hit rnd now walls potato p m k) as [[[potato' p'] m'] k'].
  specialize (IH potato' m' k').
  destruct (Server.hitPlayers rnd now walls potato' rest m' k')
    as [[[potato'' rest'] m''] k''].
  cbn in *. constructor; assumption.
Qed.

Lemma hitPotatoes_steady (rnd : nat -> R) (now : R) (walls : list Obstacle)
    (pots : list Potato) (ps : list Player) (m : R) (k : nat) :
  Forall2 (steady obstacles) ps
    (snd (fst (fst (Server.hitPotatoes rnd now walls pots ps m k)))).
Proof.
  revert ps m k; induction pots as [|potato rest IH]; intros ps m k; cbn;
    [apply Forall2_steady_refl|].
  pose proof (hitPlayers_steady rnd now walls potato ps m k) as Hp.
  destruct (Server.hitPlayers rnd now walls potato ps m k)
    as [[[potato' ps'] m'] k'].
  specialize (IH ps' m' k').
  destruct (Server.hitPotatoes rnd now walls rest ps' m' k')
    as [[[rest' ps''] m''] k''].
  cbn in *. eapply Forall2_steady_trans; eassumption.
Qed.

Lemma applyPowerup_steady (now : R) (type : PowerupType) (p : Player)
    (pots : list Potato) :
  steady obstacles p (fst (fst (Server.applyPowerup now type p pots))).
Proof.
  destruct type, p; cbn; apply steady_intro; cbn; unfold valid; cbn; auto.
Qed.

Lemma collect_steady (now : R) (pu : Powerup) (ps : list Player)
    (pots : list Potato) :
  Forall2 (steady obstacles) ps
    (fst (fst (fst (Server.collect now pu ps pots)))).
Proof.
  revert pots; induction ps as [|p rest IH]; intros pots; cbn; [constructor|].
  match goal with |- context [if ?c then _ else _] => destruct c end.
  - pose proof (applyPowerup_steady now (pu_type pu)
                  (set_score (score p + 50) p) pots) as Hp.
    destruct (Server.applyPowerup now (pu_type pu) (set_score (score p + 50) p)
                                  pots) as [[p' pots'] t1].
    specialize (IH pots').
    destruct (Server.collect now pu rest pots') as [[[rest' ?] ?] ?].
    cbn in *. constructor; [|assumption].
    eapply steady_trans; [|eassumption].
    destruct p; apply steady_intro; cbn; unfold valid; cbn; auto.
  - specialize (IH pots).
    destruct (Server.collect now pu rest pots) as [[[rest' ?] ?] ?].
    cbn in *. constructor; [apply steady_refl|assumption].
Qed.

Lemma collectAll_steady (now : R) (pus : list Powerup) (ps : list Player)
    (pots : list Potato) :
  Forall2 (steady obstacles) ps
    (snd (fst (fst (Server.collectAll now pus ps pots)))).
Proof.
  revert ps pots; induction pus as [|pu rest IH]; intros ps pots; cbn;
    [apply Forall2_steady_refl|].
  pose proof (collect_steady now pu ps pots) as Hp.
  destruct (Server.collect now pu ps pots) as [[[ps' pots'] t1] c].
  specialize (IH ps' pots').
  destruct (Server.collectAll now rest ps' pots') as [[[rest' ps''] pots''] t2].
  cbn in *. eapply Forall2_steady_trans; eassumption.
Qed.

End Steady.

Lemma checkCollisions_steady (rnd : nat -> R) (now : R) (k : nat) (r : GameRoom) :
  let r' := fst (fst (Server.checkCollisions rnd now k r)) in
  obstacles r' = obstacles r
  /\ Forall2 (steady (obstacles r)) (players r) (players r').
Proof.
  unfold Server.checkCollisions.
  destruct (gameEnded r); cbn; [split; [reflexivity|apply Forall2_steady_refl]|].
  pose proof (hitPotatoes_steady (obstacles r) rnd now (obstacles r)
                (potatoes r) (players r) (potatoSpeedMultiplier r) k) as H1.
  destruct (Server.hitPotatoes rnd now (obstacles r) (potatoes r) (players r)
              (potatoSpeedMultiplier r) k) as [[[pots ps] m] k'].
  pose proof (collectAll_steady (obstacles r) now (powerups r) ps pots) as H2.
  destruct (Server.collectAll now (powerups r) ps pots) as [[[pus ps'] pots'] ts].
  cbn in *. split; [reflexivity|].
  eapply Forall2_steady_trans; eassumption.
Qed.

Lemma updatePowerups_frame (rnd : nat -> R) (now : R) (k : nat) (r : GameRoom) :
  let r' := fst (Server.updatePowerups rnd now k r) in
  obstacles r' = obstacles r /\ players r' = players r
  /\ potatoes r' = potatoes r /\ gameEnded r' = gameEnded r
  /\ potatoSpeedMultiplier r' = potatoSpeedMultiplier r.
Proof.
  unfold Server.updatePowerups.
  destruct ((rnd k <? 0.005) && (List.length (powerups r) <? 5)%nat);
    [|cbn; auto 10].
  destruct (Server.sampleLoop rnd (obstacles r) 20 (S (S k)) (vec 0 0))
    as [[v safe] k'].
  destruct safe; cbn; auto 10.
Qed.

(** The avatars of a room through one whole [update]. *)
Lemma update_steady (rnd : nat -> R) (now : R) (k : nat) (r : GameRoom) :
  let r' := fst (fst (fst (Server.update rnd now k r))) in
  obstacles r' = obstacles r
  /\ Forall2 (steady (obstacles r)) (players r) (players r').
Proof.
  unfold Server.update.
  destruct (state r); cbn; try (split; [reflexivity|apply Forall2_steady_refl]).
  set (dt := (now - lastUpdate r) / 1000).
  set (slimes := filter _ (slimeAreas r)).
  pose proof (tickPlayers_steady (obstacles r) now dt slimes (players r)
                (potatoes r) 0%nat None) as H1.
  destruct (Server.tickPlayers now dt slimes (obstacles r) (players r)
              (potatoes r) 0 None) as [[[ps pots] alive] winner].
  cbn in *.
  pose proof (resolveFrom_steady (obstacles r) (List.length ps) ps) as H2.
  fold (Server.resolveCollisions (obstacles r) ps) in H2.
  pose proof (Forall2_steady_trans _ _ _ _ H1 H2) as H12.
  destruct (alive =? 1)%nat; cbn;
    (destruct ((now - startTime r >? 3000) && negb (gameEnded r)
               && (alive <=? 1)%nat); cbn; [split; [reflexivity|exact H12]|]);
    (destruct (gameEnded r); cbn; [split; [reflexivity|exact H12]|]);
    match goal with
    | |- context [Server.updatePowerups rnd now k ?q] =>
        destruct (updatePowerups_frame rnd now k q) as (Ho & Hp & _);
        destruct (Server.updatePowerups rnd now k q) as [q' k'];
        cbn in Ho, Hp;
        destruct (checkCollisions_steady rnd now k' q') as [Ho' Hp'];
        destruct (Server.checkCollisions rnd now k' q') as [[q'' k''] ts];
        cbn in *
    end;
    (split; [congruence|]);
    rewrite Ho, Hp in Hp'; eapply Forall2_steady_trans; eassumption.
Qed.

(** C1 (amended). Through every tick of a room, each avatar keeps its id and
    radius, and every avatar that was in bounds and clear of every obstacle
    before the tick and does not lose a life in it is still so after the tick:
    movement and pushes change a coordinate only to a position that
    [isPositionValid] accepts.  (Nothing is claimed of the potatoes.) *)
Theorem C1_avatars_stay_valid (rnd : nat -> R) (now : R) (k : nat) (r : GameRoom) :
  let r' := fst (fst (fst (Server.update rnd now k r))) in
  obstacles r' = obstacles r
  /\ Forall2 (fun p p' =>
                id p' = id p /\ radius p' = radius p
                /\ (valid (obstacles r) p -> lives p' = lives p ->
                    valid (obstacles r') p'))
             (players r) (players r').
Proof.
  destruct (update_steady rnd now k r) as [Ho Hs]. cbv zeta.
  split; [exact Ho|]. rewrite Ho.
  eapply Forall2_impl; [|exact Hs].
  unfold steady; intros p p' (? & ? & ? & ?); auto.
Qed.

(** *** A potato walks into a wall *)

#[local] Arguments Server.tickPlayers : simpl never.
#[local] Arguments Server.resolveCollisions : simpl never.
#[local] Arguments Server.chase : simpl never.
#[local] Arguments Server.updatePowerups : simpl never.
#[local] Arguments Server.checkCollisions : simpl never.

Lemma floor_small (a : R) : 0 <= a < 1 -> JS.floor a = 0%Z.
Proof. intros H; apply Zfloor_eq; simpl; lra. Qed.

Lemma watcher_tick :
  Server.tickPlayers 33 ((33 - 0) / 1000) [] [block] [watcher]
                     [Server.initialPotato 1] 0 None
  = ([set_score (0 + (33 - 0) / 1000 * 10) watcher], [Server.initialPotato 1],
     1%nat, Some "a"%string).
Proof.
  unfold Server.tickPlayers, Server.tickPlayer; cbn.
  unfold Server.spawnPotatoes; cbn.
  rewrite floor_small by lra. cbn.
  unfold Server.moveAndSlide, Server.stepToward; cbn.
  replace ((500 - 500) * (500 - 500) + (100 - 100) * (100 - 100)) with 0 by ring.
  rewrite sqrt_0.
  replace (0 >? 5) with false by (symmetry; apply gtb_false; lra).
  rewrite slide_zero.
  unfold Server.updateStatus, watcher, Server.newPlayer; cbn; consts.
  cmp. reflexivity.
Qed.
Lemma hypot_ltb_false (a b c : R) :
  0 <= c -> c * c <= a * a + b * b -> (JS.hypot a b <? c) = false.
Proof.
  intros Hc H; apply ltb_false; unfold JS.hypot.
  rewrite <- (sqrt_sq c Hc). apply sqrt_le_1_alt; assumption.
Qed.

Lemma potato_chase (s : R) :
  Server.chase 33 ((33 - 0) / 1000) 1 [set_score s watcher]
               (Server.initialPotato 1)
  = set_pot_position (vec (10759 / 100) 100)
      (set_targetId (Some "a"%string) (Server.initialPotato 1)).
Proof.
  unfold Server.chase, Server.nearestTarget, Server.nearer; cbn.
  sqrt_is ((500 - 100) * (500 - 100) + (100 - 100) * (100 - 100)) 400.
  consts. cmp. unfold set_pot_position; cbn. do 2 f_equal; lra.
Qed.

Lemma arena_tick :
  exists r' : GameRoom,
    Server.update tenth 33 0 arena = (r', 1%nat, [], Server.Running)
    /\ obstacles r' = [block]
    /\ potatoes r'
       = [set_pot_position (vec (10759 / 100) 100)
            (set_targetId (Some "a"%string) (Server.initialPotato 1))].
Proof.
  eexists. split.
  - unfold Server.update. cbn. rewrite watcher_tick. cbn.
    unfold Server.resolveCollisions; cbn.
    replace (33 - 0 >? 3000) with false by (symmetry; apply gtb_false; lra).
    cbn. rewrite potato_chase.
    unfold Server.updatePowerups, tenth; cbn.
    replace (1 / 10 <? 0.005) with false by (symmetry; apply ltb_false; lra).
    cbn. unfold Server.checkCollisions; cbn.
    rewrite hypot_ltb_false by (consts; lra).
    cbn. reflexivity.
  - cbn. split; reflexivity.
Qed.

(** C1, as stated, fails for the potato.  In the first tick (33 ms) of a round
    with every avatar and the potato in bounds and clear of the only obstacle,
    the potato steps 7.59 units straight toward the avatar and ends 17.41
    units from the obstacle, less than its radius 20. *)
Lemma C1_potato_enters_wall :
  let r' := fst (fst (fst (Server.update tenth 33 0 arena))) in
  state arena = PLAYING
  /\ Forall (valid (obstacles arena)) (players arena)
  /\ Forall (potatoValid (obstacles arena)) (potatoes arena)
  /\ snd (Server.update tenth 33 0 arena) = Server.Running
  /\ map pot_position (potatoes r') = [vec (10759 / 100) 100]
  /\ ~ Forall (potatoValid (obstacles r')) (potatoes r').
Proof.
  destruct arena_tick as (r1 & -> & Ho & Hp). cbn [fst snd].
  rewrite Ho, Hp.
  split; [reflexivity|].
  split; [repeat constructor; unfold valid, isPositionValid, insideWall;
          cbn; consts; cmp; reflexivity|].
  split; [repeat constructor; unfold potatoValid, isPositionValid, insideWall;
          cbn; consts; cmp; reflexivity|].
  split; [reflexivity|]. split; [reflexivity|].
  intros H; inversion H as [|? ? Hv _]; subst.
  revert Hv. unfold potatoValid, isPositionValid, insideWall; cbn; consts.
  cmp. discriminate.
Qed.

(** Compute field assignments and projections, innermost first. *)
Ltac fields :=
  cbv [set_position set_speed set_isDead set_score set_lives set_ping
       set_dashCooldown set_shieldCooldown set_smokeCooldown set_slimeCooldown
       set_isShielded set_isHidden set_isGhost set_isSilenced set_isSlowed
       set_speedBoostEndTime set_input
       id name color isBot position velocity radius speed isDead score lives
       ping dashCooldown shieldCooldown smokeCooldown slimeCooldown isShielded
       isHidden isGhost isSilenced isSlowed speedBoostEndTime input] in *.


(** ** Spawning *)

(** The same for the fields of a room. *)
Ltac rfields :=
  cbv [set_hostId set_players set_potatoes set_powerups set_slimeAreas
       set_state set_lastUpdate set_potatoSpeedMultiplier set_startTime
       set_gameEnded set_lastSurvivorId
       room_id hostId initialPotatoSpeed maxPlayers isPrivate players potatoes
       powerups obstacles slimeAreas state lastUpdate potatoSpeedMultiplier
       startTime gameEnded lastSurvivorId] in *.

Lemma sampleLoop_zero (rnd : nat -> R) (walls : list Obstacle) (k : nat)
    (last : Vector2) :
  Server.sampleLoop rnd walls 0 k last = (last, false, k).
Proof. reflexivity. Qed.

Lemma sampleLoop_step (rnd : nat -> R) (walls : list Obstacle) (fuel k : nat)
    (last : Vector2) :
  Server.sampleLoop rnd walls (S fuel) k last
  = if clear walls (sample rnd k) then (sample rnd k, true, S (S k))
    else Server.sampleLoop rnd walls fuel (S (S k)) (sample rnd k).
Proof.
  unfold clear, sample; cbn [x y].
  change (Server.sampleLoop rnd walls (S fuel) k last)
    with (if existsb (Server.pointInside (rnd k * (CANVAS_WIDTH - 200) + 100)
                        (rnd (S k) * (CANVAS_HEIGHT - 200) + 100)) walls
          then Server.sampleLoop rnd walls fuel (S (S k))
                 (vec (rnd k * (CANVAS_WIDTH - 200) + 100)
                      (rnd (S k) * (CANVAS_HEIGHT - 200) + 100))
          else (vec (rnd k * (CANVAS_WIDTH - 200) + 100)
                    (rnd (S k) * (CANVAS_HEIGHT - 200) + 100), true, S (S k))).
  destruct (existsb _ walls); reflexivity.
Qed.

Lemma sampleLoop_spec (rnd : nat -> R) (walls : list Obstacle) (fuel k : nat)
    (last : Vector2) :
  (0 < fuel)%nat ->
  exists n : nat,
    (n < fuel)%nat
    /\ Server.sampleLoop rnd walls fuel k last
       = (sample rnd (k + 2 * n), clear walls (sample rnd (k + 2 * n)),
          (k + 2 * (n + 1))%nat)
    /\ (forall i : nat, (i < n)%nat -> clear walls (sample rnd (k + 2 * i)) = false)
    /\ (clear walls (sample rnd (k + 2 * n)) = true \/ n = (fuel - 1)%nat).
Proof.
  revert k last; induction fuel as [|fuel IH]; intros k last Hf; [lia|].
  rewrite sampleLoop_step.
  destruct (clear walls (sample rnd k)) eqn:Hc.
  - exists 0%nat. replace (k + 2 * 0)%nat with k by lia.
    replace (k + 2 * (0 + 1))%nat with (S (S k)) by lia.
    rewrite Hc.
    split; [lia|]. split; [reflexivity|]. split; [intros; lia|left; reflexivity].
  - destruct fuel as [|fuel].
    + exists 0%nat. replace (k + 2 * 0)%nat with k by lia.
      replace (k + 2 * (0 + 1))%nat with (S (S k)) by lia.
      rewrite Hc, sampleLoop_zero.
      split; [lia|]. split; [reflexivity|]. split; [intros; lia|right; lia].
    + destruct (IH (S (S k)) (sample rnd k)) as (n & Hn & Heq & Hbefore & Hlast);
        [lia|].
      exists (S n).
      replace (k + 2 * S n)%nat with (S (S k) + 2 * n)%nat by lia.
      replace (k + 2 * (S n + 1))%nat with (S (S k) + 2 * (n + 1))%nat by lia.
      split; [lia|]. split; [exact Heq|]. split.
      * intros [|i] Hi.
        -- replace (k + 2 * 0)%nat with k by lia. exact Hc.
        -- replace (k + 2 * S i)%nat with (S (S k) + 2 * i)%nat by lia.
           apply Hbefore; lia.
      * destruct Hlast as [Hl|Hl]; [left; exact Hl|right; lia].
Qed.

Lemma sample_nonzero (rnd : nat -> R) (k : nat) :
  uniform rnd -> x (sample rnd k) <> 0 /\ y (sample rnd k) <> 0.
Proof.
  intros Hu; unfold sample; cbn; consts.
  pose proof (Hu k); pose proof (Hu (S k)). split; nra.
Qed.

(** [findSafeSpawn] returns the first clear sample of the first fifty, and the
    fiftieth when none is clear. *)
Lemma findSafeSpawn_spec (rnd : nat -> R) (walls : list Obstacle) (k : nat) :
  uniform rnd ->
  exists n : nat,
    (n < 50)%nat
    /\ Server.findSafeSpawn rnd walls k
       = (sample rnd (k + 2 * n), (k + 2 * (n + 1))%nat)
    /\ (forall i : nat, (i < n)%nat -> clear walls (sample rnd (k + 2 * i)) = false)
    /\ (clear walls (sample rnd (k + 2 * n)) = true \/ n = 49%nat).
Proof.
  intros Hu. unfold Server.findSafeSpawn.
  destruct (sampleLoop_spec rnd walls 50 k (vec 0 0)) as (n & Hn & -> & Hb & Hl);
    [lia|].
  exists n. split; [exact Hn|]. split; [|split; [exact Hb|]].
  - destruct (sample_nonzero rnd (k + 2 * n) Hu) as [Hx Hy].
    unfold JS.or_else.
    destruct (Req_dec_T (x (sample rnd (k + 2 * n))) 0); [contradiction|].
    destruct (Req_dec_T (y (sample rnd (k + 2 * n))) 0); [contradiction|].
    rewrite eta_vec. reflexivity.
  - destruct Hl as [Hl|Hl]; [left; exact Hl|right; lia].
Qed.

(** ** What a tick does to each avatar: a schema

    [update] rebuilds the avatar list in phases.  A relation between an avatar
    before and after that is reflexive and transitive, and that every
    elementary change of a phase respects, holds between the avatars of the
    room before and after the whole tick, position by position. *)

Lemma reposition_twice (v w : Vector2) (p : Player) :
  set_position w (set_position v p) = set_position w p.
Proof. destruct p; reflexivity. Qed.

Lemma reposition_frame (v : Vector2) (p : Player) :
  isDead (set_position v p) = isDead p /\ radius (set_position v p) = radius p.
Proof. destruct p; split; reflexivity. Qed.

Lemma slide_reposition (obstacles : list Obstacle) (w : R * R) (p : Player) :
  exists v : Vector2, Server.slide obstacles w p = set_position v p.
Proof.
  destruct w as [vx vy]; unfold Server.slide.
  destruct (JS.eqb vx 0).
  - destruct (JS.eqb vy 0); [exists (position p); symmetry; apply eta_player|].
    destruct (isPositionValid _ _ _ _); eexists; [reflexivity|].
    symmetry; apply eta_player.
  - destruct (isPositionValid _ _ _ _).
    + destruct (JS.eqb vy 0); [eexists; reflexivity|].
      destruct (isPositionValid _ _ _ _); eexists;
        [apply reposition_twice|reflexivity].
    + destruct (JS.eqb vy 0); [exists (position p); symmetry; apply eta_player|].
      destruct (isPositionValid _ _ _ _); eexists; [reflexivity|].
      symmetry; apply eta_player.
Qed.

Lemma resolvePair_reposition (obstacles : list Obstacle) (p1 p2 : Player) :
  (exists v1 v2 : Vector2,
      isDead p1 = false /\ isDead p2 = false
      /\ Server.resolvePair obstacles p1 p2
         = (set_position v1 p1, set_position v2 p2))
  \/ Server.resolvePair obstacles p1 p2 = (p1, p2).
Proof.
  unfold Server.resolvePair.
  destruct (isDead p1) eqn:H1; [right; reflexivity|].
  destruct (isDead p2) eqn:H2; [right; reflexivity|].
  destruct (false || false || isGhost p1 || isGhost p2); [right; reflexivity|].
  cbv zeta.
  match goal with
  | |- context [if ?c then _ else (p1, p2)] => destruct c
  end; [left|right; reflexivity].
  assert (Hstep : forall (p : Player) (a b : R),
             exists v, (if isPositionValid a b (radius p) obstacles
                        then set_position (vec a b) p else p) = set_position v p).
  { intros p a b. destruct (isPositionValid a b (radius p) obstacles);
      eexists; [reflexivity|symmetry; apply eta_player]. }
  assert (Htwo : forall (p : Player) (fa : Player -> R) (fb : Player -> R)
                        (ga : Player -> R) (gb : Player -> R),
             exists v,
               (let q := if isPositionValid (fa p) (fb p) (radius p) obstacles
                         then set_position (vec (fa p) (fb p)) p else p in
                if isPositionValid (ga q) (gb q) (radius q) obstacles
                then set_position (vec (ga q) (gb q)) q else q)
               = set_position v p).
  { intros p fa fb ga gb. cbv zeta.
    destruct (isPositionValid (fa p) (fb p) (radius p) obstacles).
    - destruct (isPositionValid _ _ _ _); eexists;
        [apply reposition_twice|reflexivity].
    - destruct (isPositionValid _ _ _ _); eexists;
        [reflexivity|symmetry; apply eta_player]. }
  set (dx := x (position p2) - x (position p1)).
  set (dy := y (position p2) - y (position p1)).
  set (d := sqrt (dx * dx + dy * dy)).
  set (o := (radius p1 + radius p2 - d) / 2).
  destruct (Htwo p1 (fun p => x (position p1) - dx / d * o)
                    (fun p => y (position p))
                    (fun p => x (position p))
                    (fun p => y (position p1) - dy / d * o)) as [v1 E1].
  destruct (Htwo p2 (fun p => x (position p2) + dx / d * o)
                    (fun p => y (position p))
                    (fun p => x (position p))
                    (fun p => y (position p2) + dy / d * o)) as [v2 E2].
  cbv zeta beta in E1, E2.
  exists v1, v2. split; [reflexivity|]. split; [reflexivity|].
  rewrite <- E1, <- E2. reflexivity.
Qed.

Lemma tickPlayers_nil (now dt : R) (slimes : list SlimeArea)
    (obstacles : list Obstacle) (pots : list Potato) (n : nat)
    (w : option string) :
  Server.tickPlayers now dt slimes obstacles [] pots n w = ([], pots, n, w).
Proof. reflexivity. Qed.

Lemma tickPlayers_cons (now dt : R) (slimes : list SlimeArea)
    (obstacles : list Obstacle) (p : Player) (rest : list Player)
    (pots : list Potato) (n : nat) (w : option string) :
  Server.tickPlayers now dt slimes obstacles (p :: rest) pots n w
  = let n := if isDead p then n else S n in
    let w := if isDead p then w else Some (id p) in
    let (p', pots) := Server.tickPlayer now dt slimes obstacles p pots in
    let '(rest', pots, n, w) :=
      Server.tickPlayers now dt slimes obstacles rest pots n w in
    (p' :: rest', pots, n, w).
Proof. reflexivity. Qed.

Section TickSchema.

Variable Rel : Player -> Player -> Prop.
Variables now dt : R.

Hypothesis Rel_refl : forall p, Rel p p.
Hypothesis Rel_trans : forall p q r, Rel p q -> Rel q r -> Rel p r.

(** The status update of a living avatar. *)
Hypothesis Rel_status : forall slimes p,
  isDead p = false -> Rel p (Server.updateStatus now dt slimes p).

(** A living avatar is moved. *)
Hypothesis Rel_move : forall v p, isDead p = false -> Rel p (set_position v p).

(** One potato-avatar encounter. *)
Hypothesis Rel_hit : forall rnd walls potato p m k,
  Rel p (snd (fst (fst (Server.hit rnd now walls potato p m k)))).

(** A living avatar collects a pickup. *)
Hypothesis Rel_collect : forall type p pots,
  isDead p = false ->
  Rel p (fst (fst (Server.applyPowerup now type (set_score (score p + 50) p) pots))).

Lemma Forall2_Rel_refl (ps : list Player) : Forall2 Rel ps ps.
Proof. induction ps; constructor; auto. Qed.

Lemma Forall2_Rel_trans (ps qs rs : list Player) :
  Forall2 Rel ps qs -> Forall2 Rel qs rs -> Forall2 Rel ps rs.
Proof.
  intros H; revert rs; induction H; intros rs Hr; inversion Hr; subst;
    constructor; eauto.
Qed.

Lemma tickPlayer_Rel (slimes : list SlimeArea) (obstacles : list Obstacle)
    (p : Player) (pots : list Potato) :
  Rel p (fst (Server.tickPlayer now dt slimes obstacles p pots)).
Proof.
  unfold Server.tickPlayer; destruct (isDead p) eqn:Hd; cbn; [apply Rel_refl|].
  unfold Server.moveAndSlide.
  destruct (slide_reposition obstacles
              (Server.stepToward dt (Server.updateStatus now dt slimes p))
              (Server.updateStatus now dt slimes p)) as [v ->].
  eapply Rel_trans; [apply Rel_status; assumption|].
  apply Rel_move.
  destruct (updateStatus_frame now dt slimes p) as (_ & _ & _ & _ & _ & ->).
  assumption.
Qed.

Lemma tickPlayers_Rel (slimes : list SlimeArea) (obstacles : list Obstacle)
    (ps : list Player) (pots : list Potato) (n : nat) (w : option string) :
  Forall2 Rel ps
    (fst (fst (fst (Server.tickPlayers now dt slimes obstacles ps pots n w)))).
Proof.
  revert pots n w; induction ps as [|p rest IH]; intros pots n w;
    [constructor|].
  rewrite tickPlayers_cons; cbv zeta.
  pose proof (tickPlayer_Rel slimes obstacles p pots) as Hp.
  destruct (Server.tickPlayer now dt slimes obstacles p pots) as [p' pots'].
  match goal with
  | |- context [Server.tickPlayers now dt slimes obstacles rest ?a ?b ?c] =>
      specialize (IH a b c);
      destruct (Server.tickPlayers now dt slimes obstacles rest a b c)
        as [[[rest' ?] ?] ?]
  end.
  cbn in *. constructor; assumption.
Qed.

Lemma resolvePair_Rel (obstacles : list Obstacle) (p1 p2 : Player) :
  Rel p1 (fst (Server.resolvePair obstacles p1 p2))
  /\ Rel p2 (snd (Server.resolvePair obstacles p1 p2)).
Proof.
  destruct (resolvePair_reposition obstacles p1 p2)
    as [(v1 & v2 & H1 & H2 & ->)| ->]; cbn; split; auto.
Qed.

Lemma resolveAgainst_Rel (obstacles : list Obstacle) (p1 : Player)
    (later : list Player) :
  Rel p1 (fst (Server.resolveAgainst obstacles p1 later))
  /\ Forall2 Rel later (snd (Server.resolveAgainst obstacles p1 later)).
Proof.
  revert p1; induction later as [|p2 rest IH]; intros p1; cbn.
  - split; [apply Rel_refl|constructor].
  - destruct (resolvePair_Rel obstacles p1 p2) as [H1 H2].
    destruct (Server.resolvePair obstacles p1 p2) as [p1' p2'].
    destruct (IH p1') as [H1' Hrest].
    destruct (Server.resolveAgainst obstacles p1' rest) as [p1'' rest'].
    cbn in *. split; [eapply Rel_trans; eassumption|].
    constructor; assumption.
Qed.

Lemma resolveFrom_Rel (obstacles : list Obstacle) (fuel : nat)
    (ps : list Player) :
  Forall2 Rel ps (Server.resolveFrom obstacles fuel ps).
Proof.
  revert ps; induction fuel as [|fuel IH]; intros ps; cbn;
    [destruct ps; apply Forall2_Rel_refl|].
  destruct ps as [|p1 later]; [constructor|].
  destruct (resolveAgainst_Rel obstacles p1 later) as [H1 Hl].
  destruct (Server.resolveAgainst obstacles p1 later) as [p1' later'].
  cbn in *. constructor; [assumption|].
  eapply Forall2_Rel_trans; [eassumption|apply IH].
Qed.

Lemma hitPlayers_Rel (rnd : nat -> R) (walls : list Obstacle)
    (potato : Potato) (ps : list Player) (m : R) (k : nat) :
  Forall2 Rel ps
    (snd (fst (fst (Server.hitPlayers rnd now walls potato ps m k)))).
Proof.
  revert potato m k; induction ps as [|p rest IH]; intros potato m k; cbn;
    [constructor|].
  pose proof (Rel_hit rnd walls potato p m k) as Hp.
  destruct (Server.hit rnd now walls potato p m k) as [[[potato' p'] m'] k'].
  specialize (IH potato' m' k').
  destruct (Server.hitPlayers rnd now walls potato' rest m' k')
    as [[[potato'' rest'] m''] k''].
  cbn in *. constructor; assumption.
Qed.

Lemma hitPotatoes_Rel (rnd : nat -> R) (walls : list Obstacle)
    (pots : list Potato) (ps : list Player) (m : R) (k : nat) :
  Forall2 Rel ps
    (snd (fst (fst (Server.hitPotatoes rnd now walls pots ps m k)))).
Proof.
  revert ps m k; induction pots as [|potato rest IH]; intros ps m k; cbn;
    [apply Forall2_Rel_refl|].
  pose proof (hitPlayers_Rel rnd walls potato ps m k) as Hp.
  destruct (Server.hitPlayers rnd now walls potato ps m k)
    as [[[potato' ps'] m'] k'].
  specialize (IH ps' m' k').
  destruct (Server.hitPotatoes rnd now walls rest ps' m' k')
    as [[[rest' ps''] m''] k''].
  cbn in *. eapply Forall2_Rel_trans; eassumption.
Qed.

Lemma collect_Rel (pu : Powerup) (ps : list Player) (pots : list Potato) :
  Forall2 Rel ps (fst (fst (fst (Server.collect now pu ps pots)))).
Proof.
  revert pots; induction ps as [|p rest IH]; intros pots; cbn; [constructor|].
  destruct (isDead p) eqn:Hd; cbn.
  - specialize (IH pots).
    destruct (Server.collect now pu rest pots) as [[[rest' ?] ?] ?].
    cbn in *. constructor; [apply Rel_refl|assumption].
  - match goal with |- context [if ?c then _ else _] => destruct c end.
    + pose proof (Rel_collect (pu_type pu) p pots Hd) as Hp.
      destruct (Server.applyPowerup now (pu_type pu)
                  (set_score (score p + 50) p) pots) as [[p' pots'] t1].
      specialize (IH pots').
      destruct (Server.collect now pu rest pots') as [[[rest' ?] ?] ?].
      cbn in *. constructor; assumption.
    + specialize (IH pots).
      destruct (Server.collect now pu rest pots) as [[[rest' ?] ?] ?].
      cbn in *. constructor; [apply Rel_refl|assumption].
Qed.

Lemma collectAll_Rel (pus : list Powerup) (ps : list Player)
    (pots : list Potato) :
  Forall2 Rel ps (snd (fst (fst (Server.collectAll now pus ps pots)))).
Proof.
  revert ps pots; induction pus as [|pu rest IH]; intros ps pots; cbn;
    [apply Forall2_Rel_refl|].
  pose proof (collect_Rel pu ps pots) as Hp.
  destruct (Server.collect now pu ps pots) as [[[ps' pots'] t1] c].
  specialize (IH ps' pots').
  destruct (Server.collectAll now rest ps' pots') as [[[rest' ps''] pots''] t2].
  cbn in *. eapply Forall2_Rel_trans; eassumption.
Qed.

Lemma checkCollisions_Rel (rnd : nat -> R) (k : nat) (r : GameRoom) :
  Forall2 Rel (players r)
    (players (fst (fst (Server.checkCollisions rnd now k r)))).
Proof.
  unfold Server.checkCollisions.
  destruct (gameEnded r); cbn; [apply Forall2_Rel_refl|].
  pose proof (hitPotatoes_Rel rnd (obstacles r) (potatoes r) (players r)
                (potatoSpeedMultiplier r) k) as H1.
  destruct (Server.hitPotatoes rnd now (obstacles r) (potatoes r) (players r)
              (potatoSpeedMultiplier r) k) as [[[pots ps] m] k'].
  pose proof (collectAll_Rel (powerups r) ps pots) as H2.
  destruct (Server.collectAll now (powerups r) ps pots) as [[[pus ps'] pots'] ts].
  cbn in *. eapply Forall2_Rel_trans; eassumption.
Qed.

(** The schema: the avatars before and after one [update] at clock [now] of a
    room last updated [dt] seconds earlier. *)
Lemma update_Rel (rnd : nat -> R) (k : nat) (r : GameRoom) :
  (now - lastUpdate r) / 1000 = dt ->
  Forall2 Rel (players r)
    (players (fst (fst (fst (Server.update rnd now k r))))).
Proof.
  intros Hdt. unfold Server.update.
  destruct (state r); cbn; try apply Forall2_Rel_refl.
  rewrite Hdt.
  set (slimes := filter _ (slimeAreas r)).
  pose proof (tickPlayers_Rel slimes (obstacles r) (players r)
                (potatoes r) 0%nat None) as H1.
  destruct (Server.tickPlayers now dt slimes (obstacles r) (players r)
              (potatoes r) 0 None) as [[[ps pots] alive] winner].
  cbn in *.
  pose proof (resolveFrom_Rel (obstacles r) (List.length ps) ps) as H2.
  fold (Server.resolveCollisions (obstacles r) ps) in H2.
  pose proof (Forall2_Rel_trans _ _ _ H1 H2) as H12.
  destruct (alive =? 1)%nat; cbn;
    (destruct ((now - startTime r >? 3000) && negb (gameEnded r)
               && (alive <=? 1)%nat); cbn; [exact H12|]);
    (destruct (gameEnded r); cbn; [exact H12|]);
    match goal with
    | |- context [Server.updatePowerups rnd now k ?q] =>
        destruct (updatePowerups_frame rnd now k q) as (Ho & Hp & _);
        destruct (Server.updatePowerups rnd now k q) as [q' k'];
        cbn in Ho, Hp;
        pose proof (checkCollisions_Rel rnd k' q') as Hp';
        destruct (Server.checkCollisions rnd now k' q') as [[q'' k''] ts];
        cbn in *
    end;
    rewrite Hp in Hp'; eapply Forall2_Rel_trans; eassumption.
Qed.

End TickSchema.

(** ** Potato-avatar encounters *)

(** The four outcomes of [hit]. *)
Lemma hit_cases (rnd : nat -> R) (now : R) (walls : list Obstacle)
    (potato : Potato) (p : Player) (m : R) (k : nat) :
  Server.hit rnd now walls potato p m k = (potato, p, m, k)
  \/ (isDead p = false /\ isShielded p = true /\ isFrozen potato = false
      /\ Server.hit rnd now walls potato p m k
         = (set_freezeEndTime (now + 1000) (set_isFrozen true potato), p, m, k))
  \/ (isDead p = false /\ isShielded p = false /\ isGhost p = false
      /\ isFrozen potato = false /\ (lives p - 1 <= 0)%Z
      /\ Server.hit rnd now walls potato p m k
         = (potato, set_isDead true (set_lives (lives p - 1) p), m + 0.1, k))
  \/ (isDead p = false /\ isShielded p = false /\ isGhost p = false
      /\ isFrozen potato = false /\ (0 < lives p - 1)%Z
      /\ Server.hit rnd now walls potato p m k
         = (potato,
            set_shieldCooldown 20000
              (set_position (fst (Server.findSafeSpawn rnd walls k))
                            (set_lives (lives p - 1) p)),
            m, snd (Server.findSafeSpawn rnd walls k))).
Proof.
  unfold Server.hit.
  destruct (isDead p) eqn:Hd; [left; reflexivity|]. cbv zeta.
  match goal with |- context [if ?c then _ else _] => destruct c end;
    [|left; reflexivity].
  destruct (isShielded p) eqn:Hs.
  - destruct (isFrozen potato) eqn:Hf; cbn; [left; reflexivity|].
    right; left. auto.
  - destruct (isFrozen potato) eqn:Hf; cbn; [left; reflexivity|].
    destruct (isGhost p) eqn:Hg; cbn; [left; reflexivity|].
    assert (Hl : lives (set_lives (lives p - 1) p) = (lives p - 1)%Z)
      by (destruct p; reflexivity).
    try rewrite Hl.
    destruct (lives p - 1 <=? 0)%Z eqn:Hz.
    + right; right; left. apply Z.leb_le in Hz. auto 10.
    + right; right; right. apply Z.leb_gt in Hz.
      destruct (Server.findSafeSpawn rnd walls k) as [pos k']; cbn. auto 10.
Qed.

Lemma applyPowerup_frame (now : R) (type : PowerupType) (p : Player)
    (pots : list Potato) :
  let p' := fst (fst (Server.applyPowerup now type p pots)) in
  id p' = id p /\ position p' = position p /\ input p' = input p
  /\ radius p' = radius p /\ lives p' = lives p /\ isDead p' = isDead p
  /\ score p' = score p.
Proof. destruct type, p; cbn; auto 10. Qed.

Lemma Forall2_preserve {A : Type} (P : A -> Prop) (l l' : list A) :
  Forall2 (fun a a' => P a -> P a') l l' -> Forall P l -> Forall P l'.
Proof.
  induction 1 as [|a a' l l' Ha _ IH]; intros Hl; [constructor|].
  inversion Hl; subst. constructor; auto.
Qed.

(** *** An eliminated avatar is out of the simulation *)

Lemma update_dead_schema (rnd : nat -> R) (now : R) (k : nat) (r : GameRoom) :
  Forall2 (fun p p' => isDead p = true -> p' = p) (players r)
    (players (fst (fst (fst (Server.update rnd now k r))))).
Proof.
  apply (update_Rel (fun p p' => isDead p = true -> p' = p) now
                    ((now - lastUpdate r) / 1000)).
  - reflexivity.
  - intros p q s Hq Hs Hd. rewrite (Hs (eq_trans (f_equal isDead (Hq Hd)) Hd)).
    auto.
  - intros; congruence.
  - intros; congruence.
  - intros rnd' walls potato p m k' Hd. unfold Server.hit. rewrite Hd.
    reflexivity.
  - intros; congruence.
  - reflexivity.
Qed.

(** *** Lives *)

Lemma update_lives_schema (rnd : nat -> R) (now : R) (k : nat) (r : GameRoom) :
  Forall2 (fun p p' => (livesOk p -> livesOk p') /\ (lives p' <= lives p)%Z)
    (players r) (players (fst (fst (fst (Server.update rnd now k r))))).
Proof.
  apply (update_Rel
           (fun p p' => (livesOk p -> livesOk p') /\ (lives p' <= lives p)%Z)
           now ((now - lastUpdate r) / 1000)).
  - intros; split; [auto|lia].
  - intros p q s [H1 H1'] [H2 H2']; split; [auto|lia].
  - intros slimes p _.
    destruct (updateStatus_frame now ((now - lastUpdate r) / 1000) slimes p)
      as (_ & _ & _ & _ & Hl & Hd).
    unfold livesOk; rewrite Hl, Hd; split; [auto|lia].
  - intros v p _. destruct p; unfold livesOk; fields; split; [auto|lia].
  - intros rnd' walls potato p m k'.
    destruct (hit_cases rnd' now walls potato p m k')
      as [-> | [(_ & _ & _ & ->) | [(Hd & _ & _ & _ & Hl & ->)
                                   | (Hd & _ & _ & _ & Hl & ->)]]];
      cbn [fst snd]; [split; [auto|lia] | split; [auto|lia] | |];
      destruct p; unfold livesOk in *; fields; subst; (split; [|lia]);
      intros H; lia.
  - intros type p pots _.
    destruct (applyPowerup_frame now type (set_score (score p + 50) p) pots)
      as (_ & _ & _ & _ & Hl & Hd & _).
    unfold livesOk; rewrite Hl, Hd. destruct p; fields; split; [auto|lia].
  - reflexivity.
Qed.

(** ** Status update: cooldowns, flags and puddles *)

Lemma slimeStep_in (s : R) (p : Player) (slime : SlimeArea) :
  Server.inForeignSlime p slime = true ->
  Server.slimeStep (s, p) slime = (s * 0.75, debuff p).
Proof. unfold Server.slimeStep; intros ->; reflexivity. Qed.

Lemma slimeStep_out (s : R) (p : Player) (slime : SlimeArea) :
  Server.inForeignSlime p slime = false ->
  Server.slimeStep (s, p) slime = (s, p).
Proof. unfold Server.slimeStep; intros ->; reflexivity. Qed.

Lemma inForeignSlime_debuff (p : Player) (slime : SlimeArea) :
  Server.inForeignSlime (debuff p) slime = Server.inForeignSlime p slime.
Proof. destruct p; reflexivity. Qed.

Lemma puddles_debuff (p : Player) (slimes : list SlimeArea) :
  puddles (debuff p) slimes = puddles p slimes.
Proof.
  unfold puddles. erewrite filter_ext; [reflexivity|].
  intros; apply inForeignSlime_debuff.
Qed.

Lemma Rmax_floor (c : R) : Rmax (Rmax c 1000) 1000 = Rmax c 1000.
Proof.
  unfold Rmax. destruct (Rle_dec c 1000); destruct (Rle_dec _ 1000); lra.
Qed.

Lemma debuff_twice (p : Player) : debuff (debuff p) = debuff p.
Proof.
  destruct p; unfold debuff; fields. rewrite !Rmax_floor. reflexivity.
Qed.

(** The slime loop as a whole: the speed is multiplied by 0.75 once per puddle
    the avatar stands in, and the avatar is debuffed if there is one. *)
Lemma slimes_fold (slimes : list SlimeArea) (s : R) (p : Player) :
  fold_left Server.slimeStep slimes (s, p)
  = (s * 0.75 ^ puddles p slimes,
     if (puddles p slimes =? 0)%nat then p else debuff p).
Proof.
  revert s p; induction slimes as [|sl rest IH]; intros s p.
  - cbn. f_equal. lra.
  - cbn [fold_left]. unfold puddles; cbn [filter].
    destruct (Server.inForeignSlime p sl) eqn:Hin.
    + rewrite slimeStep_in, IH by assumption.
      rewrite puddles_debuff. fold (puddles p rest). cbn [List.length Nat.eqb].
      f_equal; [unfold puddles; cbn; lra|].
      destruct (puddles p rest =? 0)%nat; [reflexivity|apply debuff_twice].
    + rewrite slimeStep_out, IH by assumption. reflexivity.
Qed.

(** The avatar after the cooldown and flag assignments that precede the slime
    loop. *)
Lemma updateStatus_formula (now dt : R) (slimes : list SlimeArea) (p : Player) :
  let q := set_isSlowed false (set_isSilenced false
            (set_isHidden (Rmax 0 (smokeCooldown p - dt * 1000) >? 7000)
             (set_isShielded (Rmax 0 (shieldCooldown p - dt * 1000) >? 17000)
              (set_slimeCooldown (Rmax 0 (slimeCooldown p - dt * 1000))
               (set_smokeCooldown (Rmax 0 (smokeCooldown p - dt * 1000))
                (set_shieldCooldown (Rmax 0 (shieldCooldown p - dt * 1000))
                 (set_dashCooldown (Rmax 0 (dashCooldown p - dt * 1000)) p))))))) in
  let base := if now >? speedBoostEndTime p then BASE_SPEED else speed p in
  let n := puddles p slimes in
  Server.updateStatus now dt slimes p
  = set_score (score p + dt * 10)
      (set_speed (base * 0.75 ^ n) (if (n =? 0)%nat then q else debuff q)).
Proof.
  cbv zeta. unfold Server.updateStatus. cbv zeta.
  rewrite slimes_fold.
  assert (Hp : forall q : Player,
             position q = position p -> id q = id p ->
             puddles q slimes = puddles p slimes).
  { intros q Hpos Hid. unfold puddles. erewrite filter_ext; [reflexivity|].
    intros sl. unfold Server.inForeignSlime. rewrite Hpos, Hid. reflexivity. }
  rewrite Hp by (destruct p; reflexivity).
  destruct (puddles p slimes =? 0)%nat; destruct p; reflexivity.
Qed.

Lemma Rmax_bounds (c lo hi : R) :
  0 <= lo <= hi -> 0 <= c <= hi -> 0 <= Rmax c lo <= hi.
Proof. intros; unfold Rmax; destruct (Rle_dec c lo); lra. Qed.

Lemma cooldown_decay (c dt hi : R) :
  0 <= dt -> 0 <= c <= hi -> 0 <= Rmax 0 (c - dt * 1000) <= hi.
Proof. intros; unfold Rmax; destruct (Rle_dec 0 (c - dt * 1000)); nra. Qed.

Lemma debuff_cooldowns (p : Player) : cooldownsOk p -> cooldownsOk (debuff p).
Proof.
  destruct p; unfold cooldownsOk, debuff; fields. intros (? & ? & ? & ?).
  split; [lra|]. split; [apply Rmax_bounds; lra|].
  split; [apply Rmax_bounds; lra|lra].
Qed.

Lemma updateStatus_cooldowns (now dt : R) (slimes : list SlimeArea) (p : Player) :
  0 <= dt -> cooldownsOk p -> cooldownsOk (Server.updateStatus now dt slimes p).
Proof.
  intros Hdt (Hd & Hs & Hm & Hl).
  rewrite updateStatus_formula.
  assert (Hq : forall q s v, cooldownsOk q -> cooldownsOk (set_score s (set_speed v q)))
    by (intros q s v; destruct q; exact (fun H => H)).
  apply Hq.
  match goal with |- cooldownsOk (if _ then ?q else _) =>
    assert (Hok : cooldownsOk q) end.
  { destruct p; unfold cooldownsOk in *; fields.
    split; [|split; [|split]]; apply cooldown_decay; assumption. }
  destruct (_ =? 0)%nat; [exact Hok|apply debuff_cooldowns; exact Hok].
Qed.

Lemma update_cooldowns_schema (rnd : nat -> R) (now : R) (k : nat) (r : GameRoom) :
  lastUpdate r <= now ->
  Forall2 (fun p p' => cooldownsOk p -> cooldownsOk p') (players r)
    (players (fst (fst (fst (Server.update rnd now k r))))).
Proof.
  intros Hnow.
  apply (update_Rel (fun p p' => cooldownsOk p -> cooldownsOk p') now
                    ((now - lastUpdate r) / 1000)).
  - intros p H; exact H.
  - intros p q s Hq Hs H; exact (Hs (Hq H)).
  - intros slimes p _. apply updateStatus_cooldowns. lra.
  - intros v p _. destruct p; exact (fun H => H).
  - intros rnd' walls potato p m k'.
    destruct (hit_cases rnd' now walls potato p m k')
      as [-> | [(_ & _ & _ & ->) | [(_ & _ & _ & _ & _ & ->)
                                   | (_ & _ & _ & _ & _ & ->)]]];
      cbn [fst snd]; auto; destruct p; unfold cooldownsOk; fields;
      intros (? & ? & ? & ?); (split; [|split; [|split]]); lra.
  - intros type p pots _.
    destruct type, p; unfold cooldownsOk, Server.applyPowerup; cbn [fst snd];
      fields; intros (? & ? & ? & ?); (split; [|split; [|split]]); lra.
  - reflexivity.
Qed.

Lemma update_score_schema (rnd : nat -> R) (now : R) (k : nat) (r : GameRoom) :
  lastUpdate r <= now ->
  Forall2 (fun p p' => score p <= score p') (players r)
    (players (fst (fst (fst (Server.update rnd now k r))))).
Proof.
  intros Hnow.
  apply (update_Rel (fun p p' => score p <= score p') now
                    ((now - lastUpdate r) / 1000)).
  - intros; lra.
  - intros; lra.
  - intros slimes p _. rewrite updateStatus_formula.
    destruct (_ =? 0)%nat; destruct p; unfold debuff; fields; lra.
  - intros v p _. destruct p; fields; lra.
  - intros rnd' walls potato p m k'.
    destruct (hit_cases rnd' now walls potato p m k')
      as [-> | [(_ & _ & _ & ->) | [(_ & _ & _ & _ & _ & ->)
                                   | (_ & _ & _ & _ & _ & ->)]]];
      cbn [fst snd]; try lra; destruct p; fields; lra.
  - intros type p pots _.
    destruct type, p; unfold Server.applyPowerup; cbn [fst snd]; fields; lra.
  - reflexivity.
Qed.

(** ** The speed multiplier counts the eliminations *)

Lemma hitPlayers_multiplier (rnd : nat -> R) (now : R) (walls : list Obstacle)
    (potato : Potato) (ps : list Player) (m : R) (k : nat) :
  let '(_, ps', m', _) := Server.hitPlayers rnd now walls potato ps m k in
  m' = m + 0.1 * (deadCount ps' - deadCount ps).
Proof.
  revert potato m k; induction ps as [|p rest IH]; intros potato m k; cbn;
    [lra|].
  assert (Hh : let '(_, p', m', _) := Server.hit rnd now walls potato p m k in
               m' = m + 0.1 * ((if isDead p' then 1 else 0)
                               - (if isDead p then 1 else 0))).
  { destruct (hit_cases rnd now walls potato p m k)
      as [-> | [(_ & _ & _ & ->) | [(Hd & _ & _ & _ & _ & ->)
                                   | (Hd & _ & _ & _ & _ & ->)]]];
      try lra; destruct p; fields; subst; lra. }
  destruct (Server.hit rnd now walls potato p m k) as [[[potato' p'] m'] k'].
  specialize (IH potato' m' k').
  destruct (Server.hitPlayers rnd now walls potato' rest m' k')
    as [[[potato'' rest'] m''] k''].
  cbn. lra.
Qed.

Lemma hitPotatoes_multiplier (rnd : nat -> R) (now : R) (walls : list Obstacle)
    (pots : list Potato) (ps : list Player) (m : R) (k : nat) :
  let '(_, ps', m', _) := Server.hitPotatoes rnd now walls pots ps m k in
  m' = m + 0.1 * (deadCount ps' - deadCount ps).
Proof.
  revert ps m k; induction pots as [|potato rest IH]; intros ps m k; cbn;
    [lra|].
  pose proof (hitPlayers_multiplier rnd now walls potato ps m k) as Hp.
  destruct (Server.hitPlayers rnd now walls potato ps m k)
    as [[[potato' ps'] m'] k'].
  specialize (IH ps' m' k').
  destruct (Server.hitPotatoes rnd now walls rest ps' m' k')
    as [[[rest' ps''] m''] k''].
  lra.
Qed.

Lemma deadCount_same (ps qs : list Player) :
  Forall2 (fun p q => isDead q = isDead p) ps qs -> deadCount qs = deadCount ps.
Proof. induction 1 as [|p q ps qs H _ IH]; cbn; [reflexivity|]. rewrite H, IH; reflexivity. Qed.

Lemma alive_schema_status (now dt : R) (slimes : list SlimeArea) (p : Player) :
  isDead p = false -> isDead (Server.updateStatus now dt slimes p) = isDead p.
Proof. intros _. apply (updateStatus_frame now dt slimes p). Qed.

Lemma phases12_dead (now dt : R) (slimes : list SlimeArea)
    (obstacles : list Obstacle) (ps : list Player) (pots : list Potato)
    (n : nat) (w : option string) :
  deadCount (Server.resolveCollisions obstacles
               (fst (fst (fst (Server.tickPlayers now dt slimes obstacles ps
                                                  pots n w)))))
  = deadCount ps.
Proof.
  set (Rel := fun p q : Player => isDead q = isDead p).
  assert (Hr : forall p, Rel p p) by reflexivity.
  assert (Ht : forall p q r, Rel p q -> Rel q r -> Rel p r)
    by (unfold Rel; intros; congruence).
  assert (Hm : forall v p, isDead p = false -> Rel p (set_position v p))
    by (intros v p _; destruct p; reflexivity).
  pose proof (tickPlayers_Rel Rel now dt Hr Ht
                (fun s p H => alive_schema_status now dt s p H) Hm
                slimes obstacles ps pots n w) as H1.
  pose proof (resolveFrom_Rel Rel Hr Ht Hm obstacles
                (List.length (fst (fst (fst (Server.tickPlayers now dt slimes
                                               obstacles ps pots n w)))))
                (fst (fst (fst (Server.tickPlayers now dt slimes obstacles ps
                                                   pots n w))))) as H2.
  unfold Server.resolveCollisions.
  rewrite (deadCount_same _ _ H2). apply deadCount_same. exact H1.
Qed.

Lemma collectAll_dead (now : R) (pus : list Powerup) (ps : list Player)
    (pots : list Potato) :
  deadCount (snd (fst (fst (Server.collectAll now pus ps pots)))) = deadCount ps.
Proof.
  apply deadCount_same.
  apply (collectAll_Rel (fun p q : Player => isDead q = isDead p) now).
  - reflexivity.
  - intros; congruence.
  - intros type p pots' _.
    destruct (applyPowerup_frame now type (set_score (score p + 50) p) pots')
      as (_ & _ & _ & _ & _ & -> & _).
    destruct p; reflexivity.
Qed.

Lemma checkCollisions_multiplier (rnd : nat -> R) (now : R) (k : nat)
    (r : GameRoom) :
  let r' := fst (fst (Server.checkCollisions rnd now k r)) in
  potatoSpeedMultiplier r'
  = potatoSpeedMultiplier r + 0.1 * (deadCount (players r') - deadCount (players r)).
Proof.
  unfold Server.checkCollisions.
  destruct (gameEnded r); cbn; [lra|].
  pose proof (hitPotatoes_multiplier rnd now (obstacles r) (potatoes r)
                (players r) (potatoSpeedMultiplier r) k) as H1.
  destruct (Server.hitPotatoes rnd now (obstacles r) (potatoes r) (players r)
              (potatoSpeedMultiplier r) k) as [[[pots ps] m] k'].
  pose proof (collectAll_dead now (powerups r) ps pots) as H2.
  destruct (Server.collectAll now (powerups r) ps pots) as [[[pus ps'] pots'] ts].
  cbn in *. rewrite H2. exact H1.
Qed.

(** Take [update] apart: the branch it takes and the room it returns.  [q] is
    the room after movement, separation and survivor tracking. *)
Lemma update_playing (rnd : nat -> R) (now : R) (k : nat) (r : GameRoom) :
  state r = PLAYING ->
  let dt := (now - lastUpdate r) / 1000 in
  let slimes := filter (fun s => now <? spawnTime s + duration s) (slimeAreas r) in
  let t := Server.tickPlayers now dt slimes (obstacles r) (players r)
                              (potatoes r) 0 None in
  let ps := Server.resolveCollisions (obstacles r) (fst (fst (fst t))) in
  let alive := snd (fst t) in
  let winner := snd t in
  let q0 := set_players ps (set_potatoes (snd (fst (fst t)))
              (set_players (fst (fst (fst t)))
                 (set_slimeAreas slimes (set_lastUpdate now r)))) in
  let q := if (alive =? 1)%nat then set_lastSurvivorId winner q0 else q0 in
  Server.update rnd now k r
  = if (now - startTime r >? 3000) && negb (gameEnded r) && (alive <=? 1)%nat
    then (set_gameEnded true (set_state GAME_OVER q), k, [],
          Server.GameOver (Server.finalWinner winner (lastSurvivorId q) ps))
    else if negb (gameEnded r) then
      let q2 := set_potatoes
                  (map (Server.chase now dt (potatoSpeedMultiplier r) ps)
                       (snd (fst (fst t)))) q in
      let u := Server.updatePowerups rnd now k q2 in
      let c := Server.checkCollisions rnd now (snd u) (fst u) in
      (fst (fst c), snd (fst c), snd c, Server.Running)
    else (set_potatoes (map (set_targetId None) (snd (fst (fst t)))) q,
          k, [], Server.Running).
Proof.
  intros Hs. cbv zeta. unfold Server.update. rewrite Hs.
  destruct r as [rid host ips mp prv rps rpots rpus robs rsl rst rlu rm rstart
                 rge rls].
  rfields.
  destruct (Server.tickPlayers now ((now - rlu) / 1000)
              (filter (fun s => now <? spawnTime s + duration s) rsl)
              robs rps rpots 0 None)
    as [[[ps pots] alive] winner].
  cbn [fst snd].
  destruct (alive =? 1)%nat;
    (destruct ((now - rstart >? 3000) && negb rge && (alive <=? 1)%nat);
     [reflexivity|]);
    (destruct rge; cbn [negb]; [reflexivity|]);
    match goal with
    | |- context [Server.updatePowerups rnd now k ?q] =>
        destruct (Server.updatePowerups rnd now k q) as [q' k']; cbn [fst snd];
        destruct (Server.checkCollisions rnd now k' q') as [[q'' k''] ts]
    end; reflexivity.
Qed.

Lemma update_idle (rnd : nat -> R) (now : R) (k : nat) (r : GameRoom) :
  state r <> PLAYING -> Server.update rnd now k r = (r, k, [], Server.NotPlaying).
Proof. unfold Server.update; destruct (state r); congruence. Qed.

(** ** Potatoes, pickups and puddles of a room through a tick *)

Lemma spawnPotatoes_length (p : Player) (pots : list Potato) :
  (List.length pots <= List.length (Server.spawnPotatoes p pots)
   <= Nat.max (List.length pots) 10)%nat.
Proof.
  unfold Server.spawnPotatoes. cbv zeta.
  match goal with |- context [if ?c then _ else _] => destruct c eqn:H end;
    [|lia].
  apply andb_prop in H. destruct H as [_ H]. apply Nat.ltb_lt in H.
  rewrite length_app. cbn [List.length]. lia.
Qed.

Lemma tickPlayer_potatoes (now dt : R) (slimes : list SlimeArea)
    (obstacles : list Obstacle) (p : Player) (pots : list Potato) :
  (List.length pots
   <= List.length (snd (Server.tickPlayer now dt slimes obstacles p pots))
   <= Nat.max (List.length pots) 10)%nat.
Proof.
  unfold Server.tickPlayer; destruct (isDead p); cbn; [lia|].
  apply spawnPotatoes_length.
Qed.

Lemma tickPlayers_potatoes (now dt : R) (slimes : list SlimeArea)
    (obstacles : list Obstacle) (ps : list Player) (pots : list Potato)
    (n : nat) (w : option string) :
  (List.length pots
   <= List.length (snd (fst (fst (Server.tickPlayers now dt slimes obstacles ps
                                                     pots n w))))
   <= Nat.max (List.length pots) 10)%nat.
Proof.
  revert pots n w; induction ps as [|p rest IH]; intros pots n w;
    [rewrite tickPlayers_nil; cbn [fst snd]; lia|].
  rewrite tickPlayers_cons; cbv zeta.
  pose proof (tickPlayer_potatoes now dt slimes obstacles p pots) as Hp.
  destruct (Server.tickPlayer now dt slimes obstacles p pots) as [p' pots'].
  match goal with
  | |- context [Server.tickPlayers now dt slimes obstacles rest ?a ?b ?c] =>
      specialize (IH a b c);
      destruct (Server.tickPlayers now dt slimes obstacles rest a b c)
        as [[[rest' ?] ?] ?]
  end.
  cbn in *. lia.
Qed.

Lemma hitPlayers_potato (rnd : nat -> R) (now : R) (walls : list Obstacle)
    (potato : Potato) (ps : list Player) (m : R) (k : nat) :
  pot_position (fst (fst (fst (Server.hitPlayers rnd now walls potato ps m k))))
  = pot_position potato.
Proof.
  revert potato m k; induction ps as [|p rest IH]; intros potato m k; cbn;
    [reflexivity|].
  assert (Hh : pot_position (fst (fst (fst (Server.hit rnd now walls potato p m k))))
               = pot_position potato).
  { destruct (hit_cases rnd now walls potato p m k)
      as [-> | [(_ & _ & _ & ->) | [(_ & _ & _ & _ & _ & ->)
                                   | (_ & _ & _ & _ & _ & ->)]]];
      try reflexivity; destruct potato; reflexivity. }
  destruct (Server.hit rnd now walls potato p m k) as [[[potato' p'] m'] k'].
  specialize (IH potato' m' k').
  destruct (Server.hitPlayers rnd now walls potato' rest m' k')
    as [[[potato'' rest'] m''] k''].
  cbn in *. congruence.
Qed.

Lemma hitPotatoes_positions (rnd : nat -> R) (now : R) (walls : list Obstacle)
    (pots : list Potato) (ps : list Player) (m : R) (k : nat) :
  map pot_position (fst (fst (fst (Server.hitPotatoes rnd now walls pots ps m k))))
  = map pot_position pots.
Proof.
  revert ps m k; induction pots as [|potato rest IH]; intros ps m k; cbn;
    [reflexivity|].
  pose proof (hitPlayers_potato rnd now walls potato ps m k) as Hp.
  destruct (Server.hitPlayers rnd now walls potato ps m k)
    as [[[potato' ps'] m'] k'].
  specialize (IH ps' m' k').
  destruct (Server.hitPotatoes rnd now walls rest ps' m' k')
    as [[[rest' ps''] m''] k''].
  cbn in *. congruence.
Qed.

Lemma applyPowerup_positions (now : R) (type : PowerupType) (p : Player)
    (pots : list Potato) :
  map pot_position (snd (fst (Server.applyPowerup now type p pots)))
  = map pot_position pots.
Proof.
  destruct type; cbn; try reflexivity.
  rewrite map_map. apply map_ext. intros q; destruct q; reflexivity.
Qed.

Lemma collect_positions (now : R) (pu : Powerup) (ps : list Player)
    (pots : list Potato) :
  map pot_position (snd (fst (fst (Server.collect now pu ps pots))))
  = map pot_position pots.
Proof.
  revert pots; induction ps as [|p rest IH]; intros pots; cbn; [reflexivity|].
  match goal with |- context [if ?c then _ else _] => destruct c end.
  - pose proof (applyPowerup_positions now (pu_type pu)
                  (set_score (score p + 50) p) pots) as Hp.
    destruct (Server.applyPowerup now (pu_type pu) (set_score (score p + 50) p)
                                  pots) as [[p' pots'] t1].
    specialize (IH pots').
    destruct (Server.collect now pu rest pots') as [[[rest' ?] ?] ?].
    cbn in *. congruence.
  - specialize (IH pots).
    destruct (Server.collect now pu rest pots) as [[[rest' ?] ?] ?].
    cbn in *. exact IH.
Qed.

Lemma collectAll_positions (now : R) (pus : list Powerup) (ps : list Player)
    (pots : list Potato) :
  map pot_position (snd (fst (Server.collectAll now pus ps pots)))
  = map pot_position pots.
Proof.
  revert ps pots; induction pus as [|pu rest IH]; intros ps pots; cbn;
    [reflexivity|].
  pose proof (collect_positions now pu ps pots) as Hp.
  destruct (Server.collect now pu ps pots) as [[[ps' pots'] t1] c].
  specialize (IH ps' pots').
  destruct (Server.collectAll now rest ps' pots') as [[[rest' ps''] pots''] t2].
  cbn in *. congruence.
Qed.

Lemma collectAll_sublist (now : R) (pus : list Powerup) (ps : list Player)
    (pots : list Potato) :
  incl (fst (fst (fst (Server.collectAll now pus ps pots)))) pus
  /\ (List.length (fst (fst (fst (Server.collectAll now pus ps pots))))
      <= List.length pus)%nat.
Proof.
  revert ps pots; induction pus as [|pu rest IH]; intros ps pots; cbn;
    [split; [apply incl_refl|lia]|].
  destruct (Server.collect now pu ps pots) as [[[ps' pots'] t1] c].
  specialize (IH ps' pots').
  destruct (Server.collectAll now rest ps' pots') as [[[rest' ps''] pots''] t2].
  cbn in *. destruct IH as [Hi Hl].
  destruct c; cbn; split; try lia.
  - apply incl_tl; assumption.
  - apply incl_cons; [left; reflexivity|apply incl_tl; assumption].
Qed.

(** What [checkCollisions] leaves alone, and what it can only shrink. *)
Lemma checkCollisions_frame (rnd : nat -> R) (now : R) (k : nat) (r : GameRoom) :
  let r' := fst (fst (Server.checkCollisions rnd now k r)) in
  map pot_position (potatoes r') = map pot_position (potatoes r)
  /\ slimeAreas r' = slimeAreas r
  /\ incl (powerups r') (powerups r)
  /\ (List.length (powerups r') <= List.length (powerups r))%nat
  /\ state r' = state r /\ gameEnded r' = gameEnded r
  /\ lastSurvivorId r' = lastSurvivorId r.
Proof.
  unfold Server.checkCollisions.
  destruct (gameEnded r) eqn:Hg; cbn;
    [rewrite Hg; repeat split; auto using incl_refl|].
  pose proof (hitPotatoes_positions rnd now (obstacles r) (potatoes r)
                (players r) (potatoSpeedMultiplier r) k) as H1.
  destruct (Server.hitPotatoes rnd now (obstacles r) (potatoes r) (players r)
              (potatoSpeedMultiplier r) k) as [[[pots ps] m] k'].
  pose proof (collectAll_positions now (powerups r) ps pots) as H2.
  pose proof (collectAll_sublist now (powerups r) ps pots) as [H3 H4].
  destruct (Server.collectAll now (powerups r) ps pots) as [[[pus ps'] pots'] ts].
  cbn in *. repeat split; auto; congruence.
Qed.

(** What [updatePowerups] does: nothing, or one more pickup at a clear point. *)
Lemma updatePowerups_spec (rnd : nat -> R) (now : R) (k : nat) (r : GameRoom) :
  let r' := fst (Server.updatePowerups rnd now k r) in
  r' = r
  \/ (exists pu : Powerup,
         r' = set_powerups (powerups r ++ [pu]) r
         /\ (List.length (powerups r) < 5)%nat
         /\ rnd k < 0.005
         /\ pu_type pu = Server.powerupTypeOf (rnd (S k))
         /\ clear (obstacles r) (pu_position pu) = true
         /\ pu_spawnTime pu = now /\ pu_radius pu = POWERUP_RADIUS).
Proof.
  unfold Server.updatePowerups.
  destruct ((rnd k <? 0.005) && (List.length (powerups r) <? 5)%nat) eqn:Hc;
    [|left; reflexivity].
  apply andb_prop in Hc. destruct Hc as [Hr Hl].
  destruct (sampleLoop_spec rnd (obstacles r) 20 (S (S k)) (vec 0 0))
    as (n & _ & -> & _ & _); [lia|].
  destruct (clear (obstacles r) (sample rnd (S (S k) + 2 * n))) eqn:Hc;
    [|left; reflexivity].
  right. eexists. split; [reflexivity|].
  apply Nat.ltb_lt in Hl. apply ltb_true in Hr.
  split; [exact Hl|]. split; [exact Hr|]. split; [reflexivity|].
  split; [exact Hc|]. split; reflexivity.
Qed.

Lemma updatePowerups_slimes (rnd : nat -> R) (now : R) (k : nat) (r : GameRoom) :
  let r' := fst (Server.updatePowerups rnd now k r) in
  slimeAreas r' = slimeAreas r /\ state r' = state r
  /\ lastSurvivorId r' = lastSurvivorId r
  /\ (List.length (powerups r') <= Nat.max (List.length (powerups r)) 5)%nat.
Proof.
  destruct (updatePowerups_spec rnd now k r) as [-> | (pu & -> & Hl & _)].
  - repeat split; lia.
  - repeat split. cbv [powerups set_powerups]. rewrite length_app.
    cbn [List.length]. fold (powerups r). lia.
Qed.

Lemma uniform_tenth : uniform tenth.
Proof. intros n; unfold tenth; lra. Qed.

Lemma sample_range (rnd : nat -> R) (k : nat) :
  uniform rnd ->
  100 <= x (sample rnd k) < 1900 /\ 100 <= y (sample rnd k) < 1900.
Proof.
  intros Hu; unfold sample; cbn; consts.
  pose proof (Hu k); pose proof (Hu (S k)). split; lra.
Qed.

(** X1. [findSafeSpawn] draws points of the square [100, 1900) x [100, 1900)
    two random numbers at a time and returns the first of them that is strictly
    inside no obstacle; when the first fifty all fail it returns the fiftieth,
    obstructed as it is. *)
Theorem X1_findSafeSpawn_first_clear (rnd : nat -> R) (walls : list Obstacle)
    (k : nat) :
  uniform rnd ->
  exists n : nat,
    (n < 50)%nat
    /\ Server.findSafeSpawn rnd walls k
       = (sample rnd (k + 2 * n), (k + 2 * (n + 1))%nat)
    /\ (forall i : nat, (i < n)%nat -> clear walls (sample rnd (k + 2 * i)) = false)
    /\ (clear walls (sample rnd (k + 2 * n)) = true \/ n = 49%nat)
    /\ 100 <= x (fst (Server.findSafeSpawn rnd walls k)) < 1900
    /\ 100 <= y (fst (Server.findSafeSpawn rnd walls k)) < 1900.
Proof.
  intros Hu.
  destruct (findSafeSpawn_spec rnd walls k Hu) as (n & Hn & Heq & Hb & Hl).
  exists n. rewrite Heq. cbn [fst].
  destruct (sample_range rnd (k + 2 * n) Hu). auto 10.
Qed.

Lemma X1_findSafeSpawn_first_clear_witness :
  exists n : nat,
    (n < 50)%nat
    /\ Server.findSafeSpawn tenth [pit] 0
       = (sample tenth (0 + 2 * n), (0 + 2 * (n + 1))%nat)
    /\ (forall i : nat, (i < n)%nat -> clear [pit] (sample tenth (0 + 2 * i)) = false)
    /\ (clear [pit] (sample tenth (0 + 2 * n)) = true \/ n = 49%nat)
    /\ 100 <= x (fst (Server.findSafeSpawn tenth [pit] 0)) < 1900
    /\ 100 <= y (fst (Server.findSafeSpawn tenth [pit] 0)) < 1900.
Proof. exact (X1_findSafeSpawn_first_clear tenth [pit] 0 uniform_tenth). Defined.

(** X2. [update] never touches an eliminated avatar: every avatar that is dead
    before the tick comes out of it unchanged, at the same place in the list
    (no status update, no movement, no push, no hit, no pickup). *)
Theorem X2_update_skips_dead (rnd : nat -> R) (now : R) (k : nat) (r : GameRoom) :
  Forall2 (fun p p' => isDead p = true -> p' = p) (players r)
    (players (fst (fst (fst (Server.update rnd now k r))))).
Proof. apply update_dead_schema. Qed.

(** With the source [tenth] every sample is the point [(280, 280)], inside
    [pit]: the fiftieth is returned. *)
Lemma pit_spawn (k : nat) :
  Server.findSafeSpawn tenth [pit] k = (vec 280 280, (k + 100)%nat).
Proof.
  assert (Hs : forall i, sample tenth i = vec 280 280)
    by (intros i; unfold sample, tenth; consts; f_equal; lra).
  assert (Hc : clear [pit] (vec 280 280) = false)
    by (unfold clear, Server.pointInside, pit; cbn; cmp; reflexivity).
  destruct (findSafeSpawn_spec tenth [pit] k uniform_tenth)
    as (n & Hn & -> & _ & Hl).
  rewrite Hs in *. rewrite Hc in Hl.
  destruct Hl as [Hl|Hl]; [discriminate|]. subst n. f_equal.
Qed.

Lemma ambush_phase1 :
  Server.tickPlayers 33 ((33 - 0) / 1000) [] [pit] [victim; doomed]
                     [Server.initialPotato 1] 0 None
  = ([set_score (0 + (33 - 0) / 1000 * 10) victim;
      set_score (0 + (33 - 0) / 1000 * 10) doomed],
     [Server.initialPotato 1], 2%nat, Some "b"%string).
Proof.
  unfold Server.tickPlayers, Server.tickPlayer; cbn.
  unfold Server.spawnPotatoes; cbn.
  rewrite floor_small by lra. cbn.
  unfold Server.moveAndSlide, Server.stepToward; cbn.
  replace ((110 - 110) * (110 - 110) + (100 - 100) * (100 - 100)) with 0 by ring.
  rewrite sqrt_0.
  replace (0 >? 5) with false by (symmetry; apply gtb_false; lra).
  rewrite !slide_zero.
  unfold Server.updateStatus, victim, doomed, Server.newPlayer; cbn; consts.
  cmp. reflexivity.
Qed.

(** Two avatars on the same spot are not pushed apart: the push needs a
    direction. *)
Lemma resolvePair_coincident (obstacles : list Obstacle) (p1 p2 : Player) :
  position p1 = position p2 -> Server.resolvePair obstacles p1 p2 = (p1, p2).
Proof.
  intros H; unfold Server.resolvePair.
  destruct (isDead p1 || isDead p2 || isGhost p1 || isGhost p2); [reflexivity|].
  cbv zeta. rewrite H.
  replace ((x (position p2) - x (position p2)) * (x (position p2) - x (position p2))
           + (y (position p2) - y (position p2)) * (y (position p2) - y (position p2)))
    with 0 by ring.
  rewrite sqrt_0.
  replace (0 >? 0) with false by (symmetry; apply gtb_false; lra).
  rewrite andb_false_r. reflexivity.
Qed.

Lemma hypot_ltb_true (a b c : R) :
  0 < c -> a * a + b * b < c * c -> (JS.hypot a b <? c) = true.
Proof.
  intros Hc H; apply ltb_true; unfold JS.hypot.
  rewrite <- (sqrt_sq c) by lra. apply sqrt_lt_1_alt.
  split; [apply sum_sq_nonneg|exact H].
Qed.

Lemma ambush_chase (s : R) :
  Server.chase 33 ((33 - 0) / 1000) 1 [set_score s victim; set_score s doomed]
               (Server.initialPotato 1)
  = set_pot_position (vec (10759 / 100) 100)
      (set_targetId (Some "a"%string) (Server.initialPotato 1)).
Proof.
  unfold Server.chase, Server.nearestTarget, Server.nearer, victim, doomed,
    Server.newPlayer, JS.hypot; cbn.
  sqrt_is ((110 - 100) * (110 - 100) + (100 - 100) * (100 - 100)) 10.
  consts. cmp.
  sqrt_is ((110 - 100) * (110 - 100) + (100 - 100) * (100 - 100)) 10.
  cmp. unfold set_pot_position; cbn. do 2 f_equal; lra.
Qed.

Lemma ambush_tick :
  exists r' : GameRoom,
    Server.update tenth 33 0 ambush = (r', 101%nat, [], Server.Running)
    /\ map lives (players r') = [2%Z; 0%Z]
    /\ map isDead (players r') = [false; true].
Proof.
  eexists. split.
  - unfold Server.update, ambush. cbn. rewrite ambush_phase1. cbn.
    unfold Server.resolveCollisions.
    cbn [List.length Server.resolveFrom Server.resolveAgainst].
    rewrite resolvePair_coincident by reflexivity.
    cbn [List.length Server.resolveFrom Server.resolveAgainst].
    replace (33 - 0 >? 3000) with false by (symmetry; apply gtb_false; lra).
    cbn. rewrite ambush_chase.
    unfold Server.updatePowerups, tenth; cbn.
    replace (1 / 10 <? 0.005) with false by (symmetry; apply ltb_false; lra).
    cbn. unfold Server.checkCollisions; cbn.
    rewrite !hypot_ltb_true by (consts; lra).
    cbn. change (fun _ : nat => 1 / 10) with tenth. rewrite pit_spawn. cbn.
    rewrite hypot_ltb_true by (consts; lra).
    cbn. reflexivity.
  - cbn. split; reflexivity.
Qed.

(** X3. Lives through a tick: no avatar gains a life; and if before the tick
    every living avatar has one to three lives and every dead one has none,
    the same holds after it (a life counter never goes negative). *)
Theorem X3_update_lives (rnd : nat -> R) (now : R) (k : nat) (r : GameRoom) :
  let r' := fst (fst (fst (Server.update rnd now k r))) in
  Forall2 (fun p p' => (lives p' <= lives p)%Z) (players r) (players r')
  /\ (Forall livesOk (players r) -> Forall livesOk (players r')).
Proof.
  cbv zeta. pose proof (update_lives_schema rnd now k r) as Hs. split.
  - eapply Forall2_impl; [|exact Hs]. intros p p' [_ Hp]; exact Hp.
  - intros H. eapply Forall2_preserve; [|exact H].
    eapply Forall2_impl; [|exact Hs]. intros p p' [Hp _]; exact Hp.
Qed.

(** In the room [ambush] the potato hits both avatars in one tick: the one
    with three lives is left with two, the one on its last life dies. *)
Lemma X3_update_lives_witness :
  let r' := fst (fst (fst (Server.update tenth 33 0 ambush))) in
  (map lives (players ambush) = [3%Z; 1%Z]
   /\ map lives (players r') = [2%Z; 0%Z]
   /\ map isDead (players r') = [false; true])
  /\ Forall livesOk (players ambush)
  /\ Forall2 (fun p p' => (lives p' <= lives p)%Z) (players ambush) (players r')
  /\ Forall livesOk (players r').
Proof.
  assert (Hok : Forall livesOk (players ambush))
    by (repeat constructor; unfold livesOk; cbn; lia).
  pose proof (X3_update_lives tenth 33 0 ambush) as [Hle Hinv].
  cbv zeta. split; [|split; [exact Hok|split; [exact Hle|exact (Hinv Hok)]]].
  split; [reflexivity|].
  destruct ambush_tick as (r1 & -> & Hl & Hd). split; assumption.
Defined.

(** X4. Cooldowns through a tick: when the clock has not gone backwards, if
    every avatar's four cooldowns are within [0, max] (8000, 20000, 12000,
    15000 ms) before the tick, they are after it. *)
Theorem X4_update_cooldowns (rnd : nat -> R) (now : R) (k : nat) (r : GameRoom) :
  lastUpdate r <= now ->
  Forall cooldownsOk (players r) ->
  Forall cooldownsOk (players (fst (fst (fst (Server.update rnd now k r))))).
Proof.
  intros Hnow H. eapply Forall2_preserve; [|exact H].
  apply update_cooldowns_schema; assumption.
Qed.

Lemma X4_update_cooldowns_witness :
  Forall cooldownsOk (players (fst (fst (fst (Server.update tenth 33 0 arena))))).
Proof.
  apply (X4_update_cooldowns tenth 33 0 arena).
  - cbn; lra.
  - repeat constructor; unfold cooldownsOk; cbn; lra.
Defined.

(** X5. Scores through a tick: when the clock has not gone backwards, no
    avatar's score decreases. *)
Theorem X5_update_score_monotone (rnd : nat -> R) (now : R) (k : nat)
    (r : GameRoom) :
  lastUpdate r <= now ->
  Forall2 (fun p p' => score p <= score p') (players r)
    (players (fst (fst (fst (Server.update rnd now k r))))).
Proof. apply update_score_schema. Qed.

Lemma X5_update_score_monotone_witness :
  Forall2 (fun p p' => score p <= score p') (players arena)
    (players (fst (fst (fst (Server.update tenth 33 0 arena))))).
Proof. apply (X5_update_score_monotone tenth 33 0 arena). cbn; lra. Defined.

Lemma deadCount_mono (ps qs : list Player) :
  Forall2 (fun p q => isDead p = true -> q = p) ps qs ->
  deadCount ps <= deadCount qs.
Proof.
  induction 1 as [|p q ps qs H _ IH]; cbn; [lra|].
  destruct (isDead p) eqn:Hd.
  - rewrite (H eq_refl), Hd. lra.
  - destruct (isDead q); lra.
Qed.

Lemma update_multiplier (rnd : nat -> R) (now : R) (k : nat) (r : GameRoom) :
  let r' := fst (fst (fst (Server.update rnd now k r))) in
  potatoSpeedMultiplier r'
  = potatoSpeedMultiplier r
    + 0.1 * (deadCount (players r') - deadCount (players r)).
Proof.
  destruct (state r) eqn:Hs;
    try (rewrite update_idle by congruence; cbn; lra).
  rewrite (update_playing rnd now k r Hs). cbv zeta.
  set (t := Server.tickPlayers _ _ _ _ _ _ _ _).
  pose proof (phases12_dead now ((now - lastUpdate r) / 1000)
                (filter (fun s => now <? spawnTime s + duration s) (slimeAreas r))
                (obstacles r) (players r) (potatoes r) 0 None) as Hd.
  fold t in Hd.
  destruct (_ && _ && _); [destruct (snd (fst t) =? 1)%nat; cbn; rewrite Hd; lra|].
  destruct (negb (gameEnded r));
    [|destruct (snd (fst t) =? 1)%nat; cbn; rewrite Hd; lra].
  cbn [fst snd].
  match goal with
  | |- context [Server.updatePowerups rnd now k ?q] =>
      destruct (updatePowerups_frame rnd now k q) as (_ & Hp & _ & _ & Hm);
      pose proof (checkCollisions_multiplier rnd now
                    (snd (Server.updatePowerups rnd now k q))
                    (fst (Server.updatePowerups rnd now k q))) as Hc;
      cbv zeta in Hc, Hp, Hm; rewrite Hc, Hp, Hm
  end.
  destruct (snd (fst t) =? 1)%nat; cbn; rewrite Hd; lra.
Qed.

(** X6. The potato speed multiplier counts the eliminations: through any tick
    it grows by exactly 0.1 for every avatar that dies in the tick, so it never
    decreases. *)
Theorem X6_multiplier_counts_eliminations (rnd : nat -> R) (now : R) (k : nat)
    (r : GameRoom) :
  let r' := fst (fst (fst (Server.update rnd now k r))) in
  potatoSpeedMultiplier r'
  = potatoSpeedMultiplier r
    + 0.1 * (deadCount (players r') - deadCount (players r))
  /\ potatoSpeedMultiplier r <= potatoSpeedMultiplier r'.
Proof.
  cbv zeta. pose proof (update_multiplier rnd now k r) as H. cbv zeta in H.
  split; [exact H|].
  pose proof (deadCount_mono _ _ (update_dead_schema rnd now k r)). lra.
Qed.

(** X7. The number of potatoes never decreases through a tick, and a tick
    never takes it past ten: it is at most the larger of ten and the number
    before. *)
Theorem X7_potato_count (rnd : nat -> R) (now : R) (k : nat) (r : GameRoom) :
  let r' := fst (fst (fst (Server.update rnd now k r))) in
  (List.length (potatoes r) <= List.length (potatoes r')
   <= Nat.max (List.length (potatoes r)) 10)%nat.
Proof.
  cbv zeta.
  destruct (state r) eqn:Hs;
    try (rewrite update_idle by congruence; cbn; lia).
  rewrite (update_playing rnd now k r Hs). cbv zeta.
  set (t := Server.tickPlayers _ _ _ _ _ _ _ _).
  pose proof (tickPlayers_potatoes now ((now - lastUpdate r) / 1000)
                (filter (fun s => now <? spawnTime s + duration s) (slimeAreas r))
                (obstacles r) (players r) (potatoes r) 0 None) as Hd.
  fold t in Hd.
  destruct (_ && _ && _); [destruct (snd (fst t) =? 1)%nat; cbn; lia|].
  destruct (negb (gameEnded r));
    [|destruct (snd (fst t) =? 1)%nat; cbn; rewrite length_map; lia].
  cbn [fst snd].
  match goal with
  | |- context [Server.updatePowerups rnd now k ?q] =>
      destruct (updatePowerups_frame rnd now k q) as (_ & _ & Hp & _);
      destruct (checkCollisions_frame rnd now
                  (snd (Server.updatePowerups rnd now k q))
                  (fst (Server.updatePowerups rnd now k q))) as (Hc & _);
      cbv zeta in Hc, Hp;
      apply (f_equal (@List.length Vector2)) in Hc;
      rewrite !length_map, Hp in Hc; rewrite Hc
  end.
  destruct (snd (fst t) =? 1)%nat; cbn; rewrite length_map; lia.
Qed.

Lemma update_powerups_cap (rnd : nat -> R) (now : R) (k : nat) (r : GameRoom) :
  let r' := fst (fst (fst (Server.update rnd now k r))) in
  (List.length (powerups r') <= Nat.max (List.length (powerups r)) 5)%nat.
Proof.
  cbv zeta.
  destruct (state r) eqn:Hs;
    try (rewrite update_idle by congruence; cbn; lia).
  rewrite (update_playing rnd now k r Hs). cbv zeta.
  set (t := Server.tickPlayers _ _ _ _ _ _ _ _).
  destruct (_ && _ && _); [destruct (snd (fst t) =? 1)%nat; cbn; lia|].
  destruct (negb (gameEnded r));
    [|destruct (snd (fst t) =? 1)%nat; cbn; lia].
  cbn [fst snd].
  match goal with
  | |- context [Server.updatePowerups rnd now k ?q] =>
      destruct (updatePowerups_slimes rnd now k q) as (_ & _ & _ & Hp);
      destruct (checkCollisions_frame rnd now
                  (snd (Server.updatePowerups rnd now k q))
                  (fst (Server.updatePowerups rnd now k q)))
        as (_ & _ & _ & Hc & _);
      cbv zeta in Hc, Hp
  end.
  destruct (snd (fst t) =? 1)%nat; cbn in *; lia.
Qed.

(** What [updatePowerups] does when it adds a pickup: it is put at the first
    of up to twenty samples that is strictly inside no obstacle. *)
Lemma updatePowerups_sampled (rnd : nat -> R) (now : R) (k : nat) (r : GameRoom) :
  let r' := fst (Server.updatePowerups rnd now k r) in
  r' = r
  \/ (exists (pu : Powerup) (n : nat),
         r' = set_powerups (powerups r ++ [pu]) r
         /\ (List.length (powerups r) < 5)%nat
         /\ rnd k < 0.005
         /\ (n < 20)%nat
         /\ pu_position pu = sample rnd (S (S k) + 2 * n)
         /\ (forall i : nat, (i < n)%nat ->
               clear (obstacles r) (sample rnd (S (S k) + 2 * i)) = false)
         /\ clear (obstacles r) (pu_position pu) = true
         /\ pu_type pu = Server.powerupTypeOf (rnd (S k))
         /\ pu_spawnTime pu = now /\ pu_radius pu = POWERUP_RADIUS).
Proof.
  unfold Server.updatePowerups.
  destruct ((rnd k <? 0.005) && (List.length (powerups r) <? 5)%nat) eqn:Hc;
    [|left; reflexivity].
  apply andb_prop in Hc. destruct Hc as [Hr Hl].
  destruct (sampleLoop_spec rnd (obstacles r) 20 (S (S k)) (vec 0 0))
    as (n & Hn & -> & Hb & _); [lia|].
  destruct (clear (obstacles r) (sample rnd (S (S k) + 2 * n))) eqn:Hc;
    [|left; reflexivity].
  right. eexists. exists n. split; [reflexivity|].
  apply Nat.ltb_lt in Hl. apply ltb_true in Hr.
  split; [exact Hl|]. split; [exact Hr|]. split; [exact Hn|].
  split; [reflexivity|]. split; [exact Hb|]. split; [exact Hc|].
  split; [reflexivity|]. split; reflexivity.
Qed.

(** With the source [rare] and the obstacle of [arena], the first sample is
    taken. *)
Lemma rare_pickup :
  map pu_position (powerups (fst (Server.updatePowerups rare 33 0 arena)))
  = [vec (1018 / 10) (1018 / 10)]
  /\ map pu_type (powerups (fst (Server.updatePowerups rare 33 0 arena)))
     = [FREEZE].
Proof.
  unfold Server.updatePowerups, arena, rare; cbn.
  replace (1 / 1000 <? 0.005) with true by (symmetry; apply ltb_true; lra).
  cbn. rewrite sampleLoop_step. unfold clear, sample, Server.pointInside, block.
  cbn. consts. cmp. unfold Server.powerupTypeOf. cmp.
  split; [do 2 f_equal; lra|reflexivity].
Qed.

Lemma uniform_rare : uniform rare.
Proof. intros n; unfold rare; lra. Qed.

(** X8. Pickups are capped at five: [updatePowerups] adds at most one pickup,
    only when fewer than five are out, and only at a sampled point that is
    strictly inside no obstacle -- the first such point among up to twenty
    samples, a point of the square [100, 1900) x [100, 1900) when the random
    source answers in [0, 1); and a whole tick leaves at most the larger of
    five and the number of pickups before it. *)
Theorem X8_pickup_cap (rnd : nat -> R) (now : R) (k : nat) (r : GameRoom) :
  (fst (Server.updatePowerups rnd now k r) = r
   \/ exists (pu : Powerup) (n : nat),
        fst (Server.updatePowerups rnd now k r)
        = set_powerups (powerups r ++ [pu]) r
        /\ (List.length (powerups r) < 5)%nat
        /\ (n < 20)%nat
        /\ pu_position pu = sample rnd (S (S k) + 2 * n)
        /\ (forall i : nat, (i < n)%nat ->
              clear (obstacles r) (sample rnd (S (S k) + 2 * i)) = false)
        /\ clear (obstacles r) (pu_position pu) = true
        /\ (uniform rnd ->
            100 <= x (pu_position pu) < 1900 /\ 100 <= y (pu_position pu) < 1900)
        /\ pu_type pu = Server.powerupTypeOf (rnd (S k)))
  /\ (List.length (powerups (fst (fst (fst (Server.update rnd now k r)))))
      <= Nat.max (List.length (powerups r)) 5)%nat.
Proof.
  split; [|apply update_powerups_cap].
  destruct (updatePowerups_sampled rnd now k r)
    as [H | (pu & n & H & Hl & _ & Hn & Hp & Hb & Hc & Ht & _)];
    [left; exact H|].
  right. exists pu, n.
  split; [exact H|]. split; [exact Hl|]. split; [exact Hn|].
  split; [exact Hp|]. split; [exact Hb|]. split; [exact Hc|].
  split; [|exact Ht].
  intros Hu. rewrite Hp. apply sample_range; exact Hu.
Qed.

(** With the source [rare] a pickup is added to [arena], at the first sample. *)
Lemma X8_pickup_cap_witness :
  uniform rare
  /\ (map pu_position (powerups (fst (Server.updatePowerups rare 33 0 arena)))
      = [vec (1018 / 10) (1018 / 10)]
      /\ map pu_type (powerups (fst (Server.updatePowerups rare 33 0 arena)))
         = [FREEZE])
  /\ (fst (Server.updatePowerups rare 33 0 arena) = arena
      \/ exists (pu : Powerup) (n : nat),
           fst (Server.updatePowerups rare 33 0 arena)
           = set_powerups (powerups arena ++ [pu]) arena
           /\ (List.length (powerups arena) < 5)%nat
           /\ (n < 20)%nat
           /\ pu_position pu = sample rare (S (S 0) + 2 * n)
           /\ (forall i : nat, (i < n)%nat ->
                 clear (obstacles arena) (sample rare (S (S 0) + 2 * i)) = false)
           /\ clear (obstacles arena) (pu_position pu) = true
           /\ (uniform rare ->
               100 <= x (pu_position pu) < 1900
               /\ 100 <= y (pu_position pu) < 1900)
           /\ pu_type pu = Server.powerupTypeOf (rare 1%nat))
  /\ (List.length (powerups (fst (fst (fst (Server.update rare 33 0 arena)))))
      <= Nat.max (List.length (powerups arena)) 5)%nat.
Proof.
  split; [exact uniform_rare|]. split; [exact rare_pickup|].
  exact (X8_pickup_cap rare 33 0 arena).
Defined.

(** The puddles after a tick of a playing room are those of before that have
    not run out; no phase of the tick adds, changes or reorders one. *)
Lemma update_slimes (rnd : nat -> R) (now : R) (k : nat) (r : GameRoom) :
  state r = PLAYING ->
  slimeAreas (fst (fst (fst (Server.update rnd now k r))))
  = filter (fun s => now <? spawnTime s + duration s) (slimeAreas r).
Proof.
  intros Hs.
  rewrite (update_playing rnd now k r Hs). cbv zeta.
  set (t := Server.tickPlayers _ _ _ _ _ _ _ _).
  destruct (_ && _ && _); [destruct (snd (fst t) =? 1)%nat; reflexivity|].
  destruct (negb (gameEnded r));
    [|destruct (snd (fst t) =? 1)%nat; reflexivity].
  cbn [fst snd].
  match goal with
  | |- context [Server.updatePowerups rnd now k ?q] =>
      destruct (updatePowerups_slimes rnd now k q) as (Hp & _);
      destruct (checkCollisions_frame rnd now
                  (snd (Server.updatePowerups rnd now k q))
                  (fst (Server.updatePowerups rnd now k q)))
        as (_ & Hc & _);
      cbv zeta in Hc, Hp; rewrite Hc, Hp
  end.
  destruct (snd (fst t) =? 1)%nat; reflexivity.
Qed.

(** X10. The status of a living avatar after the status update is a function
    of its cooldowns and of the number [n] of other avatars' puddles it stands
    in: shielded iff the shield cooldown left is above 17000 and [n = 0],
    hidden iff the smoke cooldown left is above 7000 and [n = 0], silenced and
    slowed iff [n > 0]; a ghost stays one only if [n = 0]; and the speed is the
    base speed (250 once the boost has expired) times 0.75 per puddle. *)
Theorem X10_status_is_derived (now dt : R) (slimes : list SlimeArea)
    (p : Player) :
  let p' := Server.updateStatus now dt slimes p in
  let n := puddles p slimes in
  isShielded p'
  = (Rmax 0 (shieldCooldown p - dt * 1000) >? 17000) && (n =? 0)%nat
  /\ isHidden p'
     = (Rmax 0 (smokeCooldown p - dt * 1000) >? 7000) && (n =? 0)%nat
  /\ isSilenced p' = negb (n =? 0)%nat
  /\ isSlowed p' = negb (n =? 0)%nat
  /\ isGhost p' = isGhost p && (n =? 0)%nat
  /\ speed p'
     = (if now >? speedBoostEndTime p then BASE_SPEED else speed p) * 0.75 ^ n
  /\ score p' = score p + dt * 10.
Proof.
  cbv zeta. rewrite updateStatus_formula.
  destruct (puddles p slimes =? 0)%nat; destruct p; cbn;
    rewrite ?andb_true_r, ?andb_false_r; auto 10.
Qed.

(** ** The clamped-distance test *)

Lemma clamp_in (a lo w : R) :
  0 <= w -> lo <= Rmax lo (Rmin a (lo + w)) <= lo + w.
Proof.
  intros Hw. unfold Rmax, Rmin.
  destruct (Rle_dec a (lo + w)); destruct (Rle_dec lo _); cbv beta iota; lra.
Qed.

Lemma clamp_nearest (a lo w u : R) :
  lo <= u <= lo + w ->
  (a - Rmax lo (Rmin a (lo + w))) * (a - Rmax lo (Rmin a (lo + w)))
  <= (a - u) * (a - u).
Proof.
  intros Hu. unfold Rmax, Rmin.
  destruct (Rle_dec a (lo + w)); destruct (Rle_dec lo _); cbv beta iota.
  - pose proof (Rle_0_sqr (a - u)) as H. unfold Rsqr in H. lra.
  - pose proof (Rmult_le_pos (u - lo) (u + lo - 2 * a)). lra.
  - pose proof (Rmult_le_pos (lo + w - u) (2 * a - (lo + w) - u)). lra.
  - lra.
Qed.

(** The wall test of [isPositionValid] says that some point of the rectangle
    is closer to the centre than the radius. *)
Lemma insideWall_spec (cx cy r : R) (o : Obstacle) :
  proper o ->
  insideWall cx cy r o = true
  <-> exists u v : R, inRect o u v /\ (cx - u) * (cx - u) + (cy - v) * (cy - v) < r * r.
Proof.
  intros [Hw Hh]. unfold insideWall. cbv zeta. rewrite ltb_true. split.
  - intros H.
    exists (Rmax (obs_x o) (Rmin cx (obs_x o + width o))),
           (Rmax (obs_y o) (Rmin cy (obs_y o + height o))).
    split; [|exact H].
    split; apply clamp_in; assumption.
  - intros (u & v & [Hu Hv] & H).
    pose proof (clamp_nearest cx (obs_x o) (width o) u Hu).
    pose proof (clamp_nearest cy (obs_y o) (height o) v Hv).
    lra.
Qed.

Lemma bounds_spec (cx cy r : R) :
  (cx <? r) || (cx >? CANVAS_WIDTH - r) || (cy <? r) || (cy >? CANVAS_HEIGHT - r)
  = false
  <-> r <= cx <= CANVAS_WIDTH - r /\ r <= cy <= CANVAS_HEIGHT - r.
Proof.
  rewrite !orb_false_iff, !ltb_false, !gtb_false. tauto.
Qed.

Lemma isPositionValid_spec (cx cy r : R) (obstacles : list Obstacle) :
  isPositionValid cx cy r obstacles = true
  <-> (r <= cx <= CANVAS_WIDTH - r /\ r <= cy <= CANVAS_HEIGHT - r)
      /\ forall o, In o obstacles -> insideWall cx cy r o = false.
Proof.
  unfold isPositionValid.
  destruct ((cx <? r) || (cx >? CANVAS_WIDTH - r) || (cy <? r)
            || (cy >? CANVAS_HEIGHT - r)) eqn:Hb.
  - split; [discriminate|]. intros [H _]. apply bounds_spec in H. congruence.
  - apply bounds_spec in Hb. rewrite negb_true_iff.
    split.
    + intros H. split; [exact Hb|]. intros o Ho.
      destruct (insideWall cx cy r o) eqn:Hi; [|reflexivity].
      assert (existsb (insideWall cx cy r) obstacles = true)
        by (apply existsb_exists; eauto). congruence.
    + intros [_ H]. destruct (existsb _ obstacles) eqn:He; [|reflexivity].
      apply existsb_exists in He. destruct He as (o & Ho & Hi).
      rewrite (H o Ho) in Hi. discriminate.
Qed.

(** X11. [isPositionValid] is exact for circles against rectangles: a position
    is accepted iff the centre is at least the radius away from the four edges
    of the 2000 x 2000 arena and every point of every obstacle rectangle is at
    least the radius away from the centre (touching is accepted). *)
Theorem X11_isPositionValid_exact (cx cy r : R) (obstacles : list Obstacle) :
  Forall proper obstacles ->
  isPositionValid cx cy r obstacles = true
  <-> (r <= cx <= 2000 - r /\ r <= cy <= 2000 - r)
      /\ forall (o : Obstacle) (u v : R),
           In o obstacles -> inRect o u v ->
           r * r <= (cx - u) * (cx - u) + (cy - v) * (cy - v).
Proof.
  intros Hp. rewrite isPositionValid_spec. consts.
  rewrite Forall_forall in Hp.
  split; intros [Hb H]; (split; [exact Hb|]).
  - intros o u v Ho Hr.
    specialize (H o Ho).
    destruct (Rle_dec (r * r) ((cx - u) * (cx - u) + (cy - v) * (cy - v)))
      as [Hle|Hgt]; [exact Hle|].
    assert (Hi : insideWall cx cy r o = true).
    { apply (insideWall_spec cx cy r o (Hp o Ho)). exists u, v. split; [exact Hr|lra]. }
    congruence.
  - intros o Ho.
    destruct (insideWall cx cy r o) eqn:Hi; [|reflexivity].
    apply (insideWall_spec cx cy r o (Hp o Ho)) in Hi.
    destruct Hi as (u & v & Hr & Hlt).
    specialize (H o u v Ho Hr). lra.
Qed.

(** An avatar touching [wall] from the left is accepted; one unit further in
    it is not. *)
Lemma tangent_accepted :
  isPositionValid 315 100 25 [wall] = true
  /\ isPositionValid 316 100 25 [wall] = false.
Proof.
  unfold isPositionValid, insideWall, wall; cbn; consts. split; cmp; reflexivity.
Qed.

Lemma X11_isPositionValid_exact_witness :
  (isPositionValid 315 100 25 [wall] = true
   /\ isPositionValid 316 100 25 [wall] = false)
  /\ (isPositionValid 315 100 25 [wall] = true
      <-> (25 <= 315 <= 2000 - 25 /\ 25 <= 100 <= 2000 - 25)
          /\ forall (o : Obstacle) (u v : R),
               In o [wall] -> inRect o u v ->
               25 * 25 <= (315 - u) * (315 - u) + (100 - v) * (100 - v)).
Proof.
  split; [exact tangent_accepted|].
  apply (X11_isPositionValid_exact 315 100 25 [wall]).
  repeat constructor; unfold wall; cbv [width height]; lra.
Defined.

(** ** Pursuit: the target and the step *)

Lemma nearer_skip (potato : Potato) (acc : option R * option Player) (p : Player) :
  eligible p = false -> Server.nearer potato acc p = acc.
Proof. unfold Server.nearer, eligible; intros ->; reflexivity. Qed.

Lemma nearer_first (potato : Potato) (t : option Player) (p : Player) :
  eligible p = true ->
  Server.nearer potato (None, t) p = (Some (potatoDistance potato p), Some p).
Proof. unfold Server.nearer, eligible; intros ->; reflexivity. Qed.

Lemma nearer_next (potato : Potato) (d : R) (t : option Player) (p : Player) :
  eligible p = true ->
  Server.nearer potato (Some d, t) p
  = if potatoDistance potato p <? d
    then (Some (potatoDistance potato p), Some p) else (Some d, t).
Proof. unfold Server.nearer, eligible; intros ->; reflexivity. Qed.

(** The fold once a candidate [t] at distance [d] is held. *)
Lemma nearest_from (potato : Potato) (ps : list Player) (d : R) (t : Player) :
  (fold_left (Server.nearer potato) ps (Some d, Some t) = (Some d, Some t)
   /\ forall p, In p ps -> eligible p = true -> d <= potatoDistance potato p)
  \/ exists (l1 l2 : list Player) (t' : Player),
       ps = (l1 ++ t' :: l2)%list
       /\ fold_left (Server.nearer potato) ps (Some d, Some t)
          = (Some (potatoDistance potato t'), Some t')
       /\ eligible t' = true
       /\ potatoDistance potato t' < d
       /\ (forall p, In p l1 -> eligible p = true ->
                     potatoDistance potato t' < potatoDistance potato p)
       /\ (forall p, In p l2 -> eligible p = true ->
                     potatoDistance potato t' <= potatoDistance potato p).
Proof.
  revert d t; induction ps as [|p rest IH]; intros d t.
  - left. split; [reflexivity|]. intros p [].
  - cbn [fold_left].
    destruct (eligible p) eqn:He.
    + rewrite nearer_next by assumption.
      destruct (potatoDistance potato p <? d) eqn:Hlt.
      * apply ltb_true in Hlt.
        destruct (IH (potatoDistance potato p) p)
          as [[Heq Hall] | (l1 & l2 & t' & -> & Heq & Het & Hd & H1 & H2)].
        -- right. exists [], rest, p. cbn [app].
           split; [reflexivity|]. split; [exact Heq|]. split; [exact He|].
           split; [exact Hlt|]. split; [intros q []|exact Hall].
        -- right. exists (p :: l1), l2, t'. cbn [app].
           split; [reflexivity|]. split; [exact Heq|]. split; [exact Het|].
           split; [lra|]. split; [|exact H2].
           intros q [<-|Hq] Hq'; [exact Hd|apply H1; assumption].
      * apply ltb_false in Hlt.
        destruct (IH d t)
          as [[Heq Hall] | (l1 & l2 & t' & -> & Heq & Het & Hd & H1 & H2)].
        -- left. split; [exact Heq|].
           intros q [<-|Hq] Hq'; [exact Hlt|apply Hall; assumption].
        -- right. exists (p :: l1), l2, t'. cbn [app].
           split; [reflexivity|]. split; [exact Heq|]. split; [exact Het|].
           split; [exact Hd|]. split; [|exact H2].
           intros q [<-|Hq] Hq'; [lra|apply H1; assumption].
    + rewrite nearer_skip by assumption.
      destruct (IH d t)
        as [[Heq Hall] | (l1 & l2 & t' & -> & Heq & Het & Hd & H1 & H2)].
      * left. split; [exact Heq|].
        intros q [<-|Hq] Hq'; [congruence|apply Hall; assumption].
      * right. exists (p :: l1), l2, t'. cbn [app].
        split; [reflexivity|]. split; [exact Heq|]. split; [exact Het|].
        split; [exact Hd|]. split; [|exact H2].
        intros q [<-|Hq] Hq'; [congruence|apply H1; assumption].
Qed.

Lemma nearestTarget_spec (potato : Potato) (ps : list Player) :
  (Server.nearestTarget potato ps = None
   /\ forall p, In p ps -> eligible p = false)
  \/ exists (l1 l2 : list Player) (t : Player),
       ps = (l1 ++ t :: l2)%list
       /\ Server.nearestTarget potato ps = Some t
       /\ eligible t = true
       /\ (forall p, In p l1 -> eligible p = true ->
                     potatoDistance potato t < potatoDistance potato p)
       /\ (forall p, In p l2 -> eligible p = true ->
                     potatoDistance potato t <= potatoDistance potato p).
Proof.
  unfold Server.nearestTarget.
  induction ps as [|p rest IH].
  - left. split; [reflexivity|]. intros p [].
  - cbn [fold_left].
    destruct (eligible p) eqn:He.
    + rewrite nearer_first by assumption. right.
      destruct (nearest_from potato rest (potatoDistance potato p) p)
        as [[Heq Hall] | (l1 & l2 & t' & -> & Heq & Het & Hd & H1 & H2)].
      * exists [], rest, p. cbn [app]. rewrite Heq.
        split; [reflexivity|]. split; [reflexivity|]. split; [exact He|].
        split; [intros q []|exact Hall].
      * exists (p :: l1), l2, t'. cbn [app]. rewrite Heq.
        split; [reflexivity|]. split; [reflexivity|]. split; [exact Het|].
        split; [|exact H2].
        intros q [<-|Hq] Hq'; [exact Hd|apply H1; assumption].
    + rewrite nearer_skip by assumption.
      destruct IH as [[Heq Hall] | (l1 & l2 & t' & -> & Heq & Het & H1 & H2)].
      * left. split; [exact Heq|].
        intros q [<-|Hq]; [exact He|apply Hall; assumption].
      * right. exists (p :: l1), l2, t'. cbn [app].
        split; [reflexivity|]. split; [exact Heq|]. split; [exact Het|].
        split; [|exact H2].
        intros q [<-|Hq] Hq'; [congruence|apply H1; assumption].
Qed.

(** X12. Target selection: the potato's target is an avatar of the room that
    is alive, not hidden and not a ghost, at least as close as every other such
    avatar, and strictly closer than every such avatar listed before it (ties
    go to the first in iteration order); there is no target exactly when no
    avatar qualifies. *)
Theorem X12_nearestTarget (potato : Potato) (ps : list Player) :
  (Server.nearestTarget potato ps = None
   <-> forall p, In p ps -> eligible p = false)
  /\ forall t, Server.nearestTarget potato ps = Some t ->
       exists l1 l2 : list Player,
         ps = (l1 ++ t :: l2)%list
         /\ eligible t = true
         /\ (forall p, In p l1 -> eligible p = true ->
                       potatoDistance potato t < potatoDistance potato p)
         /\ (forall p, In p l2 -> eligible p = true ->
                       potatoDistance potato t <= potatoDistance potato p).
Proof.
  destruct (nearestTarget_spec potato ps)
    as [[Heq Hall] | (l1 & l2 & t & Hps & Heq & Het & H1 & H2)].
  - split; [split; [intros _; exact Hall|intros _; exact Heq]|].
    intros t Ht; congruence.
  - split.
    + split; [intros H; congruence|].
      intros H. assert (In t ps) by (rewrite Hps; apply in_elt).
      rewrite (H t) in Het by assumption. discriminate.
    + intros t' Ht'. rewrite Heq in Ht'. injection Ht' as <-.
      exists l1, l2. auto.
Qed.

Lemma nearer_position (q potato : Potato) (acc : option R * option Player)
    (p : Player) :
  pot_position q = pot_position potato ->
  Server.nearer q acc p = Server.nearer potato acc p.
Proof. unfold Server.nearer; intros ->; reflexivity. Qed.

Lemma nearestTarget_position (q potato : Potato) (ps : list Player) :
  pot_position q = pot_position potato ->
  Server.nearestTarget q ps = Server.nearestTarget potato ps.
Proof.
  intros H. unfold Server.nearestTarget. f_equal.
  generalize (@None R, @None Player).
  induction ps as [|p rest IH]; intros acc; [reflexivity|].
  cbn [fold_left]. rewrite (nearer_position q potato acc p H). apply IH.
Qed.

Lemma chase_frozen (now dt m : R) (ps : list Player) (potato : Potato) :
  isFrozen potato = true -> now <= freezeEndTime potato ->
  Server.chase now dt m ps potato = potato.
Proof.
  intros Hf Hn. unfold Server.chase.
  rewrite Hf. replace (now >? freezeEndTime potato) with false
    by (symmetry; apply gtb_false; exact Hn).
  cbn [andb]. cbv zeta. rewrite Hf. reflexivity.
Qed.

(** The potato [chase] works on once the freeze flag is settled. *)
Lemma chase_thawed (now dt m : R) (ps : list Player) (potato : Potato) :
  isFrozen potato = false \/ freezeEndTime potato < now ->
  Server.chase now dt m ps potato
  = let q := set_targetId (option_map id (Server.nearestTarget potato ps))
                          (set_isFrozen false potato) in
    match Server.nearestTarget potato ps with
    | Some t =>
        let dx := x (position t) - x (pot_position potato) in
        let dy := y (position t) - y (pot_position potato) in
        let d := sqrt (dx * dx + dy * dy) in
        if d >? 1 then
          set_pot_position
            (vec (x (pot_position potato) + dx / d * (pot_speed potato * m) * dt)
                 (y (pot_position potato) + dy / d * (pot_speed potato * m) * dt))
            q
        else q
    | None => q
    end.
Proof.
  intros H. unfold Server.chase.
  assert (Hq : (if isFrozen potato && (now >? freezeEndTime potato)
                then set_isFrozen false potato else potato)
               = set_isFrozen false potato).
  { destruct (isFrozen potato) eqn:Hf.
    - destruct H as [H|H]; [discriminate|].
      apply gtb_true in H. rewrite H. reflexivity.
    - cbn [andb]. destruct potato; cbn in Hf; subst; reflexivity. }
  rewrite Hq. cbv zeta.
  assert (Hp : pot_position (set_isFrozen false potato) = pot_position potato)
    by (destruct potato; reflexivity).
  rewrite (nearestTarget_position _ potato ps Hp).
  replace (isFrozen (set_isFrozen false potato)) with false
    by (destruct potato; reflexivity).
  destruct (Server.nearestTarget potato ps) as [t|]; [|reflexivity].
  destruct potato; reflexivity.
Qed.

(** X13. The pursuit step.  A potato whose freeze has not expired is left
    exactly as it is.  Otherwise it is thawed, takes the nearest eligible
    avatar as target (none if there is none), and, when the target is more
    than one unit away, moves straight toward it by [speed * multiplier * dt]:
    the displacement is that length and is parallel to the line to the target,
    whatever stands in between; within one unit, or without a target, it stays
    where it is. *)
Theorem X13_chase_step (now dt m : R) (ps : list Player) (potato : Potato) :
  let q := Server.chase now dt m ps potato in
  let px := x (pot_position potato) in
  let py := y (pot_position potato) in
  (isFrozen potato = true -> now <= freezeEndTime potato -> q = potato)
  /\ (isFrozen potato = false \/ freezeEndTime potato < now ->
      isFrozen q = false
      /\ targetId q = option_map id (Server.nearestTarget potato ps)
      /\ match Server.nearestTarget potato ps with
         | Some t =>
             let d := potatoDistance potato t in
             (d <= 1 -> pot_position q = pot_position potato)
             /\ (1 < d ->
                 x (pot_position q) - px
                 = (x (position t) - px) / d * (pot_speed potato * m * dt)
                 /\ y (pot_position q) - py
                    = (y (position t) - py) / d * (pot_speed potato * m * dt)
                 /\ (x (pot_position q) - px) * (x (pot_position q) - px)
                    + (y (pot_position q) - py) * (y (pot_position q) - py)
                    = (pot_speed potato * m * dt) * (pot_speed potato * m * dt))
         | None => pot_position q = pot_position potato
         end).
Proof.
  cbv zeta. split; [apply chase_frozen|].
  intros H. rewrite (chase_thawed now dt m ps potato H). cbv zeta.
  destruct (Server.nearestTarget potato ps) as [t|];
    [|destruct potato; repeat split; reflexivity].
  unfold potatoDistance, JS.hypot.
  set (dx := x (position t) - x (pot_position potato)).
  set (dy := y (position t) - y (pot_position potato)).
  set (d := sqrt (dx * dx + dy * dy)).
  destruct (d >? 1) eqn:Hd.
  - apply gtb_true in Hd.
    split; [destruct potato; reflexivity|].
    split; [destruct potato; reflexivity|].
    split; [intros; lra|]. intros _.
    assert (Hx : x (pot_position
                      (set_pot_position
                         (vec (x (pot_position potato)
                               + dx / d * (pot_speed potato * m) * dt)
                              (y (pot_position potato)
                               + dy / d * (pot_speed potato * m) * dt))
                         (set_targetId (option_map id (Some t))
                                       (set_isFrozen false potato))))
                 - x (pot_position potato)
                 = dx / d * (pot_speed potato * m * dt))
      by (destruct potato; cbv [pot_position set_pot_position x]; field; lra).
    assert (Hy : y (pot_position
                      (set_pot_position
                         (vec (x (pot_position potato)
                               + dx / d * (pot_speed potato * m) * dt)
                              (y (pot_position potato)
                               + dy / d * (pot_speed potato * m) * dt))
                         (set_targetId (option_map id (Some t))
                                       (set_isFrozen false potato))))
                 - y (pot_position potato)
                 = dy / d * (pot_speed potato * m * dt))
      by (destruct potato; cbv [pot_position set_pot_position y]; field; lra).
    split; [exact Hx|]. split; [exact Hy|]. rewrite Hx, Hy.
    replace (dx / d * (pot_speed potato * m * dt)
             * (dx / d * (pot_speed potato * m * dt))
             + dy / d * (pot_speed potato * m * dt)
               * (dy / d * (pot_speed potato * m * dt)))
      with ((dx * dx + dy * dy) / (d * d)
            * (pot_speed potato * m * dt * (pot_speed potato * m * dt)))
      by (field; lra).
    unfold d at 1 2. rewrite norm_sq. fold d.
    replace (dx * dx + dy * dy) with (d * d) by (unfold d; apply norm_sq).
    field. lra.
  - apply gtb_false in Hd.
    split; [destruct potato; reflexivity|].
    split; [destruct potato; reflexivity|].
    split; [intros _; destruct potato; reflexivity|intros; lra].
Qed.

(** ** The avatars of a room as a keyed object *)

Lemma lookupPlayer_id (sid : string) (ps : list Player) (p : Player) :
  lookupPlayer sid ps = Some p -> id p = sid.
Proof.
  induction ps as [|q rest IH]; cbn; [discriminate|].
  destruct (id q =? sid)%string eqn:E; [|exact IH].
  intros H; injection H as <-. apply String.eqb_eq; exact E.
Qed.

Lemma lookupPlayer_In (sid : string) (ps : list Player) (p : Player) :
  lookupPlayer sid ps = Some p -> In p ps.
Proof.
  induction ps as [|q rest IH]; cbn; [discriminate|].
  destruct (id q =? sid)%string; [intros H; injection H as <-; now left|].
  intros H; right; auto.
Qed.

Lemma lookupPlayer_None (sid : string) (ps : list Player) :
  lookupPlayer sid ps = None <-> forall p, In p ps -> id p <> sid.
Proof.
  induction ps as [|q rest IH]; cbn; [split; [intros _ p []|reflexivity]|].
  destruct (id q =? sid)%string eqn:E.
  - split; [discriminate|]. intros H. apply String.eqb_eq in E.
    exfalso. apply (H q); auto.
  - apply String.eqb_neq in E. rewrite IH. split.
    + intros H p [<-|Hp]; auto.
    + intros H p Hp; apply H; auto.
Qed.

Lemma lookup_put_same (p : Player) (ps : list Player) :
  lookupPlayer (id p) (putPlayer p ps) = Some p.
Proof.
  induction ps as [|q rest IH]; cbn.
  - rewrite String.eqb_refl; reflexivity.
  - destruct (id q =? id p)%string eqn:E; cbn.
    + rewrite String.eqb_refl; reflexivity.
    + rewrite E. exact IH.
Qed.

Lemma lookup_put_other (sid : string) (p : Player) (ps : list Player) :
  sid <> id p ->
  lookupPlayer sid (putPlayer p ps) = lookupPlayer sid ps.
Proof.
  intros Hne. induction ps as [|q rest IH]; cbn.
  - destruct (id p =? sid)%string eqn:E; [|reflexivity].
    apply String.eqb_eq in E. congruence.
  - destruct (id q =? id p)%string eqn:E; cbn.
    + apply String.eqb_eq in E.
      destruct (id p =? sid)%string eqn:E1;
        [apply String.eqb_eq in E1; congruence|].
      destruct (id q =? sid)%string eqn:E2;
        [apply String.eqb_eq in E2; congruence|reflexivity].
    + destruct (id q =? sid)%string; [reflexivity|exact IH].
Qed.

Lemma putPlayer_length (p : Player) (ps : list Player) :
  List.length (putPlayer p ps)
  = match lookupPlayer (id p) ps with
    | Some _ => List.length ps
    | None => S (List.length ps)
    end.
Proof.
  induction ps as [|q rest IH]; cbn; [reflexivity|].
  destruct (id q =? id p)%string; cbn; [reflexivity|].
  rewrite IH. destruct (lookupPlayer (id p) rest); reflexivity.
Qed.

Lemma lookup_delete_same (sid : string) (ps : list Player) :
  lookupPlayer sid (deletePlayer sid ps) = None.
Proof.
  apply lookupPlayer_None. intros p Hp. unfold deletePlayer in Hp.
  apply filter_In in Hp. destruct Hp as [_ Hp].
  apply negb_true_iff, String.eqb_neq in Hp. exact Hp.
Qed.

Lemma lookup_delete_other (sid sid' : string) (ps : list Player) :
  sid' <> sid ->
  lookupPlayer sid' (deletePlayer sid ps) = lookupPlayer sid' ps.
Proof.
  intros Hne. induction ps as [|q rest IH]; cbn; [reflexivity|].
  destruct (id q =? sid)%string eqn:E; cbn.
  - apply String.eqb_eq in E.
    destruct (id q =? sid')%string eqn:E'; [|exact IH].
    apply String.eqb_eq in E'. congruence.
  - destruct (id q =? sid')%string; [reflexivity|exact IH].
Qed.

Lemma lookup_update_same (sid : string) (p' : Player) (ps : list Player) :
  id p' = sid ->
  lookupPlayer sid (updatePlayer sid (fun _ => p') ps)
  = option_map (fun _ => p') (lookupPlayer sid ps).
Proof.
  intros Hid. induction ps as [|q rest IH]; cbn; [reflexivity|].
  destruct (id q =? sid)%string eqn:E; cbn.
  - rewrite Hid, String.eqb_refl. reflexivity.
  - rewrite E. exact IH.
Qed.

Lemma lookup_update_other (sid sid' : string) (f : Player -> Player)
    (ps : list Player) :
  sid' <> sid -> (forall q, id (f q) = id q) ->
  lookupPlayer sid' (updatePlayer sid f ps) = lookupPlayer sid' ps.
Proof.
  intros Hne Hf. induction ps as [|q rest IH]; cbn; [reflexivity|].
  destruct (id q =? sid)%string eqn:E; cbn.
  - rewrite Hf. apply String.eqb_eq in E.
    destruct (id q =? sid')%string eqn:E'; [|reflexivity].
    apply String.eqb_eq in E'. congruence.
  - destruct (id q =? sid')%string; [reflexivity|exact IH].
Qed.

(** X14. [addPlayer] puts the new avatar under its socket id (three lives,
    alive, score and cooldowns zero, its movement target on its own position),
    at the position [findSafeSpawn] returns, which lies in
    [100, 1900) x [100, 1900); every other avatar of the room is left as it
    was, and the room grows by one avatar exactly when the socket id was not
    already in it. *)
Theorem X14_addPlayer (rnd : nat -> R) (socketId name color : string) (k : nat)
    (r : GameRoom) :
  uniform rnd ->
  let r' := fst (Server.addPlayer rnd socketId name color k r) in
  let pos := fst (Server.findSafeSpawn rnd (obstacles r) k) in
  lookupPlayer socketId (players r')
  = Some (Server.newPlayer socketId name color pos)
  /\ (100 <= x pos < 1900 /\ 100 <= y pos < 1900)
  /\ (forall sid, sid <> socketId ->
                  lookupPlayer sid (players r') = lookupPlayer sid (players r))
  /\ List.length (players r')
     = match lookupPlayer socketId (players r) with
       | Some _ => List.length (players r)
       | None => S (List.length (players r))
       end.
Proof.
  intros Hu. cbv zeta. unfold Server.addPlayer.
  destruct (findSafeSpawn_spec rnd (obstacles r) k Hu) as (n & _ & Heq & _).
  rewrite Heq. cbn [fst].
  assert (Hp : players (set_players
                          (putPlayer (Server.newPlayer socketId name color
                                        (sample rnd (k + 2 * n))) (players r)) r)
               = putPlayer (Server.newPlayer socketId name color
                              (sample rnd (k + 2 * n))) (players r))
    by (destruct r; reflexivity).
  rewrite Hp.
  split; [apply (lookup_put_same (Server.newPlayer socketId name color _))|].
  split; [apply sample_range; exact Hu|].
  split; [intros sid Hne; apply lookup_put_other; exact Hne|].
  apply (putPlayer_length (Server.newPlayer socketId name color _)).
Qed.

Lemma X14_addPlayer_witness :
  let r' := fst (Server.addPlayer tenth "b" "B" "blue" 0 arena) in
  let pos := fst (Server.findSafeSpawn tenth (obstacles arena) 0) in
  lookupPlayer "b" (players r') = Some (Server.newPlayer "b" "B" "blue" pos)
  /\ (100 <= x pos < 1900 /\ 100 <= y pos < 1900)
  /\ (forall sid, sid <> "b"%string ->
                  lookupPlayer sid (players r') = lookupPlayer sid (players arena))
  /\ List.length (players r')
     = match lookupPlayer "b" (players arena) with
       | Some _ => List.length (players arena)
       | None => S (List.length (players arena))
       end.
Proof. exact (X14_addPlayer tenth "b" "B" "blue" 0 arena uniform_tenth). Defined.

(** X15. [removePlayer] deletes the avatar of the socket and no other; it
    reports the room empty exactly when no avatar is left; when the leaving
    socket was the host and someone remains, the first remaining avatar
    becomes host, and otherwise the host is unchanged -- so a room that is not
    reported empty and whose host was a member (or the one leaving) still has
    a member as host. *)
Theorem X15_removePlayer (socketId : string) (r : GameRoom) :
  let r' := fst (Server.removePlayer socketId r) in
  let empty := snd (Server.removePlayer socketId r) in
  lookupPlayer socketId (players r') = None
  /\ (forall sid, sid <> socketId ->
                  lookupPlayer sid (players r') = lookupPlayer sid (players r))
  /\ (empty = true <-> players r' = [])
  /\ (socketId <> hostId r -> hostId r' = hostId r)
  /\ (socketId = hostId r ->
      forall first rest, players r' = first :: rest -> hostId r' = id first)
  /\ (empty = false ->
      (socketId = hostId r \/ lookupPlayer (hostId r) (players r) <> None) ->
      lookupPlayer (hostId r') (players r') <> None).
Proof.
  cbv zeta. unfold Server.removePlayer. cbv zeta.
  assert (Hp : players (set_players (deletePlayer socketId (players r)) r)
               = deletePlayer socketId (players r)) by (destruct r; reflexivity).
  assert (Hh : hostId (set_players (deletePlayer socketId (players r)) r)
               = hostId r) by (destruct r; reflexivity).
  remember (set_players (deletePlayer socketId (players r)) r) as r1 eqn:Hr1.
  assert (Hl : forall sid, sid <> socketId ->
             lookupPlayer sid (players r1) = lookupPlayer sid (players r))
    by (intros sid Hne; rewrite Hp; apply lookup_delete_other; exact Hne).
  assert (Hn : lookupPlayer socketId (players r1) = None)
    by (rewrite Hp; apply lookup_delete_same).
  clear Hr1 Hp. rewrite Hh.
  destruct (players r1) as [|first rest] eqn:Hd.
  - cbn [fst snd]. rewrite Hh, Hd.
    split; [exact Hn|]. split; [exact Hl|].
    split; [tauto|]. split; [reflexivity|].
    split; [intros _ f l H; discriminate|discriminate].
  - destruct (socketId =? hostId r)%string eqn:E.
    + apply String.eqb_eq in E. cbn [fst snd].
      assert (Hp' : players (set_hostId (id first) r1) = players r1)
        by (destruct r1; reflexivity).
      assert (Hh' : hostId (set_hostId (id first) r1) = id first)
        by (destruct r1; reflexivity).
      rewrite Hp', Hh', Hd.
      split; [exact Hn|]. split; [exact Hl|].
      split; [split; discriminate|]. split; [congruence|].
      split; [intros _ f l H; injection H as <- _; reflexivity|].
      intros _ _. cbn [lookupPlayer]. rewrite String.eqb_refl. discriminate.
    + apply String.eqb_neq in E. cbn [fst snd]. rewrite Hh, Hd.
      split; [exact Hn|]. split; [exact Hl|].
      split; [split; discriminate|]. split; [reflexivity|].
      split; [congruence|].
      intros _ [H|H]; [congruence|].
      rewrite Hl by congruence. exact H.
Qed.

(** ** Starting a game *)

Lemma resetPlayers_spec (rnd : nat -> R) (walls : list Obstacle)
    (ps : list Player) :
  uniform rnd ->
  forall k : nat,
    Forall2 restarted ps (fst (Server.resetPlayers rnd walls ps k))
    /\ (k + 2 * List.length ps
        <= snd (Server.resetPlayers rnd walls ps k)
        <= k + 100 * List.length ps)%nat.
Proof.
  intros Hu. induction ps as [|p rest IH]; intros k.
  - cbn. split; [constructor|lia].
  - cbn [Server.resetPlayers].
    destruct (findSafeSpawn_spec rnd walls k Hu) as (n & Hn & Heq & _).
    rewrite Heq. specialize (IH (k + 2 * (n + 1))%nat).
    destruct (Server.resetPlayers rnd walls rest (k + 2 * (n + 1)))
      as [rest' k'] eqn:Hr.
    cbn [fst snd List.length] in *. destruct IH as [IH1 IH2].
    split; [|lia]. constructor; [|exact IH1].
    pose proof (sample_range rnd (k + 2 * n) Hu) as Hs.
    destruct p. unfold restarted. fields.
    repeat (split; [first [reflexivity | apply Hs]|]). reflexivity.
Qed.

Lemma restarted_livesOk (p p' : Player) : restarted p p' -> livesOk p'.
Proof.
  intros (_ & _ & _ & _ & Hl & Hd & _). unfold livesOk. rewrite Hd, Hl. lia.
Qed.

Lemma restarted_cooldownsOk (p p' : Player) : restarted p p' -> cooldownsOk p'.
Proof.
  intros (_ & _ & _ & _ & _ & _ & _ & H1 & H2 & H3 & H4 & _).
  unfold cooldownsOk. rewrite H1, H2, H3, H4. lra.
Qed.

Lemma Forall2_right {A : Type} (R : A -> A -> Prop) (P : A -> Prop)
    (l l' : list A) :
  (forall a b, R a b -> P b) -> Forall2 R l l' -> Forall P l'.
Proof. intros H HF. induction HF; constructor; eauto. Qed.

(** X16. [startGame] puts the room in play with the clock at [now], the
    configured potato speed, a single potato and neither puddles nor pickups,
    on the same obstacles.  The avatars stay the same, in the same order; each
    gets three lives, zero score and cooldowns and a position in the spawn
    square, so the life and cooldown invariants of the tick hold from the
    start; their movement targets, speeds and status flags are not reset.
    Between two and a hundred random numbers are drawn per avatar. *)
Theorem X16_startGame (rnd : nat -> R) (now : R) (k : nat) (r : GameRoom) :
  uniform rnd ->
  let r' := fst (Server.startGame rnd now k r) in
  let k' := snd (Server.startGame rnd now k r) in
  (state r' = PLAYING /\ gameEnded r' = false /\ lastSurvivorId r' = None
   /\ startTime r' = now /\ lastUpdate r' = now
   /\ potatoSpeedMultiplier r' = initialPotatoSpeed r)
  /\ (potatoes r' = [Server.initialPotato (initialPotatoSpeed r)]
      /\ slimeAreas r' = [] /\ powerups r' = []
      /\ obstacles r' = obstacles r /\ hostId r' = hostId r)
  /\ Forall2 restarted (players r) (players r')
  /\ Forall livesOk (players r') /\ Forall cooldownsOk (players r')
  /\ (k + 2 * List.length (players r) <= k'
      <= k + 100 * List.length (players r))%nat.
Proof.
  intros Hu. cbv zeta. unfold Server.startGame. destruct r. rfields.
  destruct (resetPlayers_spec rnd obstacles0 players0 Hu k) as [HF Hk].
  destruct (Server.resetPlayers rnd obstacles0 players0 k) as [ps k'].
  cbn [fst snd] in *.
  split; [repeat split|]. split; [repeat split|].
  split; [exact HF|].
  split; [exact (Forall2_right _ _ _ _ restarted_livesOk HF)|].
  split; [exact (Forall2_right _ _ _ _ restarted_cooldownsOk HF)|exact Hk].
Qed.

Lemma X16_startGame_witness :
  let r' := fst (Server.startGame tenth 7 0 lobby) in
  let k' := snd (Server.startGame tenth 7 0 lobby) in
  (state r' = PLAYING /\ gameEnded r' = false /\ lastSurvivorId r' = None
   /\ startTime r' = 7 /\ lastUpdate r' = 7
   /\ potatoSpeedMultiplier r' = initialPotatoSpeed lobby)
  /\ (potatoes r' = [Server.initialPotato (initialPotatoSpeed lobby)]
      /\ slimeAreas r' = [] /\ powerups r' = []
      /\ obstacles r' = obstacles lobby /\ hostId r' = hostId lobby)
  /\ Forall2 restarted (players lobby) (players r')
  /\ Forall livesOk (players r') /\ Forall cooldownsOk (players r')
  /\ (0 + 2 * List.length (players lobby) <= k'
      <= 0 + 100 * List.length (players lobby))%nat.
Proof. exact (X16_startGame tenth 7 0 lobby uniform_tenth). Defined.

(** ** Commands of a client *)

Lemma updatePlayer_ids (sid : string) (f : Player -> Player) (ps : list Player) :
  (forall q, id (f q) = id q) ->
  map id (updatePlayer sid f ps) = map id ps.
Proof.
  intros Hf. induction ps as [|q rest IH]; cbn; [reflexivity|].
  destruct (id q =? sid)%string; cbn; [rewrite Hf|rewrite IH]; reflexivity.
Qed.

Lemma updatePlayer_const_ids (sid : string) (p' : Player) (ps : list Player) :
  id p' = sid -> map id (updatePlayer sid (fun _ => p') ps) = map id ps.
Proof.
  intros Hid. induction ps as [|q rest IH]; cbn; [reflexivity|].
  destruct (id q =? sid)%string eqn:E; cbn; [|rewrite IH; reflexivity].
  apply String.eqb_eq in E. congruence.
Qed.

Lemma lookup_update_const_other (sid sid' : string) (p' : Player)
    (ps : list Player) :
  sid' <> sid -> id p' = sid ->
  lookupPlayer sid' (updatePlayer sid (fun _ => p') ps) = lookupPlayer sid' ps.
Proof.
  intros Hne Hid. induction ps as [|q rest IH]; cbn; [reflexivity|].
  destruct (id q =? sid)%string eqn:E; cbn.
  - apply String.eqb_eq in E.
    destruct (id p' =? sid')%string eqn:E1;
      [apply String.eqb_eq in E1; congruence|].
    destruct (id q =? sid')%string eqn:E2;
      [apply String.eqb_eq in E2; congruence|reflexivity].
  - destruct (id q =? sid')%string; [reflexivity|exact IH].
Qed.

Lemma updatePlayer_const_twice (sid : string) (a b : Player) (ps : list Player) :
  id a = sid ->
  updatePlayer sid (fun _ => b) (updatePlayer sid (fun _ => a) ps)
  = updatePlayer sid (fun _ => b) ps.
Proof.
  intros Hid. induction ps as [|q rest IH]; cbn; [reflexivity|].
  destruct (id q =? sid)%string eqn:E; cbn.
  - rewrite Hid, String.eqb_refl. reflexivity.
  - rewrite E, IH. reflexivity.
Qed.

(** At most one of the four keys is the one received. *)
Ltac by_key c :=
  destruct (c =? "q")%string eqn:Eq; destruct (c =? "w")%string eqn:Ew;
  destruct (c =? "e")%string eqn:Ee; destruct (c =? "r")%string eqn:Er;
  try (apply String.eqb_eq in Eq); try (apply String.eqb_eq in Ew);
  try (apply String.eqb_eq in Ee); try (apply String.eqb_eq in Er);
  try congruence;
  cbv beta iota zeta delta [andb].

(** What [useAbility] leaves alone, and that it keeps the cooldowns in range. *)
Lemma useAbility_frame (now : R) (sid c : string) (p : Player)
    (slimes : list SlimeArea) (slimeId : R) :
  let p' := fst (Server.useAbility now sid c p slimes slimeId) in
  id p' = id p /\ input p' = input p /\ position p' = position p
  /\ lives p' = lives p /\ isDead p' = isDead p /\ score p' = score p
  /\ (cooldownsOk p -> cooldownsOk p').
Proof.
  cbv zeta. unfold Server.useAbility, cooldownsOk.
  by_key c;
    match goal with
    | |- context [if ?b then _ else _] => destruct b
    | _ => idtac
    end;
    destruct p; fields; cbn [fst];
    (repeat (split; [reflexivity|])); intros (? & ? & ? & ?);
    (repeat split); lra.
Qed.

Lemma ability_ready (c key : string) (cd : R) :
  (c =? key)%string && (cd <=? 0) = true <-> c = key /\ cd <= 0.
Proof.
  rewrite andb_true_iff, String.eqb_eq. unfold JS.leb.
  destruct (Rle_dec cd 0); intuition (try discriminate; try lra).
Qed.

Lemma ability_not_ready (c key : string) (cd : R) :
  (c =? key)%string && (cd <=? 0) = false <-> ~ (c = key /\ cd <= 0).
Proof.
  rewrite <- ability_ready. destruct ((c =? key)%string && (cd <=? 0));
    intuition (try discriminate; try congruence).
Qed.

(** The effect of each of the four keys, and of none. *)
Lemma useAbility_effects (now : R) (sid c : string) (p : Player)
    (slimes : list SlimeArea) (slimeId : R) :
  let p' := fst (Server.useAbility now sid c p slimes slimeId) in
  let slimes' := snd (Server.useAbility now sid c p slimes slimeId) in
  (if (c =? "q")%string && (dashCooldown p <=? 0)
   then dashCooldown p' = 8000 /\ speed p' = BASE_SPEED * 2.5
        /\ speedBoostEndTime p' = now + 300
   else dashCooldown p' = dashCooldown p /\ speed p' = speed p
        /\ speedBoostEndTime p' = speedBoostEndTime p)
  /\ shieldCooldown p'
     = (if (c =? "w")%string && (shieldCooldown p <=? 0)
        then 20000 else shieldCooldown p)
  /\ smokeCooldown p'
     = (if (c =? "e")%string && (smokeCooldown p <=? 0)
        then 12000 else smokeCooldown p)
  /\ slimeCooldown p'
     = (if (c =? "r")%string && (slimeCooldown p <=? 0)
        then 15000 else slimeCooldown p)
  /\ slimes'
     = (if (c =? "r")%string && (slimeCooldown p <=? 0)
        then slimes ++ [{| slime_id := slimeId; ownerId := sid;
                           slime_x := x (position p); slime_y := y (position p);
                           slime_radius := SLIME_RADIUS; spawnTime := now;
                           duration := 3000 |}]
        else slimes)%list.
Proof.
  cbv zeta. unfold Server.useAbility.
  by_key c;
    match goal with
    | |- context [if ?b then _ else _] => destruct b
    | _ => idtac
    end;
    destruct p; fields; cbn [fst snd]; repeat split; reflexivity.
Qed.

(** The room after [handleInput] from a socket that has an avatar [p]. *)
Lemma handleInput_known (rnd : nat -> R) (now : R) (socketId : string)
    (data : Server.InputData) (k : nat) (r : GameRoom) (p : Player) :
  lookupPlayer socketId (players r) = Some p ->
  let p0 := set_input (vec (Server.in_x data) (Server.in_y data)) p in
  exists (p' : Player) (slimes' : list SlimeArea) (k' : nat),
    Server.handleInput rnd now socketId data k r
    = (set_slimeAreas slimes'
         (set_players (updatePlayer socketId (fun _ => p') (players r)) r), k')
    /\ (match Server.key data with
        | Some c =>
            if JS.truthy (Server.key data) && negb (isSilenced p)
            then p' = fst (Server.useAbility now socketId c p0 (slimeAreas r) (rnd k))
                 /\ slimes' = snd (Server.useAbility now socketId c p0
                                     (slimeAreas r) (rnd k))
                 /\ k' = (if (c =? "r")%string && (slimeCooldown p <=? 0)
                          then S k else k)
            else p' = p0 /\ slimes' = slimeAreas r /\ k' = k
        | None => p' = p0 /\ slimes' = slimeAreas r /\ k' = k
        end).
Proof.
  intros Hl. cbv zeta. unfold Server.handleInput. rewrite Hl.
  pose proof (lookupPlayer_id _ _ _ Hl) as Hid.
  set (p0 := set_input (vec (Server.in_x data) (Server.in_y data)) p).
  assert (Hid0 : id p0 = socketId) by (subst p0; destruct p; exact Hid).
  assert (Hs0 : isSilenced p0 = isSilenced p) by (subst p0; destruct p; reflexivity).
  assert (Hc0 : slimeCooldown p0 = slimeCooldown p)
    by (subst p0; destruct p; reflexivity).
  assert (Hnop : set_slimeAreas (slimeAreas r)
                   (set_players (updatePlayer socketId (fun _ => p0) (players r)) r)
                 = set_players (updatePlayer socketId (fun _ => p0) (players r)) r)
    by (destruct r; reflexivity).
  cbv zeta. rewrite Hs0.
  destruct (Server.key data) as [c|] eqn:Hk.
  - destruct (JS.truthy (Some c)) eqn:Ht; cbn [andb].
    + destruct (isSilenced p) eqn:Hs; cbn [negb].
      * exists p0, (slimeAreas r), k. rewrite Hnop. auto.
      * assert (Hsl : slimeAreas (set_players
                        (updatePlayer socketId (fun _ => p0) (players r)) r)
                      = slimeAreas r) by (destruct r; reflexivity).
        rewrite Hsl, Hc0.
        destruct (Server.useAbility now socketId c p0 (slimeAreas r) (rnd k))
          as [p' slimes'] eqn:Hu.
        exists p', slimes',
          (if (c =? "r")%string && (slimeCooldown p <=? 0) then S k else k).
        split; [|cbn [fst snd]; auto].
        f_equal. f_equal.
        assert (Hpl : players (set_players
                         (updatePlayer socketId (fun _ => p0) (players r)) r)
                      = updatePlayer socketId (fun _ => p0) (players r))
          by (destruct r; reflexivity).
        rewrite Hpl.
        assert (Htw : updatePlayer socketId (fun _ => p')
                        (updatePlayer socketId (fun _ => p0) (players r))
                      = updatePlayer socketId (fun _ => p') (players r))
          by (apply updatePlayer_const_twice; exact Hid0).
        rewrite Htw. destruct r; reflexivity.
    + exists p0, (slimeAreas r), k. rewrite Hnop. auto.
  - cbn. exists p0, (slimeAreas r), k. rewrite Hnop. auto.
Qed.

(** X17. [handleInput] does nothing for a socket without an avatar in the
    room.  Otherwise it sets the sender's movement target to the coordinates
    received and touches no other avatar, nor the order of the avatars, the
    potatoes, the pickups, the obstacles or the state of the room; the sender
    keeps its position, lives, score and death flag (a dead avatar's commands
    are not refused), and cooldowns within range stay within range.  Without
    a key, with an empty key, or while the sender is silenced, nothing but the
    target changes. *)
Theorem X17_handleInput (rnd : nat -> R) (now : R) (socketId : string)
    (data : Server.InputData) (k : nat) (r : GameRoom) :
  let r' := fst (Server.handleInput rnd now socketId data k r) in
  let k' := snd (Server.handleInput rnd now socketId data k r) in
  (lookupPlayer socketId (players r) = None -> r' = r /\ k' = k)
  /\ (forall sid, sid <> socketId ->
                  lookupPlayer sid (players r') = lookupPlayer sid (players r))
  /\ map id (players r') = map id (players r)
  /\ (potatoes r' = potatoes r /\ powerups r' = powerups r
      /\ obstacles r' = obstacles r /\ state r' = state r
      /\ hostId r' = hostId r)
  /\ (forall p, lookupPlayer socketId (players r) = Some p ->
      exists p', lookupPlayer socketId (players r') = Some p'
        /\ input p' = vec (Server.in_x data) (Server.in_y data)
        /\ id p' = id p /\ position p' = position p /\ lives p' = lives p
        /\ isDead p' = isDead p /\ score p' = score p
        /\ (cooldownsOk p -> cooldownsOk p')
        /\ (JS.truthy (Server.key data) = false \/ isSilenced p = true ->
            p' = set_input (vec (Server.in_x data) (Server.in_y data)) p
            /\ slimeAreas r' = slimeAreas r /\ k' = k)).
Proof.
  cbv zeta.
  destruct (lookupPlayer socketId (players r)) as [p|] eqn:Hl.
  - destruct (handleInput_known rnd now socketId data k r p Hl)
      as (p' & slimes' & k' & -> & Hcase).
    cbv zeta in Hcase. cbn [fst snd].
    pose proof (lookupPlayer_id _ _ _ Hl) as Hid.
    set (p0 := set_input (vec (Server.in_x data) (Server.in_y data)) p) in *.
    assert (H0 : id p0 = id p /\ input p0 = vec (Server.in_x data) (Server.in_y data)
                 /\ position p0 = position p /\ lives p0 = lives p
                 /\ isDead p0 = isDead p /\ score p0 = score p
                 /\ (cooldownsOk p -> cooldownsOk p0))
      by (subst p0; destruct p; unfold cooldownsOk; fields;
          repeat (split; [reflexivity|]); tauto).
    assert (Hfr : id p' = id p /\ input p' = vec (Server.in_x data) (Server.in_y data)
                  /\ position p' = position p /\ lives p' = lives p
                  /\ isDead p' = isDead p /\ score p' = score p
                  /\ (cooldownsOk p -> cooldownsOk p')).
    { destruct (Server.key data) as [c|];
        [destruct (JS.truthy (Some c) && negb (isSilenced p))|];
        try (destruct Hcase as (-> & _ & _); exact H0).
      destruct Hcase as (-> & _ & _).
      pose proof (useAbility_frame now socketId c p0 (slimeAreas r) (rnd k)) as F.
      cbv zeta in F.
      destruct H0 as (A1 & A2 & A3 & A4 & A5 & A6 & A7).
      destruct F as (F1 & F2 & F3 & F4 & F5 & F6 & F7).
      repeat (split; [congruence|]). auto. }
    assert (Hid' : id p' = socketId) by (destruct Hfr as [-> _]; exact Hid).
    assert (Hpl : players (set_slimeAreas slimes'
                    (set_players (updatePlayer socketId (fun _ => p') (players r)) r))
                  = updatePlayer socketId (fun _ => p') (players r))
      by (destruct r; reflexivity).
    rewrite Hpl.
    split; [discriminate|].
    split; [intros sid Hne; apply lookup_update_const_other; assumption|].
    split; [apply updatePlayer_const_ids; exact Hid'|].
    split; [destruct r; repeat split; reflexivity|].
    intros q Hq. injection Hq as <-. exists p'.
    split; [rewrite lookup_update_same by exact Hid'; rewrite Hl; reflexivity|].
    destruct Hfr as (F1 & F2 & F3 & F4 & F5 & F6 & F7).
    repeat (split; [assumption|]).
    assert (Hsl : slimeAreas (set_slimeAreas slimes'
                    (set_players (updatePlayer socketId (fun _ => p') (players r)) r))
                  = slimes') by (destruct r; reflexivity).
    rewrite Hsl. intros Hq.
    destruct (Server.key data) as [c|]; [|exact Hcase].
    destruct (JS.truthy (Some c)); [|exact Hcase].
    destruct (isSilenced p); [exact Hcase|].
    destruct Hq; discriminate.
  - unfold Server.handleInput. rewrite Hl. cbn [fst snd].
    split; [auto|]. split; [reflexivity|]. split; [reflexivity|].
    split; [repeat split|]. intros p Hp; discriminate.
Qed.

(** X18. A key from an avatar that is not silenced triggers the ability it
    names when that ability's cooldown has run out, and nothing else: [q]
    starts the 8 s dash cooldown with speed 625 for 300 ms, [w] the 20 s shield
    cooldown, [e] the 12 s smoke cooldown, [r] the 15 s slime cooldown and
    leaves a puddle of radius 80 for 3 s where the avatar stands, drawing one
    random number for its id.  An ability still cooling down, or any other
    key, changes neither the avatar's cooldowns and speed nor the puddles. *)
Theorem X18_abilities (rnd : nat -> R) (now : R) (socketId c : string)
    (data : Server.InputData) (k : nat) (r : GameRoom) (p : Player) :
  lookupPlayer socketId (players r) = Some p ->
  isSilenced p = false ->
  Server.key data = Some c -> c <> EmptyString ->
  let r' := fst (Server.handleInput rnd now socketId data k r) in
  let k' := snd (Server.handleInput rnd now socketId data k r) in
  exists p', lookupPlayer socketId (players r') = Some p'
    /\ (c = "q"%string /\ dashCooldown p <= 0 ->
        dashCooldown p' = 8000 /\ speed p' = 625
        /\ speedBoostEndTime p' = now + 300)
    /\ (c = "w"%string /\ shieldCooldown p <= 0 -> shieldCooldown p' = 20000)
    /\ (c = "e"%string /\ smokeCooldown p <= 0 -> smokeCooldown p' = 12000)
    /\ (c = "r"%string /\ slimeCooldown p <= 0 ->
        slimeCooldown p' = 15000 /\ k' = S k
        /\ slimeAreas r'
           = (slimeAreas r
              ++ [{| slime_id := rnd k; ownerId := socketId;
                     slime_x := x (position p); slime_y := y (position p);
                     slime_radius := 80; spawnTime := now;
                     duration := 3000 |}])%list)
    /\ (~ (c = "q"%string /\ dashCooldown p <= 0) ->
        dashCooldown p' = dashCooldown p /\ speed p' = speed p
        /\ speedBoostEndTime p' = speedBoostEndTime p)
    /\ (~ (c = "w"%string /\ shieldCooldown p <= 0) ->
        shieldCooldown p' = shieldCooldown p)
    /\ (~ (c = "e"%string /\ smokeCooldown p <= 0) ->
        smokeCooldown p' = smokeCooldown p)
    /\ (~ (c = "r"%string /\ slimeCooldown p <= 0) ->
        slimeCooldown p' = slimeCooldown p /\ k' = k
        /\ slimeAreas r' = slimeAreas r).
Proof.
  intros Hl Hs Hk Hc. cbv zeta.
  destruct (handleInput_known rnd now socketId data k r p Hl)
    as (p' & slimes' & k' & -> & Hcase).
  cbv zeta in Hcase. rewrite Hk, Hs in Hcase.
  assert (Ht : JS.truthy (Some c) = true)
    by (cbn; apply negb_true_iff, String.eqb_neq; exact Hc).
  rewrite Ht in Hcase. cbn [andb negb] in Hcase.
  destruct Hcase as (Hp' & Hsl & Hk').
  set (p0 := set_input (vec (Server.in_x data) (Server.in_y data)) p) in *.
  pose proof (useAbility_frame now socketId c p0 (slimeAreas r) (rnd k)) as F.
  pose proof (useAbility_effects now socketId c p0 (slimeAreas r) (rnd k)) as E.
  cbv zeta in F, E. rewrite <- Hp', <- Hsl in E. rewrite <- Hp' in F.
  assert (H0 : id p0 = id p /\ dashCooldown p0 = dashCooldown p
               /\ shieldCooldown p0 = shieldCooldown p
               /\ smokeCooldown p0 = smokeCooldown p
               /\ slimeCooldown p0 = slimeCooldown p
               /\ speed p0 = speed p
               /\ speedBoostEndTime p0 = speedBoostEndTime p
               /\ position p0 = position p)
    by (subst p0; destruct p; fields; repeat split).
  destruct H0 as (I0 & I1 & I2 & I3 & I4 & I5 & I6 & I7).
  rewrite I1, I2, I3, I4, I5, I6, I7 in E.
  destruct E as (E1 & E2 & E3 & E4 & E5).
  cbn [fst snd].
  assert (Hid' : id p' = socketId)
    by (destruct F as [-> _]; rewrite I0; exact (lookupPlayer_id _ _ _ Hl)).
  assert (Hpl : players (set_slimeAreas slimes'
                  (set_players (updatePlayer socketId (fun _ => p') (players r)) r))
                = updatePlayer socketId (fun _ => p') (players r))
    by (destruct r; reflexivity).
  assert (Hsa : slimeAreas (set_slimeAreas slimes'
                  (set_players (updatePlayer socketId (fun _ => p') (players r)) r))
                = slimes') by (destruct r; reflexivity).
  rewrite Hpl, Hsa. exists p'.
  split; [rewrite lookup_update_same by exact Hid'; rewrite Hl; reflexivity|].
  split.
  { intros H. apply ability_ready in H. rewrite H in E1.
    unfold BASE_SPEED in E1. destruct E1 as (? & ? & ?).
    repeat split; [assumption|lra|assumption]. }
  split; [intros H; apply ability_ready in H; rewrite H in E2; exact E2|].
  split; [intros H; apply ability_ready in H; rewrite H in E3; exact E3|].
  split.
  { intros H. apply ability_ready in H. rewrite H in E4, E5, Hk'.
    unfold SLIME_RADIUS in E5. auto. }
  split; [intros H; apply ability_not_ready in H; rewrite H in E1; exact E1|].
  split; [intros H; apply ability_not_ready in H; rewrite H in E2; exact E2|].
  split; [intros H; apply ability_not_ready in H; rewrite H in E3; exact E3|].
  intros H. apply ability_not_ready in H. rewrite H in E4, E5, Hk'. auto.
Qed.

Lemma X18_abilities_witness :
  let data := {| Server.in_x := 500; Server.in_y := 100;
                 Server.key := Some "r"%string |} in
  let r' := fst (Server.handleInput tenth 10 "a" data 0 arena) in
  let k' := snd (Server.handleInput tenth 10 "a" data 0 arena) in
  exists p', lookupPlayer "a" (players r') = Some p'
    /\ ("r"%string = "q"%string /\ dashCooldown watcher <= 0 ->
        dashCooldown p' = 8000 /\ speed p' = 625
        /\ speedBoostEndTime p' = 10 + 300)
    /\ ("r"%string = "w"%string /\ shieldCooldown watcher <= 0 ->
        shieldCooldown p' = 20000)
    /\ ("r"%string = "e"%string /\ smokeCooldown watcher <= 0 ->
        smokeCooldown p' = 12000)
    /\ ("r"%string = "r"%string /\ slimeCooldown watcher <= 0 ->
        slimeCooldown p' = 15000 /\ k' = 1%nat
        /\ slimeAreas r'
           = (slimeAreas arena
              ++ [{| slime_id := tenth 0%nat; ownerId := "a";
                     slime_x := x (position watcher);
                     slime_y := y (position watcher);
                     slime_radius := 80; spawnTime := 10;
                     duration := 3000 |}])%list)
    /\ (~ ("r"%string = "q"%string /\ dashCooldown watcher <= 0) ->
        dashCooldown p' = dashCooldown watcher /\ speed p' = speed watcher
        /\ speedBoostEndTime p' = speedBoostEndTime watcher)
    /\ (~ ("r"%string = "w"%string /\ shieldCooldown watcher <= 0) ->
        shieldCooldown p' = shieldCooldown watcher)
    /\ (~ ("r"%string = "e"%string /\ smokeCooldown watcher <= 0) ->
        smokeCooldown p' = smokeCooldown watcher)
    /\ (~ ("r"%string = "r"%string /\ slimeCooldown watcher <= 0) ->
        slimeCooldown p' = slimeCooldown watcher /\ k' = 0%nat
        /\ slimeAreas r' = slimeAreas arena).
Proof.
  apply (X18_abilities tenth 10 "a" "r"
           {| Server.in_x := 500; Server.in_y := 100;
              Server.key := Some "r"%string |} 0 arena watcher).
  - reflexivity.
  - reflexivity.
  - reflexivity.
  - discriminate.
Defined.

(** ** The life of a puddle *)

(** X9. A puddle lasts three seconds from the command that laid it.  When an
    avatar that is not silenced and whose slime ability is ready sends the key
    [r] at time [t0], the puddle is appended to the room's puddles; the next
    tick, at time [now], keeps it exactly when [now < t0 + 3000], together
    with the older puddles that have not run out, in their order; no phase of
    the tick adds a puddle, and none that has run out survives it. *)
Theorem X9_puddles_expire (rnd : nat -> R) (t0 now : R) (socketId : string)
    (data : Server.InputData) (k : nat) (r : GameRoom) (p : Player) :
  state r = PLAYING ->
  lookupPlayer socketId (players r) = Some p ->
  isSilenced p = false ->
  Server.key data = Some "r"%string ->
  slimeCooldown p <= 0 ->
  let r1 := fst (Server.handleInput rnd t0 socketId data k r) in
  let k1 := snd (Server.handleInput rnd t0 socketId data k r) in
  let r2 := fst (fst (fst (Server.update rnd now k1 r1))) in
  let puddle := {| slime_id := rnd k; ownerId := socketId;
                   slime_x := x (position p); slime_y := y (position p);
                   slime_radius := 80; spawnTime := t0; duration := 3000 |} in
  slimeAreas r1 = (slimeAreas r ++ [puddle])%list
  /\ slimeAreas r2
     = (filter (fun s => now <? spawnTime s + duration s) (slimeAreas r)
        ++ (if now <? t0 + 3000 then [puddle] else []))%list
  /\ (In puddle (slimeAreas r2) <-> now < t0 + 3000)
  /\ Forall (fun s => now < spawnTime s + duration s) (slimeAreas r2).
Proof.
  intros Hs Hl Hsil Hk Hcd. cbv zeta.
  destruct (handleInput_known rnd t0 socketId data k r p Hl)
    as (p' & slimes' & k' & -> & Hcase).
  cbv zeta in Hcase. rewrite Hk, Hsil in Hcase.
  change (JS.truthy (Some "r"%string)) with true in Hcase.
  cbn [andb negb] in Hcase. destruct Hcase as (_ & Hsl & _).
  set (p0 := set_input (vec (Server.in_x data) (Server.in_y data)) p) in *.
  pose proof (useAbility_effects t0 socketId "r" p0 (slimeAreas r) (rnd k)) as E.
  cbv zeta in E. destruct E as (_ & _ & _ & _ & E5). rewrite <- Hsl in E5.
  assert (H0 : slimeCooldown p0 = slimeCooldown p /\ position p0 = position p)
    by (subst p0; destruct p; fields; split; reflexivity).
  destruct H0 as [I1 I2]. rewrite I1, I2 in E5.
  assert (Hready : ("r" =? "r")%string && (slimeCooldown p <=? 0) = true)
    by (apply ability_ready; split; [reflexivity|exact Hcd]).
  rewrite Hready in E5. unfold SLIME_RADIUS in E5.
  cbn [fst snd].
  set (r1 := set_slimeAreas slimes'
               (set_players (updatePlayer socketId (fun _ => p') (players r)) r)).
  assert (Hs1 : state r1 = PLAYING) by (subst r1; destruct r; exact Hs).
  assert (Hsl1 : slimeAreas r1 = slimes') by (subst r1; destruct r; reflexivity).
  assert (H2 : slimeAreas (fst (fst (fst (Server.update rnd now k' r1))))
               = (filter (fun s => now <? spawnTime s + duration s) (slimeAreas r)
                  ++ (if now <? t0 + 3000
                      then [{| slime_id := rnd k; ownerId := socketId;
                               slime_x := x (position p);
                               slime_y := y (position p);
                               slime_radius := 80; spawnTime := t0;
                               duration := 3000 |}]
                      else []))%list).
  { rewrite (update_slimes rnd now k' r1 Hs1), Hsl1, E5, filter_app.
    reflexivity. }
  split; [rewrite Hsl1; exact E5|]. split; [exact H2|].
  split.
  - rewrite H2, in_app_iff, filter_In. split.
    + intros [[_ H]|H].
      * apply ltb_true in H. exact H.
      * destruct (now <? t0 + 3000) eqn:E; [apply ltb_true; exact E|destruct H].
    + intros H. right. apply ltb_true in H. rewrite H. left; reflexivity.
  - rewrite (update_slimes rnd now k' r1 Hs1).
    apply Forall_forall. intros s Hin. apply filter_In in Hin.
    apply ltb_true. apply Hin.
Qed.

(** The avatar of [arena] lays a puddle at time 10; the tick at 33 keeps it,
    a tick at 3010 would not. *)
Lemma X9_puddles_expire_witness :
  let data := {| Server.in_x := 500; Server.in_y := 100;
                 Server.key := Some "r"%string |} in
  let r1 := fst (Server.handleInput tenth 10 "a" data 0 arena) in
  let k1 := snd (Server.handleInput tenth 10 "a" data 0 arena) in
  let puddle := {| slime_id := tenth 0%nat; ownerId := "a";
                   slime_x := x (position watcher);
                   slime_y := y (position watcher);
                   slime_radius := 80; spawnTime := 10; duration := 3000 |} in
  (slimeAreas r1 = (slimeAreas arena ++ [puddle])%list
   /\ slimeAreas (fst (fst (fst (Server.update tenth 33 k1 r1))))
      = (filter (fun s => 33 <? spawnTime s + duration s) (slimeAreas arena)
         ++ (if 33 <? 10 + 3000 then [puddle] else []))%list
   /\ (In puddle (slimeAreas (fst (fst (fst (Server.update tenth 33 k1 r1)))))
       <-> 33 < 10 + 3000)
   /\ Forall (fun s => 33 < spawnTime s + duration s)
        (slimeAreas (fst (fst (fst (Server.update tenth 33 k1 r1))))))
  /\ (slimeAreas r1 = (slimeAreas arena ++ [puddle])%list
      /\ slimeAreas (fst (fst (fst (Server.update tenth 3010 k1 r1))))
         = (filter (fun s => 3010 <? spawnTime s + duration s) (slimeAreas arena)
            ++ (if 3010 <? 10 + 3000 then [puddle] else []))%list
      /\ (In puddle (slimeAreas (fst (fst (fst (Server.update tenth 3010 k1 r1)))))
          <-> 3010 < 10 + 3000)
      /\ Forall (fun s => 3010 < spawnTime s + duration s)
           (slimeAreas (fst (fst (fst (Server.update tenth 3010 k1 r1)))))).
Proof.
  assert (Hcd : slimeCooldown watcher <= 0) by (cbn; lra).
  split.
  - exact (X9_puddles_expire tenth 10 33 "a"
             {| Server.in_x := 500; Server.in_y := 100;
                Server.key := Some "r"%string |} 0 arena watcher
             eq_refl eq_refl eq_refl eq_refl Hcd).
  - exact (X9_puddles_expire tenth 10 3010 "a"
             {| Server.in_x := 500; Server.in_y := 100;
                Server.key := Some "r"%string |} 0 arena watcher
             eq_refl eq_refl eq_refl eq_refl Hcd).
Defined.

(** ** A potato meets an avatar *)

(** A full shield cooldown means a shield for the next three seconds. *)
Lemma shield_window (now dt : R) (slimes : list SlimeArea) (q : Player) :
  shieldCooldown q = 20000 -> 0 <= dt -> dt * 1000 < 3000 ->
  puddles q slimes = 0%nat ->
  isShielded (Server.updateStatus now dt slimes q) = true.
Proof.
  intros Hc Hdt Hlt Hn. rewrite updateStatus_formula. cbv zeta.
  rewrite Hn. cbn [Nat.eqb]. clear Hn.
  assert (Hg : (Rmax 0 (shieldCooldown q - dt * 1000) >? 17000) = true).
  { apply gtb_true. rewrite Hc. unfold Rmax.
    destruct (Rle_dec 0 (20000 - dt * 1000)); lra. }
  destruct q; fields. exact Hg.
Qed.

(** X20. What a potato does to an avatar in [checkCollisions].  Nothing, when
    the avatar is dead or out of reach.  In contact, a shielded avatar is
    unharmed and freezes the potato for one second, unless it is frozen
    already; an unshielded ghost, or any unshielded avatar met by a frozen
    potato, is left alone; otherwise the avatar loses exactly one life.  On
    its last life it dies where it stands and the speed multiplier grows by
    0.1; with lives to spare it is moved to the point [findSafeSpawn] returns
    and its shield cooldown is set to 20000, which shields it in every tick of
    the next three seconds that does not find it in a foreign puddle. *)
Theorem X20_hit (rnd : nat -> R) (now : R) (walls : list Obstacle)
    (potato : Potato) (p : Player) (m : R) (k : nat) :
  let h := Server.hit rnd now walls potato p m k in
  let potato' := fst (fst (fst h)) in
  let p' := snd (fst (fst h)) in
  let m' := snd (fst h) in
  let k' := snd h in
  (isDead p = true \/ ~ contact potato p -> h = (potato, p, m, k))
  /\ (isDead p = false -> contact potato p ->
      (isShielded p = true ->
       p' = p /\ m' = m /\ k' = k /\ isFrozen potato' = true
       /\ pot_position potato' = pot_position potato
       /\ (isFrozen potato = false -> freezeEndTime potato' = now + 1000)
       /\ (isFrozen potato = true -> potato' = potato))
      /\ (isShielded p = false ->
          isGhost p = true \/ isFrozen potato = true -> h = (potato, p, m, k))
      /\ (isShielded p = false -> isGhost p = false -> isFrozen potato = false ->
          potato' = potato /\ lives p' = (lives p - 1)%Z
          /\ id p' = id p /\ score p' = score p
          /\ ((lives p <= 1)%Z ->
              isDead p' = true /\ position p' = position p
              /\ m' = m + 0.1 /\ k' = k)
          /\ ((1 < lives p)%Z ->
              isDead p' = false /\ m' = m
              /\ position p' = fst (Server.findSafeSpawn rnd walls k)
              /\ k' = snd (Server.findSafeSpawn rnd walls k)
              /\ shieldCooldown p' = 20000
              /\ forall (now' dt : R) (slimes : list SlimeArea),
                   0 <= dt -> dt * 1000 < 3000 ->
                   puddles p' slimes = 0%nat ->
                   isShielded (Server.updateStatus now' dt slimes p') = true))).
Proof.
  cbv zeta. unfold contact, potatoDistance, Server.hit.
  destruct (isDead p) eqn:Hd.
  { split; [reflexivity|discriminate]. }
  cbv zeta.
  destruct (JS.hypot (x (position p) - x (pot_position potato))
                     (y (position p) - y (pot_position potato))
            <? radius p + pot_radius potato) eqn:Hc.
  2:{ apply ltb_false in Hc. split; [reflexivity|]. intros _ H. lra. }
  apply ltb_true in Hc.
  split; [intros [H|H]; [discriminate|contradiction]|].
  intros _ _.
  destruct (isShielded p) eqn:Hs.
  - split; [|split; intros; discriminate]. intros _.
    destruct (isFrozen potato) eqn:Hf; cbn [negb fst snd].
    + repeat (split; [first [reflexivity | exact Hf | discriminate]|]).
      reflexivity.
    + destruct potato; cbn in *.
      repeat (split; [reflexivity|]). discriminate.
  - split; [discriminate|].
    split.
    + intros _ [Hg|Hf]; [rewrite Hg|rewrite Hf];
        rewrite ?andb_false_r; reflexivity.
    + intros _ Hg Hf. rewrite Hg, Hf. cbn [negb andb].
      assert (Hl : lives (set_lives (lives p - 1) p) = (lives p - 1)%Z)
        by (destruct p; reflexivity).
      rewrite Hl.
      destruct (lives p - 1 <=? 0)%Z eqn:Hz.
      * apply Z.leb_le in Hz. cbn [fst snd].
        split; [reflexivity|].
        split; [destruct p; reflexivity|].
        split; [destruct p; reflexivity|].
        split; [destruct p; reflexivity|].
        split; [|intros; lia].
        intros _. split; [destruct p; reflexivity|].
        split; [destruct p; reflexivity|]. split; reflexivity.
      * apply Z.leb_gt in Hz.
        destruct (Server.findSafeSpawn rnd walls k) as [pos k'] eqn:Hsp.
        cbn [fst snd].
        split; [reflexivity|].
        split; [destruct p; reflexivity|].
        split; [destruct p; reflexivity|].
        split; [destruct p; reflexivity|].
        split; [intros; lia|].
        intros _. split; [destruct p; cbn in *; exact Hd|].
        split; [reflexivity|].
        split; [destruct p; reflexivity|].
        split; [reflexivity|].
        split; [destruct p; reflexivity|].
        intros now' dt slimes Hdt Hlt Hn.
        apply shield_window; try assumption. destruct p; reflexivity.
Qed.

(** ** The end of a round *)

Lemma tickPlayers_counts (now dt : R) (slimes : list SlimeArea)
    (obstacles : list Obstacle) (ps : list Player) :
  forall (pots : list Potato) (n : nat) (w : option string),
    snd (fst (Server.tickPlayers now dt slimes obstacles ps pots n w))
    = (n + List.length (living ps))%nat
    /\ snd (Server.tickPlayers now dt slimes obstacles ps pots n w)
       = fold_left (fun _ p => Some (id p)) (living ps) w.
Proof.
  induction ps as [|p rest IH]; intros pots n w.
  - rewrite tickPlayers_nil. cbn. split; [lia|reflexivity].
  - rewrite tickPlayers_cons. cbv zeta.
    destruct (Server.tickPlayer now dt slimes obstacles p pots) as [p' pots'].
    specialize (IH pots' (if isDead p then n else S n)
                   (if isDead p then w else Some (id p))).
    destruct (Server.tickPlayers now dt slimes obstacles rest pots' _ _)
      as [[[rest' pots2] n2] w2].
    cbn [fst snd] in *. destruct IH as [-> ->].
    unfold living. cbn [filter]. destruct (isDead p); cbn; split; (lia || reflexivity).
Qed.

(** The head of the score ranking is the first avatar of highest score. *)
Lemma sortByScore_head (ps : list Player) :
  match Server.sortByScore ps with
  | [] => ps = []
  | t :: _ =>
      exists l1 l2 : list Player,
        ps = (l1 ++ t :: l2)%list
        /\ (forall q, In q l1 -> score q < score t)
        /\ (forall q, In q l2 -> score q <= score t)
  end.
Proof.
  induction ps as [|a ps IH]; [reflexivity|].
  unfold Server.sortByScore in *. cbn [fold_right].
  destruct (fold_right Server.insertByScore [] ps) as [|t rest].
  - subst ps. cbn. exists [], []. split; [reflexivity|]. split; intros q [].
  - destruct IH as (l1 & l2 & -> & H1 & H2). cbn [Server.insertByScore].
    destruct (score t <=? score a) eqn:E.
    + apply leb_true in E. exists [], (l1 ++ t :: l2)%list.
      split; [reflexivity|]. split; [intros q []|].
      intros q Hq. apply in_app_or in Hq.
      destruct Hq as [Hq|[<-|Hq]]; [specialize (H1 q Hq)|exact E|specialize (H2 q Hq)];
        lra.
    + apply leb_false in E. exists (a :: l1), l2.
      split; [reflexivity|]. split; [|exact H2].
      intros q [<-|Hq]; [exact E|apply H1; exact Hq].
Qed.

Lemma all_dead_unchanged (ps qs : list Player) :
  living ps = [] ->
  Forall2 (fun p p' => isDead p = true -> p' = p) ps qs -> qs = ps.
Proof.
  intros Hl H. induction H as [|p q ps qs Hp _ IH]; [reflexivity|].
  unfold living in Hl. cbn [filter] in Hl.
  destruct (isDead p) eqn:Hd; cbn in Hl; [|discriminate].
  rewrite (Hp eq_refl), (IH Hl). reflexivity.
Qed.

(** The branch [update] takes in a playing room, and what it returns. *)
Lemma update_verdict (rnd : nat -> R) (now : R) (k : nat) (r : GameRoom) :
  state r = PLAYING ->
  let u := Server.update rnd now k r in
  let r' := fst (fst (fst u)) in
  let alive := List.length (living (players r)) in
  let winner := fold_left (fun _ p => Some (id p)) (living (players r)) None in
  if (now - startTime r >? 3000) && negb (gameEnded r) && (alive <=? 1)%nat
  then state r' = GAME_OVER /\ gameEnded r' = true
       /\ snd (fst (fst u)) = k /\ snd (fst u) = []
       /\ snd u = Server.GameOver
                    (Server.finalWinner winner
                       (if (alive =? 1)%nat then winner else lastSurvivorId r)
                       (players r'))
  else snd u = Server.Running /\ state r' = PLAYING
       /\ gameEnded r' = gameEnded r.
Proof.
  intros Hs. cbv zeta. rewrite (update_playing rnd now k r Hs). cbv zeta.
  destruct (tickPlayers_counts now ((now - lastUpdate r) / 1000)
              (filter (fun s => now <? spawnTime s + duration s) (slimeAreas r))
              (obstacles r) (players r) (potatoes r) 0 None) as [Hn Hw].
  set (t := Server.tickPlayers _ _ _ _ _ _ _ _) in *.
  cbn [Nat.add] in Hn. rewrite Hn, Hw.
  destruct ((now - startTime r >? 3000) && negb (gameEnded r)
            && (List.length (living (players r)) <=? 1)%nat).
  - cbn [fst snd].
    destruct (List.length (living (players r)) =? 1)%nat;
      destruct r; rfields; repeat split; reflexivity.
  - destruct (negb (gameEnded r)) eqn:Hg.
    + cbn [fst snd]. split; [reflexivity|].
      match goal with
      | |- context [Server.updatePowerups rnd now k ?q] =>
          destruct (updatePowerups_slimes rnd now k q) as (_ & Hp & _);
          destruct (updatePowerups_frame rnd now k q) as (_ & _ & _ & Hq & _);
          destruct (checkCollisions_frame rnd now
                      (snd (Server.updatePowerups rnd now k q))
                      (fst (Server.updatePowerups rnd now k q)))
            as (_ & _ & _ & _ & Hc1 & Hc2 & _);
          cbv zeta in Hc1, Hc2, Hp, Hq; rewrite Hc1, Hc2, Hp, Hq
      end.
      destruct (List.length (living (players r)) =? 1)%nat;
        destruct r; rfields; split; assumption || reflexivity.
    + cbn [fst snd]. split; [reflexivity|].
      destruct (List.length (living (players r)) =? 1)%nat;
        destruct r; rfields; split; assumption || reflexivity.
Qed.


(** X21. The end of a round.  A tick of a playing room ends the round exactly
    when more than 3000 ms have passed since the start, the round has not
    ended before and at most one avatar was alive when the tick began; until
    then the room keeps playing, however few are alive.  When the round ends
    no random number is drawn and no timer started, and the winner is the
    avatar that was alive, if there was one; with nobody alive it is the
    survivor recorded by an earlier tick, and without one the first avatar of
    highest score, in iteration order (nobody in an empty room). *)
Theorem X21_game_over (rnd : nat -> R) (now : R) (k : nat) (r : GameRoom) :
  state r = PLAYING ->
  Forall (fun p => id p <> EmptyString) (players r) ->
  let u := Server.update rnd now k r in
  let r' := fst (fst (fst u)) in
  let alive := living (players r) in
  (now - startTime r <= 3000 \/ gameEnded r = true
   \/ (2 <= List.length alive)%nat ->
   snd u = Server.Running /\ state r' = PLAYING)
  /\ (3000 < now - startTime r -> gameEnded r = false ->
      (List.length alive <= 1)%nat ->
      state r' = GAME_OVER /\ gameEnded r' = true
      /\ snd (fst (fst u)) = k /\ snd (fst u) = []
      /\ (forall p, alive = [p] -> snd u = Server.GameOver (Some (id p)))
      /\ (alive = [] ->
          players r' = players r
          /\ (JS.truthy (lastSurvivorId r) = true ->
              snd u = Server.GameOver (lastSurvivorId r))
          /\ (JS.truthy (lastSurvivorId r) = false ->
              (players r = [] -> snd u = Server.GameOver (lastSurvivorId r))
              /\ (players r <> [] ->
                  exists (l1 : list Player) (t : Player) (l2 : list Player),
                    players r = (l1 ++ t :: l2)%list
                    /\ snd u = Server.GameOver (Some (id t))
                    /\ (forall q, In q l1 -> score q < score t)
                    /\ (forall q, In q l2 -> score q <= score t))))).
Proof.
  intros Hs Hids. cbv zeta.
  pose proof (update_verdict rnd now k r Hs) as V. cbv zeta in V.
  pose proof (update_dead_schema rnd now k r) as Hdead.
  split.
  - intros H.
    assert (Hc : (now - startTime r >? 3000) && negb (gameEnded r)
                 && (List.length (living (players r)) <=? 1)%nat = false).
    { destruct H as [H|[H|H]].
      - apply gtb_false in H. rewrite H. reflexivity.
      - rewrite H, andb_false_r. reflexivity.
      - apply Nat.leb_gt in H. rewrite H, andb_false_r. reflexivity. }
    rewrite Hc in V. destruct V as (V1 & V2 & _). split; assumption.
  - intros Ht Hg Hn.
    assert (Hc : (now - startTime r >? 3000) && negb (gameEnded r)
                 && (List.length (living (players r)) <=? 1)%nat = true).
    { apply gtb_true in Ht. apply Nat.leb_le in Hn. rewrite Ht, Hg, Hn.
      reflexivity. }
    rewrite Hc in V. destruct V as (V1 & V2 & V3 & V4 & V5).
    repeat (split; [assumption|]). split.
    + intros p Hp. rewrite V5, Hp. cbn [List.length Nat.eqb fold_left].
      unfold Server.finalWinner.
      assert (Hin : In p (players r)).
      { assert (H : In p (living (players r))) by (rewrite Hp; left; reflexivity).
        apply filter_In in H. apply H. }
      rewrite Forall_forall in Hids. specialize (Hids p Hin).
      assert (Htr : JS.truthy (Some (id p)) = true)
        by (cbn; apply negb_true_iff, String.eqb_neq; exact Hids).
      rewrite Htr. reflexivity.
    + intros Ha.
      assert (Hps : players (fst (fst (fst (Server.update rnd now k r))))
                    = players r) by (apply all_dead_unchanged; assumption).
      split; [exact Hps|].
      rewrite V5, Hps, Ha. cbn [List.length Nat.eqb fold_left].
      unfold Server.finalWinner. cbn [JS.truthy].
      split; [intros ->; reflexivity|].
      intros ->. pose proof (sortByScore_head (players r)) as Hh.
      destruct (Server.sortByScore (players r)) as [|t rest].
      * split; [reflexivity|]. intros Hne; contradiction.
      * split; [intros He; rewrite He in Hh; destruct Hh as (l1 & l2 & Hh & _);
                destruct l1; discriminate|].
        intros _. destruct Hh as (l1 & l2 & Hh & H1 & H2).
        exists l1, t, l2. auto.
Qed.

(** In [arena], 3033 ms after the start, the only avatar is the winner. *)
Lemma X21_game_over_witness :
  snd (Server.update tenth 3033 0 arena) = Server.GameOver (Some "a"%string)
  /\ state (fst (fst (fst (Server.update tenth 3033 0 arena)))) = GAME_OVER
  /\ (snd (Server.update tenth 33 0 arena) = Server.Running
      /\ state (fst (fst (fst (Server.update tenth 33 0 arena)))) = PLAYING).
Proof.
  assert (Hids : Forall (fun p => id p <> EmptyString) (players arena))
    by (repeat constructor; discriminate).
  pose proof (X21_game_over tenth 3033 0 arena eq_refl Hids) as [_ H].
  pose proof (X21_game_over tenth 33 0 arena eq_refl Hids) as [H0 _].
  cbv zeta in H, H0.
  destruct H as (Hst & _ & _ & _ & Hw & _); [cbn; lra|reflexivity|cbn; lia|].
  split; [exact (Hw watcher eq_refl)|]. split; [exact Hst|].
  apply H0. left. cbn; lra.
Defined.

(** ** The simulation loop *)

Lemma tickRoom_props (rnd : nat -> R) (now : R) (i : string) (room : GameRoom)
    (k : nat) :
  let t := Server.tickRoom rnd now i room k in
  let room' := fst (fst (fst t)) in
  ticked (i, room) (i, room')
  /\ (state room = WAITING -> snd (fst (fst t)) = k /\ snd (fst t) = [] /\ snd t = [])
  /\ (state room <> WAITING ->
      exists e, snd t = [e] /\ addressee e = Some i /\ tickMessage e)
  /\ (state room' = WAITING -> state room = PLAYING ->
      exists w, snd t = [Server.toRoom i (Server.game_over w (players room'))])
  /\ Forall (fun tm => Server.due tm = now + 5000 /\ Server.timer_room tm = i)
       (snd (fst t))
  /\ (state room <> PLAYING -> snd (fst t) = []).
Proof.
  cbv zeta. unfold Server.tickRoom, ticked. cbn [fst snd].
  destruct (state room) eqn:Hs.
  - cbn [fst snd]. split; [split; [reflexivity|split; [reflexivity|discriminate]]|].
    split; [auto|]. split; [congruence|]. split; [discriminate|].
    split; [constructor|reflexivity].
  - pose proof (update_verdict rnd now k room Hs) as V. cbv zeta in V.
    destruct (Server.update rnd now k room) as [[[r1 k1] started] res] eqn:Hu.
    cbn [fst snd] in V.
    assert (Ht : Forall (fun tm => Server.due tm = now + 5000
                                   /\ Server.timer_room tm = i)
                   (map (fun pid => {| Server.due := now + 5000;
                                       Server.timer_room := i;
                                       Server.timer_player := pid |}) started)).
    { apply Forall_forall. intros tm Hin. apply in_map_iff in Hin.
      destruct Hin as (pid & <- & _). split; reflexivity. }
    destruct (_ && _ && _).
    + destruct V as (V1 & V2 & V3 & V4 & V5). subst res. cbn [fst snd].
      assert (Hw : state (set_state WAITING r1) = WAITING
                   /\ gameEnded (set_state WAITING r1) = gameEnded r1
                   /\ players (set_state WAITING r1) = players r1)
        by (destruct r1; repeat split; reflexivity).
      destruct Hw as (W1 & W2 & W3).
      split; [split; [reflexivity|split; [discriminate|]]|].
      { intros _. right. rewrite W1, W2. auto. }
      split; [discriminate|].
      split; [intros _; eexists; split; [reflexivity|split; [reflexivity|exact I]]|].
      split; [|split; [exact Ht|congruence]].
      intros _ _. eexists. rewrite W3. reflexivity.
    + destruct V as (V1 & V2 & V3). subst res. cbn [fst snd].
      split; [split; [reflexivity|split; [discriminate|intros _; left; exact V2]]|].
      split; [discriminate|].
      split; [intros _; eexists; split; [reflexivity|split; [reflexivity|exact I]]|].
      split; [|split; [exact Ht|congruence]]. intros H; congruence.
  - rewrite update_idle by congruence. cbn [fst snd map].
    split; [split; [reflexivity|split; discriminate]|].
    split; [discriminate|].
    split; [intros _; eexists; split; [reflexivity|split; [reflexivity|exact I]]|].
    split; [discriminate|]. split; [constructor|reflexivity].
Qed.

Lemma tickRooms_props (rnd : nat -> R) (now : R) (rs : list (string * GameRoom)) :
  forall k : nat,
    let t := Server.tickRooms rnd now rs k in
    Forall2 ticked rs (fst (fst (fst t)))
    /\ map addressee (snd t)
       = map (fun ir => Some (fst ir))
             (filter (fun ir => match state (snd ir) with
                                | WAITING => false
                                | _ => true
                                end) rs)
    /\ Forall tickMessage (snd t)
    /\ Forall (fun tm => Server.due tm = now + 5000
                         /\ exists room, In (Server.timer_room tm, room) rs
                                         /\ state room = PLAYING)
         (snd (fst t)).
Proof.
  induction rs as [|[i room] rest IH]; intros k.
  - cbn. repeat split; constructor.
  - cbn [Server.tickRooms].
    pose proof (tickRoom_props rnd now i room k) as P. cbv zeta in P.
    destruct (Server.tickRoom rnd now i room k) as [[[room' k1] t1] e1].
    cbn [fst snd] in P. destruct P as (P1 & P2 & P3 & _ & P5 & P6).
    specialize (IH k1). cbv zeta in IH.
    destruct (Server.tickRooms rnd now rest k1) as [[[rest' k2] t2] e2].
    cbn [fst snd] in *. destruct IH as (I1 & I2 & I3 & I4).
    split; [constructor; assumption|].
    assert (Ht1 : t1 <> [] -> state room = PLAYING).
    { intros Hne. destruct (state room) eqn:Hs; [|reflexivity|];
        exfalso; apply Hne; apply P6; discriminate. }
    split; [|split].
    + rewrite map_app, I2. cbn [filter snd fst].
      destruct (state room) eqn:Hs.
      * destruct (P2 eq_refl) as (_ & _ & ->). reflexivity.
      * destruct P3 as (e & -> & He & _); [discriminate|].
        cbn. rewrite He. reflexivity.
      * destruct P3 as (e & -> & He & _); [discriminate|].
        cbn. rewrite He. reflexivity.
    + apply Forall_app. split; [|exact I3].
      destruct (state room) eqn:Hs.
      * destruct (P2 eq_refl) as (_ & _ & ->). constructor.
      * destruct P3 as (e & -> & _ & He); [discriminate|]. repeat constructor. exact He.
      * destruct P3 as (e & -> & _ & He); [discriminate|]. repeat constructor. exact He.
    + apply Forall_app. split.
      * destruct t1 as [|tm t1']; [constructor|].
        assert (Hs : state room = PLAYING) by (apply Ht1; discriminate).
        eapply Forall_impl; [|exact P5].
        intros a [Ha1 Ha2]. split; [exact Ha1|].
        exists room. rewrite Ha2. split; [left; reflexivity|exact Hs].
      * eapply Forall_impl; [|exact I4].
        intros a (Ha1 & room0 & Hin & Hs0). split; [exact Ha1|].
        exists room0. split; [right; exact Hin|exact Hs0].
Qed.

(** X22. One round of the simulation loop.  The room table keeps its keys, in
    order, and nobody's room membership changes.  A waiting room is not
    touched and gets no message.  Every other room gets exactly one broadcast,
    in table order: a snapshot without the obstacles, or the end of the round;
    a playing room is afterwards still playing, or back to waiting with its
    round marked as ended (the state [GAME_OVER] never outlives the tick that
    sets it).  Timers are only added, each due 5000 ms later and for a room
    that was playing. *)
Theorem X22_tick (rnd : nat -> R) (now : R) (w : Server.World) :
  let w' := fst (Server.tick rnd now w) in
  let es := snd (Server.tick rnd now w) in
  Forall2 ticked (Server.rooms w) (Server.rooms w')
  /\ Server.joined w' = Server.joined w
  /\ map addressee es
     = map (fun ir => Some (fst ir))
           (filter (fun ir => match state (snd ir) with
                              | WAITING => false
                              | _ => true
                              end) (Server.rooms w))
  /\ Forall tickMessage es
  /\ exists ts : list Server.GhostTimer,
       Server.timers w' = (Server.timers w ++ ts)%list
       /\ Forall (fun tm => Server.due tm = now + 5000
                            /\ exists room,
                                 In (Server.timer_room tm, room) (Server.rooms w)
                                 /\ state room = PLAYING) ts.
Proof.
  cbv zeta. unfold Server.tick.
  pose proof (tickRooms_props rnd now (Server.rooms w) (Server.cursor w)) as P.
  cbv zeta in P.
  destruct (Server.tickRooms rnd now (Server.rooms w) (Server.cursor w))
    as [[[rs k] ts] es].
  cbn [fst snd] in *. destruct P as (P1 & P2 & P3 & P4).
  split; [exact P1|]. split; [reflexivity|]. split; [exact P2|].
  split; [exact P3|]. exists ts. split; [reflexivity|exact P4].
Qed.

(** ** The room table and the lobby commands *)

Lemma lookupRoom_replace_same (i : string) (r q : GameRoom)
    (rs : list (string * GameRoom)) :
  Server.lookupRoom i rs = Some q ->
  Server.lookupRoom i (Server.replaceRoom i r rs) = Some r.
Proof.
  induction rs as [|[j p] rest IH]; cbn; [discriminate|].
  destruct (j =? i)%string eqn:E; cbn; rewrite E; [reflexivity|exact IH].
Qed.

Lemma lookupRoom_replace_other (i j : string) (r : GameRoom)
    (rs : list (string * GameRoom)) :
  j <> i ->
  Server.lookupRoom j (Server.replaceRoom i r rs) = Server.lookupRoom j rs.
Proof.
  intros Hne. induction rs as [|[l p] rest IH]; cbn; [reflexivity|].
  destruct (l =? i)%string eqn:E; cbn.
  - apply String.eqb_eq in E. subst l.
    destruct (i =? j)%string eqn:E'; [|reflexivity].
    apply String.eqb_eq in E'. congruence.
  - destruct (l =? j)%string; [reflexivity|exact IH].
Qed.

Lemma replaceRoom_keys (i : string) (r : GameRoom)
    (rs : list (string * GameRoom)) :
  map fst (Server.replaceRoom i r rs) = map fst rs.
Proof.
  induction rs as [|[l p] rest IH]; cbn; [reflexivity|].
  destruct (l =? i)%string; cbn; [reflexivity|rewrite IH; reflexivity].
Qed.

Lemma socketJoin_member (socketId roomId : string)
    (js : list (string * list string)) :
  In roomId (Server.socketRooms socketId (Server.socketJoin socketId roomId js)).
Proof.
  induction js as [|[s l] rest IH]; cbn.
  - rewrite String.eqb_refl. left; reflexivity.
  - destruct (s =? socketId)%string eqn:E; cbn; rewrite E; [|exact IH].
    destruct (existsb (String.eqb roomId) l) eqn:Ex.
    + apply existsb_exists in Ex. destruct Ex as (y & Hy & Heq).
      apply String.eqb_eq in Heq. subst y. exact Hy.
    + apply in_or_app. right. left; reflexivity.
Qed.

(** X23. [join_room] either refuses or admits, never anything in between.
    It refuses when the room does not exist or is not waiting (message [Room
    not found or game already in progress]) and when a waiting room already
    has [maxPlayers] avatars or more ([Room is full!]): the world is then
    unchanged, no random number is drawn and the only message is the error,
    to the requester.  Otherwise the requester gets an avatar in that room
    (as [addPlayer] makes it) and is subscribed to it, no other room changes,
    and four messages go out in this order: [room_joined] to the requester,
    never as host, [room_update] to the room, the public lobby list to everyone
    and a snapshot with the obstacles to the requester. *)
Theorem X23_join_room (rnd : nat -> R) (socketId roomId name color : string)
    (w : Server.World) :
  let w' := fst (Server.join_room rnd socketId roomId name color w) in
  let es := snd (Server.join_room rnd socketId roomId name color w) in
  (Server.lookupRoom roomId (Server.rooms w) = None ->
   w' = w
   /\ es = [Server.toSocket socketId
              (Server.error "Room not found or game already in progress")])
  /\ forall room : GameRoom,
       Server.lookupRoom roomId (Server.rooms w) = Some room ->
       (state room <> WAITING ->
        w' = w
        /\ es = [Server.toSocket socketId
                   (Server.error "Room not found or game already in progress")])
       /\ (state room = WAITING ->
           maxPlayers room <= INR (List.length (players room)) ->
           w' = w
           /\ es = [Server.toSocket socketId (Server.error "Room is full!")])
       /\ (state room = WAITING ->
           INR (List.length (players room)) < maxPlayers room ->
           let room' := fst (Server.addPlayer rnd socketId name color
                               (Server.cursor w) room) in
           Server.lookupRoom roomId (Server.rooms w') = Some room'
           /\ (forall j, j <> roomId ->
                 Server.lookupRoom j (Server.rooms w')
                 = Server.lookupRoom j (Server.rooms w))
           /\ map fst (Server.rooms w') = map fst (Server.rooms w)
           /\ In roomId (Server.socketRooms socketId (Server.joined w'))
           /\ Server.timers w' = Server.timers w
           /\ Server.cursor w'
              = snd (Server.addPlayer rnd socketId name color
                       (Server.cursor w) room)
           /\ es = [Server.toSocket socketId
                      (Server.room_joined roomId false socketId
                         (initialPotatoSpeed room) (maxPlayers room)
                         (isPrivate room));
                    Server.toRoom roomId
                      (Server.room_update (players room') (hostId room));
                    Server.toAll
                      (Server.lobbies_update
                         (Server.getActiveLobbies (Server.rooms w')));
                    Server.toSocket socketId (Server.snapshot true room')]).
Proof.
  cbv zeta. unfold Server.join_room. split.
  - intros ->. split; reflexivity.
  - intros room Hl. rewrite Hl. split; [|split].
    + intros Hs. destruct (state room); [contradiction|split; reflexivity..].
    + intros Hs Hfull. rewrite Hs.
      assert (Hc : (INR (List.length (players room)) >=? maxPlayers room) = true)
        by (apply geb_true; exact Hfull).
      rewrite Hc. split; reflexivity.
    + intros Hs Hroom. rewrite Hs.
      assert (Hc : (INR (List.length (players room)) >=? maxPlayers room) = false)
        by (apply geb_false; exact Hroom).
      rewrite Hc.
      assert (Hf : initialPotatoSpeed (fst (Server.addPlayer rnd socketId name
                                              color (Server.cursor w) room))
                   = initialPotatoSpeed room
                   /\ maxPlayers (fst (Server.addPlayer rnd socketId name color
                                         (Server.cursor w) room))
                      = maxPlayers room
                   /\ isPrivate (fst (Server.addPlayer rnd socketId name color
                                        (Server.cursor w) room))
                      = isPrivate room
                   /\ hostId (fst (Server.addPlayer rnd socketId name color
                                     (Server.cursor w) room))
                      = hostId room).
      { unfold Server.addPlayer.
        destruct (Server.findSafeSpawn rnd (obstacles room) (Server.cursor w)).
        destruct room; repeat split; reflexivity. }
      destruct (Server.addPlayer rnd socketId name color (Server.cursor w) room)
        as [room' k'].
      cbn [fst snd Server.rooms Server.joined Server.timers Server.cursor] in *.
      destruct Hf as (F1 & F2 & F3 & F4). rewrite F1, F2, F3, F4.
      split; [apply (lookupRoom_replace_same roomId room' room); exact Hl|].
      split; [intros j Hj; apply lookupRoom_replace_other; exact Hj|].
      split; [apply replaceRoom_keys|].
      split; [apply socketJoin_member|].
      repeat split.
Qed.


(** ** The ghost timer *)

(** X25. The timer of a ghost pickup.  A timer that is not yet due does not
    run.  When it runs it is removed from the pending timers, nothing is sent,
    and the only thing that can change is the ghost flag of the avatar it was
    started for, in the room it was started in: the flag is cleared, every
    other field of that avatar and every other avatar and room stay as they
    are; if the room or the avatar is gone, nothing changes at all. *)
Theorem X25_ghost_timeout (rnd : nat -> R) (now : R) (n : nat)
    (w : Server.World) (t : Server.GhostTimer) :
  nth_error (Server.timers w) n = Some t ->
  let w' := fst (Server.step rnd now (Server.Timeout n) w) in
  snd (Server.step rnd now (Server.Timeout n) w) = []
  /\ (now < Server.due t -> w' = w)
  /\ (Server.due t <= now ->
      Server.timers w' = Server.removeNth n (Server.timers w)
      /\ Server.joined w' = Server.joined w
      /\ Server.cursor w' = Server.cursor w
      /\ map fst (Server.rooms w') = map fst (Server.rooms w)
      /\ (forall j, j <> Server.timer_room t ->
            Server.lookupRoom j (Server.rooms w')
            = Server.lookupRoom j (Server.rooms w))
      /\ (Server.lookupRoom (Server.timer_room t) (Server.rooms w) = None ->
          Server.rooms w' = Server.rooms w)
      /\ forall room : GameRoom,
           Server.lookupRoom (Server.timer_room t) (Server.rooms w) = Some room ->
           exists room' : GameRoom,
             Server.lookupRoom (Server.timer_room t) (Server.rooms w') = Some room'
             /\ set_players (players room) room' = room
             /\ map id (players room') = map id (players room)
             /\ lookupPlayer (Server.timer_player t) (players room')
                = option_map (set_isGhost false)
                    (lookupPlayer (Server.timer_player t) (players room))
             /\ forall sid, sid <> Server.timer_player t ->
                  lookupPlayer sid (players room')
                  = lookupPlayer sid (players room)).
Proof.
  intros Hn. cbv zeta. unfold Server.step. rewrite Hn.
  destruct (Server.due t <=? now) eqn:Hd.
  - apply leb_true in Hd. cbn [fst snd Server.rooms Server.joined Server.timers
                                 Server.cursor].
    split; [reflexivity|]. split; [intros; lra|]. intros _.
    unfold Server.ghostCallback.
    assert (Hid : forall q, id (set_isGhost false q) = id q)
      by (intros q; destruct q; reflexivity).
    destruct (Server.lookupRoom (Server.timer_room t) (Server.rooms w))
      as [room|] eqn:Hl.
    + repeat (split; [reflexivity|]).
      split; [apply replaceRoom_keys|].
      split; [intros j Hj; apply lookupRoom_replace_other; exact Hj|].
      split; [discriminate|].
      intros room0 Hr. injection Hr as <-.
      eexists. split; [apply (lookupRoom_replace_same _ _ room); exact Hl|].
      assert (Hp : forall l, players (set_players l room) = l)
        by (intros l; destruct room; reflexivity).
      rewrite Hp.
      split; [destruct room; reflexivity|].
      split; [apply updatePlayer_ids; exact Hid|].
      split; [|intros sid Hs; apply lookup_update_other; [exact Hs|exact Hid]].
      clear. induction (players room) as [|q rest IH]; cbn; [reflexivity|].
      destruct (id q =? Server.timer_player t)%string eqn:E; cbn.
      * assert (H : (id (set_isGhost false q) =? Server.timer_player t)%string = true)
          by (destruct q; exact E).
        first [rewrite H | rewrite E]. reflexivity.
      * rewrite E. exact IH.
    + repeat (split; [reflexivity|]). intros room Hr; discriminate.
  - apply leb_false in Hd. cbn [fst snd].
    split; [reflexivity|]. split; [reflexivity|]. intros; lra.
Qed.

(** The timer of [haunted] runs at 5033 and not before. *)
Lemma X25_ghost_timeout_witness :
  fst (Server.step tenth 5000 (Server.Timeout 0) haunted) = haunted
  /\ map (fun ir => map isGhost (players (snd ir)))
         (Server.rooms (fst (Server.step tenth 5033 (Server.Timeout 0) haunted)))
     = [[false]]
  /\ Server.timers (fst (Server.step tenth 5033 (Server.Timeout 0) haunted)) = [].
Proof.
  pose proof (X25_ghost_timeout tenth 5000 0 haunted _ eq_refl) as (_ & H1 & _).
  pose proof (X25_ghost_timeout tenth 5033 0 haunted _ eq_refl) as (_ & _ & H2).
  cbv zeta in H1, H2.
  split; [apply H1; cbn; lra|].
  destruct H2 as (Ht & _); [cbn; lra|].
  split; [|exact Ht].
  unfold Server.step, haunted. cbn [nth_error Server.timers Server.due].
  replace (5033 <=? 5033) with true by (symmetry; apply leb_true; lra).
  reflexivity.
Defined.

(** ** The client: reconciliation and prediction *)


(** X27. The client's prediction never puts an avatar out of bounds or into a
    wall: an avatar that [isPositionValid] accepts is still accepted after
    [applyMovement], hence after [movePlayerToward], whatever the step, and
    nothing but its position changes.  Each coordinate either stays or takes
    the whole step of its axis, the vertical one being tested at the new
    horizontal position. *)
Theorem X27_client_moves_stay_valid (obstacles : list Obstacle) (vx vy : R)
    (isOnline : bool) (myId : option string) (tx ty dt : R) (p : Player) :
  valid obstacles p ->
  let q := Client.applyMovement obstacles vx vy p in
  let x' := if isPositionValid (x (position p) + vx) (y (position p))
                               (radius p) obstacles
            then x (position p) + vx else x (position p) in
  let y' := if isPositionValid x' (y (position p) + vy) (radius p) obstacles
            then y (position p) + vy else y (position p) in
  (valid obstacles q /\ position q = vec x' y'
   /\ set_position (position p) q = p)
  /\ (valid obstacles (Client.movePlayerToward isOnline myId obstacles tx ty dt p)
      /\ set_position (position p)
           (Client.movePlayerToward isOnline myId obstacles tx ty dt p) = p).
Proof.
  intros Hv.
  assert (Ha : forall ux uy,
             valid obstacles (Client.applyMovement obstacles ux uy p)
             /\ position (Client.applyMovement obstacles ux uy p)
                = vec (if isPositionValid (x (position p) + ux) (y (position p))
                                          (radius p) obstacles
                       then x (position p) + ux else x (position p))
                      (if isPositionValid
                            (if isPositionValid (x (position p) + ux)
                                                (y (position p)) (radius p) obstacles
                             then x (position p) + ux else x (position p))
                            (y (position p) + uy) (radius p) obstacles
                       then y (position p) + uy else y (position p))
             /\ set_position (position p) (Client.applyMovement obstacles ux uy p)
                = p).
  { intros ux uy. unfold Client.applyMovement, valid in *.
    destruct p as [? ? ? ? [px py] ? ? ? ? ? ? ? ? ? ? ? ? ? ? ? ? ? ?].
    cbn in *.
    destruct (isPositionValid (px + ux) py radius0 obstacles) eqn:E1; cbn.
    - destruct (isPositionValid (px + ux) (py + uy) radius0 obstacles) eqn:E2;
        cbn; repeat split; first [assumption | reflexivity].
    - destruct (isPositionValid px (py + uy) radius0 obstacles) eqn:E2;
        cbn; repeat split; first [assumption | reflexivity]. }
  cbv zeta. split; [apply Ha|].
  unfold Client.movePlayerToward. cbv zeta.
  destruct (Client.isHuman isOnline myId p).
  - destruct (_ <? 5); [split; [exact Hv|destruct p; reflexivity]|].
    destruct (_ <? _); split; apply Ha.
  - destruct (_ >? 1); [split; apply Ha|split; [exact Hv|destruct p; reflexivity]].
Qed.

Lemma X27_client_moves_stay_valid_witness :
  valid [wall] me
  /\ valid [wall] (Client.movePlayerToward true (Some "me"%string) [wall]
                     500 100 1 me)
  /\ valid [wall] (Client.applyMovement [wall] 250 0 me).
Proof.
  assert (Hv : valid [wall] me)
    by (unfold valid, isPositionValid, insideWall, me, wall; cbn; consts; cmp;
        reflexivity).
  split; [exact Hv|].
  pose proof (X27_client_moves_stay_valid [wall] 250 0 true (Some "me"%string)
                500 100 1 me Hv) as H.
  cbv zeta in H. destruct H as ((H1 & _) & (H2 & _)).
  split; assumption.
Defined.

(** ** The client's grid search *)

Lemma walkBack_trail (n : Client.Node) :
  Client.walkBack n = map (fun c => Client.cellCenter (fst c) (snd c)) (trail n).
Proof.
  revert n. fix IH 1. intros [cx cy f0 g0 h0 [p|]]; cbn; [|reflexivity].
  rewrite (IH p). reflexivity.
Qed.

Lemma last_default {A : Type} (l : list A) (a b : A) :
  l <> [] -> last l a = last l b.
Proof.
  induction l as [|e l IH]; intros Hne; [contradiction|].
  destruct l as [|e' l']; [reflexivity|].
  change (last (e' :: l') a = last (e' :: l') b). apply IH. discriminate.
Qed.

Lemma linked_app (c : Z * Z) (l : list (Z * Z)) (d : Z * Z) :
  linked c l -> near (last l c) d -> linked c (l ++ [d]).
Proof.
  revert c. induction l as [|e l IH]; intros c Hl Hn; cbn in *.
  - split; [exact Hn|exact I].
  - destruct Hl as [H1 H2]. split; [exact H1|].
    apply IH; [exact H2|]. destruct l as [|e' l']; [exact Hn|].
    rewrite (last_default (e' :: l') e c) by discriminate. exact Hn.
Qed.

(** The trail of a rooted node, read from the root, is a chain of free cells
    from the start to the node's own cell. *)
Lemma rooted_trail (obstacles : list Obstacle) (start : Z * Z) (n : Client.Node) :
  rooted obstacles start n ->
  Forall (freeCell obstacles) (rev (trail n))
  /\ linked start (rev (trail n))
  /\ last (rev (trail n)) start = (Client.node_x n, Client.node_y n).
Proof.
  revert n. fix IH 1. intros [cx cy f0 g0 h0 [p|]]; cbn.
  - intros (Hf & Hn & Hp). destruct (IH p Hp) as (H1 & H2 & H3).
    split; [apply Forall_app; split; [exact H1|constructor; [exact Hf|constructor]]|].
    split; [apply linked_app; [exact H2|rewrite H3; exact Hn]|].
    apply last_last.
  - intros H. split; [constructor|]. split; [exact I|]. symmetry; exact H.
Qed.

Lemma lowest_Forall (P : Client.Node -> Prop) (rest : list Client.Node) :
  forall (best : Client.Node) (before after : list Client.Node),
    P best -> Forall P before -> Forall P after -> Forall P rest ->
    P (fst (Client.lowest best before after rest))
    /\ Forall P (snd (Client.lowest best before after rest)).
Proof.
  induction rest as [|n rest IH]; intros best before after Hb Hbe Ha Hr; cbn.
  - split; [exact Hb|apply Forall_app; split; assumption].
  - inversion Hr; subst. destruct (Client.f n <? Client.f best)%Z.
    + apply IH; try assumption; [|constructor].
      apply Forall_app; split; [assumption|constructor; assumption].
    + apply IH; try assumption.
      apply Forall_app; split; [assumption|constructor; [assumption|constructor]].
Qed.

Lemma relax_Forall (P : Client.Node -> Prop) (cx cy gs hs : Z)
    (current : Client.Node) (openSet : list Client.Node) :
  P (Client.mkNode cx cy (gs + hs) gs hs (Some current)) ->
  Forall P openSet -> Forall P (Client.relax cx cy gs hs current openSet).
Proof.
  intros Hn. induction 1 as [|n rest Hp Hrest IH]; cbn; [constructor|].
  destruct (Client.sameCell cx cy n); constructor; assumption.
Qed.

Lemma visit_rooted (obstacles : list Obstacle) (start endNode : Z * Z)
    (closedSet : list (Z * Z)) (current : Client.Node)
    (openSet : list Client.Node) (n : Z * Z) :
  (Z.abs (fst n) <= 1 /\ Z.abs (snd n) <= 1)%Z ->
  rooted obstacles start current ->
  Forall (rooted obstacles start) openSet ->
  Forall (rooted obstacles start)
         (Client.visit obstacles endNode closedSet current openSet n).
Proof.
  intros Hn Hc Ho. unfold Client.visit. cbv zeta.
  destruct (_ || _ || _ || _) eqn:Hb; [exact Ho|].
  destruct (existsb _ closedSet); [exact Ho|].
  destruct (Client.blocked obstacles _ _) eqn:Hbl; [exact Ho|].
  assert (Hnew : forall fs gs hs,
             rooted obstacles start
               (Client.mkNode (Client.node_x current + fst n)
                              (Client.node_y current + snd n) fs gs hs
                              (Some current))).
  { intros fs gs hs. cbn. split; [|split; [|exact Hc]].
    - unfold freeCell. cbn [fst snd]. split; [|exact Hbl].
      apply orb_false_elim in Hb. destruct Hb as [Hb H4].
      apply orb_false_elim in Hb. destruct Hb as [Hb H3].
      apply orb_false_elim in Hb. destruct Hb as [H1 H2].
      unfold Client.cols, Client.rows in *. lia.
    - unfold near. cbn [fst snd]. lia. }
  destruct (find _ openSet) as [neighbor|].
  - destruct (Client.g current + 1 <? Client.g neighbor)%Z; [|exact Ho].
    apply relax_Forall; [apply Hnew|exact Ho].
  - apply Forall_app. split; [exact Ho|]. constructor; [apply Hnew|constructor].
Qed.

Lemma visits_rooted (obstacles : list Obstacle) (start endNode : Z * Z)
    (closedSet : list (Z * Z)) (current : Client.Node) (ns : list (Z * Z)) :
  Forall (fun n => (Z.abs (fst n) <= 1 /\ Z.abs (snd n) <= 1)%Z) ns ->
  rooted obstacles start current ->
  forall openSet : list Client.Node,
    Forall (rooted obstacles start) openSet ->
    Forall (rooted obstacles start)
           (fold_left (Client.visit obstacles endNode closedSet current) ns openSet).
Proof.
  intros Hns Hc. induction Hns as [|n ns Hn _ IH]; intros openSet Ho; cbn;
    [exact Ho|].
  apply IH. apply visit_rooted; assumption.
Qed.

Lemma neighbors_near :
  Forall (fun n => (Z.abs (fst n) <= 1 /\ Z.abs (snd n) <= 1)%Z) Client.neighbors.
Proof. unfold Client.neighbors. repeat constructor; cbn; lia. Qed.

(** A successful search ends on a rooted node of the goal cell. *)
Lemma search_rooted (obstacles : list Obstacle) (start endNode : Z * Z)
    (budget : nat) :
  forall (openSet : list Client.Node) (closedSet : list (Z * Z))
         (path : list Vector2),
    Forall (rooted obstacles start) openSet ->
    Client.search obstacles endNode budget openSet closedSet = Some path ->
    exists current : Client.Node,
      rooted obstacles start current
      /\ (Client.node_x current, Client.node_y current) = endNode
      /\ path = rev (Client.walkBack current).
Proof.
  induction budget as [|budget IH]; intros openSet closedSet path Ho Hs;
    [discriminate|].
  destruct openSet as [|first others]; [discriminate|].
  cbn [Client.search] in Hs.
  inversion Ho as [|? ? Hf Hot]; subst.
  destruct (lowest_Forall (rooted obstacles start) others first [] []
              Hf (Forall_nil _) (Forall_nil _) Hot) as [Hc Hr].
  destruct (Client.lowest first [] [] others) as [current rest].
  cbn [fst snd] in Hc, Hr.
  destruct (Client.sameCell (fst endNode) (snd endNode) current) eqn:He.
  - injection Hs as <-. exists current. split; [exact Hc|]. split; [|reflexivity].
    unfold Client.sameCell in He. apply andb_prop in He. destruct He as [E1 E2].
    apply Z.eqb_eq in E1. apply Z.eqb_eq in E2. destruct endNode; cbn in *.
    congruence.
  - eapply IH; [|exact Hs].
    apply visits_rooted; [exact neighbors_near|exact Hc|exact Hr].
Qed.

Lemma same_cell_close (a b : R) :
  JS.floor (a / GRID_SIZE) = JS.floor (b / GRID_SIZE) -> Rabs (a - b) < GRID_SIZE.
Proof.
  unfold JS.floor, GRID_SIZE. intros H.
  pose proof (Zfloor_bound (a / 50)) as [A1 A2].
  pose proof (Zfloor_bound (b / 50)) as [B1 B2].
  rewrite H in A1, A2. apply Rabs_def1; lra.
Qed.

(** X28. The client's path search is sound.  [findPath] returns either the
    target position alone (the direct fallback: target nearer than two cells,
    open set exhausted, or 300 iterations spent), or the centres of a
    non-empty chain of grid cells that lie inside the 40 x 40 grid, overlap
    no obstacle, are each next to the one before (diagonals included), start
    next to the cell of the start position and end on the cell of the
    target. *)
Theorem X28_findPath (obstacles : list Obstacle) (startPos endPos : Vector2) :
  let path := Client.findPath obstacles startPos endPos in
  path = [endPos]
  \/ exists cells : list (Z * Z),
       path = map (fun c => Client.cellCenter (fst c) (snd c)) cells
       /\ cells <> []
       /\ Forall (freeCell obstacles) cells
       /\ linked (Client.getGridPos startPos) cells
       /\ last cells (Client.getGridPos startPos) = Client.getGridPos endPos.
Proof.
  cbv zeta. unfold Client.findPath. cbv zeta.
  destruct (JS.hypot (x startPos - x endPos) (y startPos - y endPos)
            <? GRID_SIZE * 2) eqn:Hd; [left; reflexivity|].
  destruct (Client.search obstacles (Client.getGridPos endPos) 300 _ [])
    as [path|] eqn:Hs; [|left; reflexivity].
  right.
  apply (search_rooted obstacles (Client.getGridPos startPos)) in Hs.
  2:{ constructor; [|constructor]. reflexivity. }
  destruct Hs as (current & Hc & He & ->).
  destruct (rooted_trail obstacles _ current Hc) as (H1 & H2 & H3).
  exists (rev (trail current)).
  split; [rewrite walkBack_trail, map_rev; reflexivity|].
  split; [|split; [exact H1|split; [exact H2|rewrite H3; exact He]]].
  intros Hnil. rewrite Hnil in H3. cbn in H3. rewrite He in H3.
  apply ltb_false in Hd. unfold Client.getGridPos in H3.
  injection H3 as Hx Hy.
  apply same_cell_close in Hx. apply same_cell_close in Hy.
  unfold JS.hypot, GRID_SIZE in *.
  assert (Hsq : (x startPos - x endPos) * (x startPos - x endPos)
                + (y startPos - y endPos) * (y startPos - y endPos)
                < 100 * 100).
  { apply Rabs_def2 in Hx. apply Rabs_def2 in Hy. nra. }
  assert (Hlt : sqrt ((x startPos - x endPos) * (x startPos - x endPos)
                      + (y startPos - y endPos) * (y startPos - y endPos))
                < sqrt (100 * 100))
    by (apply sqrt_lt_1_alt; split; [apply sum_sq_nonneg|exact Hsq]).
  rewrite sqrt_square in Hlt by lra. lra.
Qed.

Lemma floor_of (a : R) (n : Z) : IZR n <= a < IZR n + 1 -> JS.floor a = n.
Proof. intros H. apply Zfloor_eq. exact H. Qed.

(** On a map without obstacles, from the cell [(0, 0)] to the cell [(3, 2)],
    the search returns three waypoints, two of them reached diagonally. *)
Lemma open_field :
  Client.findPath [] (vec 25 25) (vec 175 125)
  = [Client.cellCenter 1 1; Client.cellCenter 2 2; Client.cellCenter 3 2].
Proof.
  unfold Client.findPath, Client.getGridPos. cbn [x y].
  rewrite (hypot_ltb_false (25 - 175) (25 - 125) (GRID_SIZE * 2))
    by (unfold GRID_SIZE; lra).
  rewrite (floor_of (25 / GRID_SIZE) 0) by (unfold GRID_SIZE; lra).
  rewrite (floor_of (175 / GRID_SIZE) 3) by (unfold GRID_SIZE; lra).
  rewrite (floor_of (125 / GRID_SIZE) 2) by (unfold GRID_SIZE; lra).
  cbn [fst snd]. cbn. reflexivity.
Qed.

Lemma X28_findPath_witness :
  Client.findPath [] (vec 25 25) (vec 175 125)
  = [Client.cellCenter 1 1; Client.cellCenter 2 2; Client.cellCenter 3 2]
  /\ (Client.findPath [] (vec 25 25) (vec 175 125) = [vec 175 125]
      \/ exists cells : list (Z * Z),
           Client.findPath [] (vec 25 25) (vec 175 125)
           = map (fun c => Client.cellCenter (fst c) (snd c)) cells
           /\ cells <> []
           /\ Forall (freeCell []) cells
           /\ linked (Client.getGridPos (vec 25 25)) cells
           /\ last cells (Client.getGridPos (vec 25 25))
              = Client.getGridPos (vec 175 125)).
Proof.
  split; [exact open_field|].
  exact (X28_findPath [] (vec 25 25) (vec 175 125)).
Defined.

(** ** Pickups *)




(** ** Pushing two avatars apart *)

(** X30. The separation push.  Two living avatars, neither a ghost, whose
    centres are closer than the sum of their radii but not on the same spot,
    are each pushed half the overlap along the line through their centres,
    away from each other.  When the four positions tried on the way (each
    avatar's horizontal move, then its vertical move) are valid, both take
    the full push and end exactly touching: their centres are then the sum of
    their radii apart.  Whatever is accepted, nothing but the two positions
    changes. *)
Theorem X30_push (obstacles : list Obstacle) (p1 p2 : Player) :
  isDead p1 = false -> isDead p2 = false ->
  isGhost p1 = false -> isGhost p2 = false ->
  0 < centreDistance p1 p2 < radius p1 + radius p2 ->
  let q1 := fst (Server.resolvePair obstacles p1 p2) in
  let q2 := snd (Server.resolvePair obstacles p1 p2) in
  let d := centreDistance p1 p2 in
  let ux := (x (position p2) - x (position p1)) / d in
  let uy := (y (position p2) - y (position p1)) / d in
  let s := (radius p1 + radius p2 - d) / 2 in
  (set_position (position p1) q1 = p1 /\ set_position (position p2) q2 = p2)
  /\ (isPositionValid (x (position p1) - ux * s) (y (position p1))
                      (radius p1) obstacles = true ->
      isPositionValid (x (position p1) - ux * s) (y (position p1) - uy * s)
                      (radius p1) obstacles = true ->
      isPositionValid (x (position p2) + ux * s) (y (position p2))
                      (radius p2) obstacles = true ->
      isPositionValid (x (position p2) + ux * s) (y (position p2) + uy * s)
                      (radius p2) obstacles = true ->
      position q1 = vec (x (position p1) - ux * s) (y (position p1) - uy * s)
      /\ position q2 = vec (x (position p2) + ux * s) (y (position p2) + uy * s)
      /\ centreDistance q1 q2 = radius p1 + radius p2).
Proof.
  intros Hd1 Hd2 Hg1 Hg2 Hd. cbv zeta.
  unfold Server.resolvePair. rewrite Hd1, Hd2, Hg1, Hg2. cbn [orb]. cbv zeta.
  unfold centreDistance in *.
  destruct p1 as [? ? ? ? [x1 y1] ? r1 ? ? ? ? ? ? ? ? ? ? ? ? ? ? ? ?].
  destruct p2 as [? ? ? ? [x2 y2] ? r2 ? ? ? ? ? ? ? ? ? ? ? ? ? ? ? ?].
  cbn [position radius x y] in *.
  assert (Hsq : sqrt ((x2 - x1) * (x2 - x1) + (y2 - y1) * (y2 - y1))
                * sqrt ((x2 - x1) * (x2 - x1) + (y2 - y1) * (y2 - y1))
                = (x2 - x1) * (x2 - x1) + (y2 - y1) * (y2 - y1))
    by (apply sqrt_sqrt, sum_sq_nonneg).
  set (d := sqrt ((x2 - x1) * (x2 - x1) + (y2 - y1) * (y2 - y1))) in *.
  assert (Hc : (d <? r1 + r2) && (d >? 0) = true).
  { apply andb_true_intro. split; [apply ltb_true|apply gtb_true]; lra. }
  rewrite Hc. split.
  - cbn. repeat match goal with
           | |- context [isPositionValid ?a ?b ?c ?e] =>
               destruct (isPositionValid a b c e); cbn
           end; split; reflexivity.
  - intros H1 H2 H3 H4. cbn. rewrite H1. cbn. rewrite H2. cbn.
    rewrite H3. cbn. rewrite H4. cbn.
    split; [reflexivity|]. split; [reflexivity|].
    replace (x2 + (x2 - x1) / d * ((r1 + r2 - d) / 2)
             - (x1 - (x2 - x1) / d * ((r1 + r2 - d) / 2)))
      with ((x2 - x1) * ((r1 + r2) / d)) by (field; lra).
    replace (y2 + (y2 - y1) / d * ((r1 + r2 - d) / 2)
             - (y1 - (y2 - y1) / d * ((r1 + r2 - d) / 2)))
      with ((y2 - y1) * ((r1 + r2) / d)) by (field; lra).
    replace ((x2 - x1) * ((r1 + r2) / d) * ((x2 - x1) * ((r1 + r2) / d))
             + (y2 - y1) * ((r1 + r2) / d) * ((y2 - y1) * ((r1 + r2) / d)))
      with (((x2 - x1) * (x2 - x1) + (y2 - y1) * (y2 - y1))
            * (((r1 + r2) / d) * ((r1 + r2) / d))) by ring.
    rewrite <- Hsq.
    replace (d * d * ((r1 + r2) / d * ((r1 + r2) / d)))
      with ((r1 + r2) * (r1 + r2)) by (field; lra).
    apply sqrt_square. lra.
Qed.

(** [me] and [crowd], 30 units apart on an empty map, end 50 units apart, at
    [(90, 100)] and [(140, 100)]. *)
Lemma X30_push_witness :
  map position [fst (Server.resolvePair [] me crowd);
                snd (Server.resolvePair [] me crowd)]
  = [vec 90 100; vec 140 100]
  /\ centreDistance (fst (Server.resolvePair [] me crowd))
                    (snd (Server.resolvePair [] me crowd)) = 50.
Proof.
  assert (Hd : centreDistance me crowd = 30).
  { unfold centreDistance, me, crowd; cbn. apply sqrt_lem_1; lra. }
  assert (Hlt : 0 < centreDistance me crowd < radius me + radius crowd)
    by (rewrite Hd; cbn; consts; lra).
  pose proof (X30_push [] me crowd eq_refl eq_refl eq_refl eq_refl Hlt) as [_ H].
  cbv zeta in H. rewrite Hd in H.
  assert (Hv : forall a b, 25 <= a <= 1975 -> 25 <= b <= 1975 ->
                           isPositionValid a b 25 [] = true).
  { intros a b Ha Hb. unfold isPositionValid. consts. cmp. reflexivity. }
  destruct H as (H1 & H2 & H3);
    [apply Hv; cbn; consts; lra..|].
  cbn [map]. rewrite H1, H2, H3. split; [|cbn; consts; lra].
  cbn. consts. repeat f_equal; lra.
Defined.
